(** * cnn_processor_model: descriptor engine, stream packetizer, DMA tester

    A shallow embedding of three SystemC modules of the repository,

    - [PE]        (src/pe.cc):        per-PE descriptor execution engine,
    - [Sig2Sock]  (src/sig2sock.cc):  signal-to-socket stream packetizer,
    - [DMATester] (src/dmaTester.cc): register-protocol driver of the AXI DMA,

    together with the properties of the specification that concern them.

    Conventions.  C++ integers are [Z] with the wrap-around of their width
    written out.  A C++ exception is a value of a result type.  Behaviour
    that C++ leaves undefined (front()/pop() on an empty std::queue) is a
    separate outcome, never silently repaired.  The SystemC kernel and the
    TLM target are collaborators: the target is an oracle that answers each
    transaction, the kernel only chooses which runnable process resumes.

    The headers (pe.hh, sig2sock.hh, dmaTester.hh, dmaTestRegisterMap.hh)
    are not among the sources.  Where a member's type matters it is taken
    from its use in the .cc file and said so at the definition; the
    register map is a parameter. *)

From Stdlib Require Import ZArith Lia Bool String.
From stdpp Require Import base list relations.

Local Open Scope Z_scope.

(** ** Machine integers *)

(** Unsigned wrap-around at [w] bits. *)
Definition wrapu (w : Z) (z : Z) : Z := z mod 2 ^ w.

(** Two's complement wrap-around of a C++ [int] (32 bits). *)
Definition wrap_int (z : Z) : Z := (z + 2 ^ 31) mod 2 ^ 32 - 2 ^ 31.

Definition INT_MIN : Z := - 2 ^ 31.
Definition INT_MAX : Z := 2 ^ 31 - 1.

Definition is_int (z : Z) : Prop := INT_MIN <= z <= INT_MAX.

(** The first [n] bytes of the object representation of [v] on a
    little-endian host: what a [uint8_t*] walks over. *)
Fixpoint le_bytes (n : nat) (v : Z) : list Z :=
  match n with
  | O => []
  | S k => (v mod 256) :: le_bytes k (v / 256)
  end.

(** The unsigned value that a little-endian byte sequence represents. *)
Fixpoint of_le_bytes (bs : list Z) : Z :=
  match bs with
  | [] => 0
  | b :: rest => b mod 256 + 256 * of_le_bytes rest
  end.

(** ** The descriptor execution engine (src/pe.cc) *)

Module PE.

(** [DescriptorState] is an enum class; the source names three
    enumerators and treats every other value as invalid. *)
Inductive DescriptorState : Type :=
| GENWAIT
| WAIT
| SUSPENDED
| INVALID (raw : Z).

Record Descriptor_2D : Type := mkDesc {
  state : DescriptorState;
  x_count : Z;
  x_counter : Z;
  y_count : Z;
  y_counter : Z;
  y_modify : Z
}.

(** The members of [PE] that the state machine reads or writes.  The
    counters are compared with 0 from below and [weight_idx] is moved by
    [y_modify], so all of them are taken to be [int]; [prog_idx] only
    ever holds 0 or a successor, so it is a [nat]. *)
Record t : Type := mkPE {
  programmed : bool;
  program : list Descriptor_2D;
  prog_idx : nat;
  weights : list Z;
  weight_idx : Z
}.

Inductive exn : Type :=
| out_of_range          (* std::vector::at *)
| invalid_descriptor    (* "Invalid Descriptor in pe program" *)
| not_programmed.       (* "Attempted to update pe state without it being programmed" *)

Inductive result (A : Type) : Type :=
| Ok (a : A)
| Throw (e : exn).
Arguments Ok {A} a.
Arguments Throw {A} e.

Definition set_x_counter (d : Descriptor_2D) (v : Z) : Descriptor_2D :=
  mkDesc (state d) (x_count d) v (y_count d) (y_counter d) (y_modify d).

Definition set_y_counter (d : Descriptor_2D) (v : Z) : Descriptor_2D :=
  mkDesc (state d) (x_count d) (x_counter d) (y_count d) v (y_modify d).

(** The constructor and [reset]. *)
Definition reset (pe : t) : t :=
  mkPE false (program pe) (prog_idx pe) [] 0.

Definition loadWeights (ws : list Z) (pe : t) : t :=
  mkPE (programmed pe) (program pe) (prog_idx pe) ws (weight_idx pe).

Definition loadProgram (prog : list Descriptor_2D) (pe : t) : t :=
  mkPE true prog 0%nat (weights pe) (weight_idx pe).

(** [weights[weight_idx]]: the subscript is unchecked, so there is a
    value only inside the vector. *)
Definition currentWeight (pe : t) : option Z :=
  if weight_idx pe <? 0 then None
  else weights pe !! Z.to_nat (weight_idx pe).

(** The counter bookkeeping that the GENWAIT and WAIT branches share:
    [x_counter--], and on underflow the reload of [x_counter] and
    [y_counter--].  The boolean tells whether the underflow branch ran. *)
Definition tick_counters (d : Descriptor_2D) : Descriptor_2D * bool :=
  let d1 := set_x_counter d (wrap_int (x_counter d - 1)) in
  if x_counter d1 <? 0
  then (set_y_counter (set_x_counter d1 (x_count d1))
                      (wrap_int (y_counter d1 - 1)), true)
  else (d1, false).

(** [current_desc] is a reference into [program]: the updated descriptor
    is written back at [prog_idx]. *)
Definition updateState (pe : t) : result t :=
  if programmed pe then
    match program pe !! prog_idx pe with
    | None => Throw out_of_range
    | Some current_desc =>
        match state current_desc with
        | GENWAIT =>
            let '(d, underflow) := tick_counters current_desc in
            let widx := if underflow
                        then wrap_int (weight_idx pe + y_modify d)
                        else weight_idx pe in
            let pidx := if y_counter d <? 0
                        then S (prog_idx pe) else prog_idx pe in
            Ok (mkPE true (<[prog_idx pe := d]> (program pe)) pidx
                     (weights pe) widx)
        | WAIT =>
            let '(d, _) := tick_counters current_desc in
            let pidx := if y_counter d <? 0
                        then S (prog_idx pe) else prog_idx pe in
            Ok (mkPE true (<[prog_idx pe := d]> (program pe)) pidx
                     (weights pe) (weight_idx pe))
        | SUSPENDED => Ok pe
        | INVALID _ => Throw invalid_descriptor
        end
    end
  else Throw not_programmed.

(** [n] successive clock ticks; an exception ends the process. *)
Fixpoint run (n : nat) (pe : t) : result t :=
  match n with
  | O => Ok pe
  | S k => match updateState pe with
           | Ok pe' => run k pe'
           | Throw e => Throw e
           end
  end.

(** The descriptor the cursor points at, if any. *)
Definition current (pe : t) : option Descriptor_2D :=
  program pe !! prog_idx pe.

(** The one-descriptor program of the specification's example, with the
    counters starting at their counts. *)
Definition example_desc : Descriptor_2D := mkDesc GENWAIT 2 2 1 1 1.

Definition example_pe : t :=
  loadProgram [example_desc] (mkPE false [] 0%nat [] 0).

(** A descriptor with its two counters replaced. *)
Definition set_counters (d : Descriptor_2D) (x y : Z) : Descriptor_2D :=
  mkDesc (state d) (x_count d) x (y_count d) y (y_modify d).

(** The two states that count: GENWAIT and WAIT. *)
Definition counting (d : Descriptor_2D) : bool :=
  match state d with
  | GENWAIT | WAIT => true
  | _ => false
  end.

(** How far one outer-loop step of a descriptor moves the weight index. *)
Definition stride (d : Descriptor_2D) : Z :=
  match state d with
  | GENWAIT => y_modify d
  | _ => 0
  end.

(** The counters of a descriptor are within their counts. *)
Definition counters_in_range (d : Descriptor_2D) : Prop :=
  0 <= x_counter d <= x_count d
  /\ x_count d <= INT_MAX
  /\ -1 <= y_counter d <= y_count d
  /\ y_count d <= INT_MAX.

(** Every descriptor of the program has its counters within their counts,
    and no descriptor at or after the cursor is used up. *)
Definition counters_ok (pe : t) : Prop :=
  forall (j : nat) (d : Descriptor_2D),
    program pe !! j = Some d ->
    counters_in_range d
    /\ ((prog_idx pe <= j)%nat -> 0 <= y_counter d).

(** [updateState] as a caller that catches its exceptions sees it: the
    exception, if one is thrown, and the object as the call leaves it.
    Every member is written where the source writes it, so a throw
    carries the object as it is at that point. *)
Definition updateState_call (pe : t) : option exn * t :=
  if programmed pe then
    match program pe !! prog_idx pe with
    | None => (Some out_of_range, pe)
    | Some current_desc =>
        match state current_desc with
        | GENWAIT =>
            let '(d, underflow) := tick_counters current_desc in
            let widx := if underflow
                        then wrap_int (weight_idx pe + y_modify d)
                        else weight_idx pe in
            let pidx := if y_counter d <? 0
                        then S (prog_idx pe) else prog_idx pe in
            (None, mkPE true (<[prog_idx pe := d]> (program pe)) pidx
                        (weights pe) widx)
        | WAIT =>
            let '(d, _) := tick_counters current_desc in
            let pidx := if y_counter d <? 0
                        then S (prog_idx pe) else prog_idx pe in
            (None, mkPE true (<[prog_idx pe := d]> (program pe)) pidx
                        (weights pe) (weight_idx pe))
        | SUSPENDED => (None, pe)
        | INVALID _ => (Some invalid_descriptor, pe)
        end
    end
  else (Some not_programmed, pe).

(** [n] successive calls by a caller that catches every exception and
    calls again: what each call threw, in order, and the object after
    the last call. *)
Fixpoint calls (n : nat) (pe : t) : list (option exn) * t :=
  match n with
  | O => ([], pe)
  | S k =>
      let '(thrown, pe1) := updateState_call pe in
      let '(rest, pe') := calls k pe1 in
      (thrown :: rest, pe')
  end.

End PE.

(** ** The stream packetizer (src/sig2sock.cc) *)

Module Sig2Sock.

(** [bitsToBytes]: the number of bytes that hold [bits] bits. *)
Definition bitsToBytes (bits : Z) : Z :=
  let bytes := bits / 8 in
  if negb (bits mod 8 =? 0) then bytes + 1 else bytes.

(** The members that [updateInput], [flushBuffer] and [resetSetupTime]
    touch.  [buffer] is the std::queue, front first, of elements at least
    as wide as the bus (the assert in [flushBuffer] bounds the bus by a
    uint64_t); [currentWords] and [maxWords] are size_t; [maxWords] never
    changes after construction. *)
Record t : Type := mkS2S {
  buffer : list Z;
  currentWords : Z;
  maxWords : Z;
  setupTime : Z;
  inputReady : bool
}.

(** What one clock edge reads: the three input signals, and whether the
    target will answer a write issued on this edge with an ok response. *)
Record inputs : Type := mkIn {
  peripheralValid : bool;
  inputSig : Z;
  packetLength : Z;
  response_ok : bool
}.

Inductive fault : Type :=
| unaligned_width       (* "Adapter does not currently support non-byte aligned widths" *)
| write_failed          (* "Failed to write DMA transaction to memory" *)
| assertion_failed      (* assert(bitsToBytes(BUSWIDTH) <= sizeof(uint64_t)) *)
| empty_queue_access.   (* front()/pop() on an empty std::queue: undefined behaviour *)

(** The result of one activation: the new state and the packet written to
    the socket, if any; or the fault that ended it. *)
Inductive outcome : Type :=
| Done (s : t) (sent : option (list Z))
| Fault (f : fault).

(** The constructor.  [inputReady] is not in the initialiser list; its
    first value [ready0] is whatever the port holds before the first
    assignment. *)
Definition make (BUSWIDTH : Z) (maxWords : Z) (ready0 : bool) : fault + t :=
  if negb (BUSWIDTH mod 8 =? 0) then inl unaligned_width
  else inr (mkS2S [] 0 maxWords 1 ready0).

(** The outer loop of [flushBuffer]: [n] times, copy the first [nbytes]
    bytes of [buffer.front()] through the [uint8_t*], then [buffer.pop()].  [None] when an iteration finds
    the queue empty. *)
Fixpoint pop_words (n : nat) (nbytes : nat) (buf : list Z)
  : option (list Z * list Z) :=
  match n with
  | O => Some ([], buf)
  | S k =>
      match buf with
      | [] => None
      | w :: rest =>
          match pop_words k nbytes rest with
          | None => None
          | Some (data, buf') => Some (le_bytes nbytes w ++ data, buf')
          end
      end
  end.

Definition set_buffer (s : t) (b : list Z) : t :=
  mkS2S b (currentWords s) (maxWords s) (setupTime s) (inputReady s).

Definition set_inputReady (s : t) (r : bool) : t :=
  mkS2S (buffer s) (currentWords s) (maxWords s) (setupTime s) r.

Definition set_setupTime (s : t) (v : Z) : t :=
  mkS2S (buffer s) (currentWords s) (maxWords s) v (inputReady s).

(** [buffer.push(v); currentWords++] *)
Definition push_word (s : t) (v : Z) : t :=
  mkS2S (buffer s ++ [v]) (wrapu 64 (currentWords s + 1)) (maxWords s)
        (setupTime s) (inputReady s).

Definition flushBuffer (BUSWIDTH : Z) (i : inputs) (s : t) : outcome :=
  let requiredLength := packetLength i in
  if negb (requiredLength =? 0)
     && (wrapu 64 (Z.of_nat (length (buffer s)) * bitsToBytes BUSWIDTH)
           >=? requiredLength)
  then
    if negb (bitsToBytes BUSWIDTH <=? 8) then Fault assertion_failed
    else
      match pop_words (Z.to_nat requiredLength)
                      (Z.to_nat (bitsToBytes BUSWIDTH)) (buffer s) with
      | None => Fault empty_queue_access
      | Some (transData, buf') =>
          if response_ok i
          then Done (set_buffer s buf') (Some transData)
          else Fault write_failed
      end
  else Done s None.

Definition updateInput (BUSWIDTH : Z) (i : inputs) (s : t) : outcome :=
  if peripheralValid i && (currentWords s <? maxWords s) then
    if negb (setupTime s =? 0)
    then Done (set_setupTime s (setupTime s - 1)) None
    else
      match flushBuffer BUSWIDTH i (push_word s (inputSig i)) with
      | Done s' sent =>
          Done (set_inputReady s' (currentWords s' <? maxWords s')) sent
      | Fault f => Fault f
      end
  else
    match flushBuffer BUSWIDTH i s with
    | Done s' sent =>
        Done (set_inputReady s' (currentWords s' <? maxWords s')) sent
    | Fault f => Fault f
    end.

Definition resetSetupTime (s : t) : t := set_setupTime s 1.

(** The two activations of the module: a rising clock edge and a falling
    edge of [peripheralValid]. *)
Inductive event : Type :=
| Clk (i : inputs)
| ValidFall.

(** A run over a sequence of activations, collecting the packets written
    to the socket in order.  A fault ends the simulation. *)
Fixpoint run (BUSWIDTH : Z) (evs : list event) (s : t)
  : fault + (t * list (list Z)) :=
  match evs with
  | [] => inr (s, [])
  | ValidFall :: evs' => run BUSWIDTH evs' (resetSetupTime s)
  | Clk i :: evs' =>
      match updateInput BUSWIDTH i s with
      | Fault f => inl f
      | Done s' sent =>
          match run BUSWIDTH evs' s' with
          | inl f => inl f
          | inr (s'', ps) =>
              inr (s'', match sent with Some p => p :: ps | None => ps end)
          end
      end
  end.

(** The words a run samples into the queue, in order: those of the clock
    edges that take the [buffer.push] branch. *)
Fixpoint sampled (BUSWIDTH : Z) (evs : list event) (s : t) : list Z :=
  match evs with
  | [] => []
  | ValidFall :: evs' => sampled BUSWIDTH evs' (resetSetupTime s)
  | Clk i :: evs' =>
      (if peripheralValid i && (currentWords s <? maxWords s)
          && (setupTime s =? 0)
       then [inputSig i] else [])
      ++ match updateInput BUSWIDTH i s with
         | Fault _ => []
         | Done s' _ => sampled BUSWIDTH evs' s'
         end
  end.

(** The bytes that a queue of 8-bit words serialises to. *)
Definition bytes8 (buf : list Z) : list Z := mbind (M := list) (le_bytes 1) buf.

(** The clock edges of a run all see packet length [L] and a target that
    accepts the write. *)
Definition steady (L : Z) (evs : list event) : Prop :=
  Forall (fun e => match e with
                   | Clk i => packetLength i = L /\ response_ok i = true
                   | ValidFall => True
                   end) evs.

End Sig2Sock.

(** ** The DMA register-protocol driver (src/dmaTester.cc) *)

Module DMATester.

Definition sizeof_float : Z := 4.

(** dmaTestRegisterMap.hh is not part of the sources: the memory base
    address, the register addresses of DMA instance [ii] and the
    interrupt-enable mask are parameters of the model. *)
Record RegisterMap : Type := mkRegMap {
  MEM_BASE_ADDR : Z;
  MM2S_ADDR_REG : Z -> Z;
  MM2S_ADDR_MSB_REG : Z -> Z;
  MM2S_LENGTH_REG : Z -> Z;
  MM2S_CR_REG : Z -> Z;
  MM2S_SR_REG : Z -> Z;
  S2MM_ADDR_REG : Z -> Z;
  S2MM_ADDR_MSB_REG : Z -> Z;
  S2MM_LENGTH_REG : Z -> Z;
  S2MM_CR_REG : Z -> Z;
  S2MM_SR_REG : Z -> Z;
  AXIDMA_CR_IOC_IRQ_EN : Z
}.

Inductive tlm_command : Type :=
| TLM_READ_COMMAND
| TLM_WRITE_COMMAND
| TLM_IGNORE_COMMAND.

(** Every status other than ok and incomplete is an error for
    [is_response_ok]; they are one constructor here. *)
Inductive tlm_response_status : Type :=
| TLM_OK_RESPONSE
| TLM_INCOMPLETE_RESPONSE
| TLM_GENERIC_ERROR_RESPONSE.

(** The generic payload [trans].  [data] is the content of the buffer that
    the data pointer designates. *)
Record payload : Type := mkPayload {
  command : tlm_command;
  address : Z;
  data : list Z;
  data_length : Z;
  streaming_width : Z;
  response_status : tlm_response_status
}.

(** What the target does with a transaction: the status it sets and, for
    a read, the bytes it leaves in the buffer. *)
Record response : Type := mkResponse {
  rsp_status : tlm_response_status;
  rsp_data : list Z
}.

Inductive sc_event : Type :=
| dataLoaded
| mm2sIRQOnComp_posedge
| s2mmIRQOnComp_posedge.

Inductive wait_condition : Type :=
| for_time (ps : Z)
| for_event (e : sc_event).

(** What a process does that another party can observe, in order. *)
Inductive action : Type :=
| Transport (p : payload) (r : response)
| Wait (c : wait_condition)
| Notify (e : sc_event)
| Print (s : string).

(** The members of [DMATester], the kernel's record of whether the
    process that waits on [dataLoaded] has been triggered, and the
    observable history.  [testData] is a vector of floats, held as their
    binary32 bit patterns; the offsets are taken to be size_t; [trans] is
    the one payload that both processes use. *)
Record World : Type := mkWorld {
  burstMode : bool;
  mm2sOffset : Z;
  s2mmOffset : Z;
  testData : list Z;
  trans : payload;
  dataLoaded_triggered : bool;
  log : list action
}.

Inductive result (A : Type) : Type :=
| Val (a : A)
| Exn (what : string).
Arguments Val {A} a.
Arguments Exn {A} what.

(** Code of the module: a state transformer that returns or throws. *)
Definition M (A : Type) : Type := World -> result A * World.

#[global] Instance M_ret : MRet M := fun A a w => (Val a, w).

#[global] Instance M_bind : MBind M := fun A B f m w =>
  match m w with
  | (Val a, w') => f a w'
  | (Exn e, w') => (Exn e, w')
  end.

Definition get : M World := fun w => (Val w, w).

Definition modify (f : World -> World) : M unit := fun w => (Val tt, f w).

Definition throw {A : Type} (what : string) : M A := fun w => (Exn what, w).

Definition with_trans (f : payload -> payload) (w : World) : World :=
  mkWorld (burstMode w) (mm2sOffset w) (s2mmOffset w) (testData w)
          (f (trans w)) (dataLoaded_triggered w) (log w).

Definition with_log (f : list action -> list action) (w : World) : World :=
  mkWorld (burstMode w) (mm2sOffset w) (s2mmOffset w) (testData w)
          (trans w) (dataLoaded_triggered w) (f (log w)).

Definition with_triggered (b : bool) (w : World) : World :=
  mkWorld (burstMode w) (mm2sOffset w) (s2mmOffset w) (testData w)
          (trans w) b (log w).

Definition with_testData (f : list Z -> list Z) (w : World) : World :=
  mkWorld (burstMode w) (mm2sOffset w) (s2mmOffset w) (f (testData w))
          (trans w) (dataLoaded_triggered w) (log w).

Definition with_mm2sOffset (f : Z -> Z) (w : World) : World :=
  mkWorld (burstMode w) (f (mm2sOffset w)) (s2mmOffset w) (testData w)
          (trans w) (dataLoaded_triggered w) (log w).

Definition with_s2mmOffset (f : Z -> Z) (w : World) : World :=
  mkWorld (burstMode w) (mm2sOffset w) (f (s2mmOffset w)) (testData w)
          (trans w) (dataLoaded_triggered w) (log w).

Definition emit (a : action) : M unit := modify (with_log (fun l => l ++ [a])).

(** *** The payload's setters *)

(** [tlm_generic_payload::reset] releases extensions; the attributes
    modelled here keep their values. *)
Definition trans_reset : M unit := modify (with_trans (fun p => p)).

Definition set_command (c : tlm_command) : M unit :=
  modify (with_trans (fun p =>
    mkPayload c (address p) (data p) (data_length p) (streaming_width p)
              (response_status p))).

Definition set_read : M unit := set_command TLM_READ_COMMAND.
Definition set_write : M unit := set_command TLM_WRITE_COMMAND.

Definition set_address (a : Z) : M unit :=
  modify (with_trans (fun p =>
    mkPayload (command p) a (data p) (data_length p) (streaming_width p)
              (response_status p))).

(** [set_data_ptr]: from now on the payload designates a buffer that
    holds [bs]. *)
Definition set_data_ptr (bs : list Z) : M unit :=
  modify (with_trans (fun p =>
    mkPayload (command p) (address p) bs (data_length p) (streaming_width p)
              (response_status p))).

Definition set_data_length (n : Z) : M unit :=
  modify (with_trans (fun p =>
    mkPayload (command p) (address p) (data p) n (streaming_width p)
              (response_status p))).

Definition set_streaming_width (n : Z) : M unit :=
  modify (with_trans (fun p =>
    mkPayload (command p) (address p) (data p) (data_length p) n
              (response_status p))).

Definition set_response_status (s : tlm_response_status) : M unit :=
  modify (with_trans (fun p =>
    mkPayload (command p) (address p) (data p) (data_length p)
              (streaming_width p) s)).

Definition is_response_ok (p : payload) : bool :=
  match response_status p with
  | TLM_OK_RESPONSE => true
  | _ => false
  end.

(** [bs] cut or zero-padded to [n] bytes. *)
Definition fit (n : nat) (bs : list Z) : list Z := take n (bs ++ replicate n 0).

(** *** IEEE-754 binary32, on bit patterns *)

Definition float_is_nan (b : Z) : bool :=
  ((b / 2 ^ 23) mod 2 ^ 8 =? 255) && negb (b mod 2 ^ 23 =? 0).

Definition float_is_zero (b : Z) : bool := b mod 2 ^ 31 =? 0.

(** [a == b] on floats: false when either is a NaN, and the two zeros
    are equal. *)
Definition float_eq (a b : Z) : bool :=
  negb (float_is_nan a) && negb (float_is_nan b)
  && ((a =? b) || (float_is_zero a && float_is_zero b)).

(** [a != b] *)
Definition float_ne (a b : Z) : bool := negb (float_eq a b).

(** The conversion of an unsigned integer to float; exact below 2^24,
    which covers the ten values that [loadData] converts. *)
Definition float_of_size (n : Z) : Z :=
  if n =? 0 then 0
  else let e := Z.log2 n in (127 + e) * 2 ^ 23 + (n - 2 ^ e) * 2 ^ (23 - e).

(** The object representation of a float array and back. *)
Definition floats_to_bytes (fs : list Z) : list Z :=
  mbind (M := list) (le_bytes 4) fs.

Fixpoint bytes_to_floats (n : nat) (bs : list Z) : list Z :=
  match n with
  | O => []
  | S k => of_le_bytes (take 4 bs) :: bytes_to_floats k (drop 4 bs)
  end.

(** *** The two thread processes

    An SC_THREAD runs until it calls [wait] and goes on from there when
    the kernel resumes it.  A process is therefore the place where it is
    suspended, and one function that runs it from that place to the next. *)

Inductive testRun_at : Type :=
| TR_entry            (* not started *)
| TR_reset            (* wait(20, SC_NS) *)
| TR_irq              (* wait(mm2sIRQOnComp.posedge_event()) *)
| TR_clear_settle     (* clearIOC: first wait(50, SC_PS) *)
| TR_clear_deassert   (* clearIOC: second wait(50, SC_PS) *)
| TR_returned.

Inductive verify_at : Type :=
| VW_entry
| VW_reset            (* wait(20, SC_NS) *)
| VW_dataLoaded       (* wait(dataLoaded) *)
| VW_irq              (* wait(s2mmIRQOnComp->posedge_event()) *)
| VW_clear_settle
| VW_clear_deassert
| VW_returned.

(** A process is suspended somewhere or has ended with an exception. *)
Inductive process (A : Type) : Type :=
| Suspended (at_ : A)
| Terminated (what : string).
Arguments Suspended {A} at_.
Arguments Terminated {A} what.

(** The module under the kernel: the shared members and both processes. *)
Record system : Type := mkSystem {
  world : World;
  tr : process testRun_at;
  vw : process verify_at
}.

Definition after {A : Type} (r : result A) : process A :=
  match r with
  | Val at_ => Suspended at_
  | Exn what => Terminated what
  end.

Definition mismatch_message : string := "Writeback data doesn't match test data".

(** Elements [ii], ..., [i - 1] of the two vectors compare equal. *)
Definition agree_between (td md : list Z) (ii i : nat) : Prop :=
  forall j : nat, (ii <= j < i)%nat ->
    exists t m, td !! j = Some t /\ md !! j = Some m /\ float_ne t m = false.

Section Driver.

Variable rm : RegisterMap.

(** The target bound to [outputSock]: it sees the history and the
    transaction, and answers. *)
Variable target : list action -> payload -> response.

(** [outputSock->b_transport(trans, transportTime)]: the target sets the
    response status and, for a read, fills the buffer; bytes it does not
    supply read as zero.  The call is taken not to suspend the caller. *)
Definition b_transport : M unit :=
  w ← get;
  let p := trans w in
  let r := target (log w) p in
  emit (Transport p r);;
  set_response_status (rsp_status r);;
  match command p with
  | TLM_READ_COMMAND =>
      set_data_ptr (fit (Z.to_nat (data_length p)) (rsp_data r))
  | _ => mret tt
  end.

(** [wait]: the caller suspends at the end of this resumption.  A
    process that starts to wait on [dataLoaded] has not been triggered. *)
Definition wait (c : wait_condition) : M unit :=
  match c with
  | for_event dataLoaded => modify (with_triggered false)
  | _ => mret tt
  end;;
  emit (Wait c).

(** Immediate notification: it reaches the processes that wait now. *)
Definition notify (e : sc_event) : M unit :=
  match e with
  | dataLoaded => modify (with_triggered true)
  | _ => mret tt
  end;;
  emit (Notify e).

Definition print (s : string) : M unit := emit (Print s).

(** The loop of [loadData]: [n] times [testData.push_back(ii); ii++]. *)
Fixpoint push_range (n : nat) (ii : Z) (v : list Z) : list Z :=
  match n with
  | O => v
  | S k => push_range k (ii + 1) (v ++ [float_of_size ii])
  end.

Definition loadData : M unit :=
  modify (with_testData (push_range 10 0));;
  trans_reset;;
  set_write;;
  set_address (MEM_BASE_ADDR rm);;
  w ← get;
  set_data_ptr (floats_to_bytes (testData w));;
  set_data_length (wrapu 32 (Z.of_nat (length (testData w)) * sizeof_float));;
  b_transport;;
  w ← get;
  (if negb (is_response_ok (trans w))
   then throw "Failed to write test data to memory"
   else mret tt);;
  notify dataLoaded.

Definition sendDMAReq (s2mm : bool) : M unit :=
  w ← get;
  let dataAddress :=
    wrapu 64 (MEM_BASE_ADDR rm
              + wrapu 64 ((if s2mm
                           then wrapu 64 (Z.of_nat (length (testData w))
                                          + s2mmOffset w)
                           else mm2sOffset w) * sizeof_float)) in
  let addrLsb := wrapu 32 (Z.shiftr (wrapu 64 (Z.shiftl dataAddress 32)) 32) in
  let addrMsb := wrapu 32 (Z.shiftr dataAddress 32) in
  let dataSize :=
    if burstMode w
    then wrapu 32 (sizeof_float * Z.of_nat (length (testData w)))
    else sizeof_float in
  trans_reset;;
  set_write;;
  set_address (if s2mm then S2MM_ADDR_REG rm 0 else MM2S_ADDR_REG rm 0);;
  set_data_ptr (le_bytes 4 addrLsb);;
  set_data_length 4;;
  set_streaming_width 4;;
  b_transport;;
  set_response_status TLM_INCOMPLETE_RESPONSE;;
  set_address (if s2mm then S2MM_ADDR_MSB_REG rm 0 else MM2S_ADDR_MSB_REG rm 0);;
  set_data_ptr (le_bytes 4 addrMsb);;
  set_data_length 4;;
  set_streaming_width 4;;
  b_transport;;
  set_response_status TLM_INCOMPLETE_RESPONSE;;
  set_address (if s2mm then S2MM_LENGTH_REG rm 0 else MM2S_LENGTH_REG rm 0);;
  set_data_ptr (le_bytes 4 dataSize);;
  set_data_length 4;;
  b_transport;;
  if s2mm
  then modify (with_s2mmOffset (fun o => wrapu 64 (o + dataSize / sizeof_float)))
  else modify (with_mm2sOffset (fun o => wrapu 64 (o + dataSize / sizeof_float))).

Definition sendMM2SReq : M unit := sendDMAReq false.

Definition sendS2MMReq : M unit := sendDMAReq true.

(** [crRegVal] is read through the payload's pointer, or-ed with the
    enable bit in place, and written back through the same pointer.  The
    source leaves [crRegVal] uninitialised; here the buffer starts at
    zero, which stands for bytes the source does not determine.  What is
    written is therefore determined by the source only when the target
    fills the whole word. *)
Definition enableIOC (s2mm : bool) (ii : Z) : M unit :=
  trans_reset;;
  set_read;;
  set_address (if s2mm then S2MM_CR_REG rm ii else MM2S_CR_REG rm ii);;
  set_data_ptr (le_bytes 4 0);;
  set_data_length 4;;
  set_streaming_width 4;;
  b_transport;;
  w ← get;
  let crRegVal := of_le_bytes (data (trans w)) in
  set_data_ptr (le_bytes 4 (Z.lor crRegVal (AXIDMA_CR_IOC_IRQ_EN rm)));;
  set_write;;
  set_response_status TLM_INCOMPLETE_RESPONSE;;
  b_transport.

(** [clearIOC] up to its first wait.  [srRegVal] is uninitialised in
    the source as [crRegVal] is; the buffer starts at zero here, and the
    bytes written back are determined by the source only when the target
    fills the whole word. *)
Definition clearIOC_read (s2mm : bool) (ii : Z) : M unit :=
  trans_reset;;
  set_read;;
  set_address (if s2mm then S2MM_SR_REG rm ii else MM2S_SR_REG rm ii);;
  set_data_ptr (le_bytes 4 0);;
  set_data_length 4;;
  set_streaming_width 4;;
  b_transport;;
  wait (for_time 50).

(** ... and from there to its second wait.  It goes on with [trans] as it
    is when the process resumes. *)
Definition clearIOC_write : M unit :=
  set_response_status TLM_INCOMPLETE_RESPONSE;;
  set_write;;
  b_transport;;
  wait (for_time 50).

(** [clearIOC] when nothing else runs during its two waits. *)
Definition clearIOC (s2mm : bool) (ii : Z) : M unit :=
  clearIOC_read s2mm ii;; clearIOC_write.

(** The comparison loop at the end of [verifyMemWriteback], from index
    [ii] with [n] elements to go.  The value tells how the loop was left:
    [Some ii] by the [return] at index [ii], [None] by its condition. *)
Fixpoint compare_from (n : nat) (ii : nat) (memData : list Z)
  : M (option nat) :=
  match n with
  | O => mret None
  | S k =>
      w ← get;
      match testData w !! ii, memData !! ii with
      | Some t, Some m =>
          if float_ne t m
          then print mismatch_message;;
               mret (Some ii)
          else compare_from k (S ii) memData
      | _, _ => throw "vector::at"
      end
  end.

(** [verifyMemWriteback] from the comment "Read from memory" on. *)
Definition readback_and_compare : M (option nat) :=
  w ← get;
  let n := length (testData w) in
  trans_reset;;
  set_read;;
  set_address (wrapu 64 (MEM_BASE_ADDR rm
                         + wrapu 64 (Z.of_nat n * sizeof_float)));;
  set_data_ptr (replicate (4 * n) 0);;
  set_data_length (wrapu 32 (Z.of_nat n * sizeof_float));;
  b_transport;;
  w ← get;
  (if negb (is_response_ok (trans w))
   then throw "Failed to read writeback data from memory"
   else mret tt);;
  compare_from n 0 (bytes_to_floats n (data (trans w))).

(** *** The code of the two thread processes *)

(** The head of the [while (true)] of [testRun]. *)
Definition testRun_loop : M testRun_at :=
  w ← get;
  if mm2sOffset w <? Z.of_nat (length (testData w))
  then sendMM2SReq;;
       wait (for_event mm2sIRQOnComp_posedge);;
       mret TR_irq
  else print "Test data consumed!";;
       mret TR_returned.

Definition testRun_from (at_ : testRun_at) : M testRun_at :=
  match at_ with
  | TR_entry => wait (for_time 20000);; mret TR_reset
  | TR_reset => loadData;; enableIOC false 0;; testRun_loop
  | TR_irq => clearIOC_read false 0;; mret TR_clear_settle
  | TR_clear_settle => clearIOC_write;; mret TR_clear_deassert
  | TR_clear_deassert => testRun_loop
  | TR_returned => mret TR_returned
  end.

(** The head of the [while (true)] of [verifyMemWriteback]. *)
Definition verify_loop : M verify_at :=
  w ← get;
  if s2mmOffset w <? Z.of_nat (length (testData w))
  then sendS2MMReq;;
       wait (for_event s2mmIRQOnComp_posedge);;
       mret VW_irq
  else readback_and_compare;;
       mret VW_returned.

Definition verifyMemWriteback_from (at_ : verify_at) : M verify_at :=
  match at_ with
  | VW_entry => wait (for_time 20000);; mret VW_reset
  | VW_reset => enableIOC true 0;; wait (for_event dataLoaded);;
                mret VW_dataLoaded
  | VW_dataLoaded => verify_loop
  | VW_irq => clearIOC_read true 0;; mret VW_clear_settle
  | VW_clear_settle => clearIOC_write;; mret VW_clear_deassert
  | VW_clear_deassert => verify_loop
  | VW_returned => mret VW_returned
  end.

(** A process run on its own, every wait answered at once: at most
    [fuel] resumptions.  [None] when the fuel does not reach the return. *)
Fixpoint testRun (fuel : nat) (at_ : testRun_at) : M (option unit) :=
  match at_, fuel with
  | TR_returned, _ => mret (Some tt)
  | _, O => mret None
  | _, S k => at' ← testRun_from at_; testRun k at'
  end.

Fixpoint verifyMemWriteback (fuel : nat) (at_ : verify_at) : M (option unit) :=
  match at_, fuel with
  | VW_returned, _ => mret (Some tt)
  | _, O => mret None
  | _, S k => at' ← verifyMemWriteback_from at_; verifyMemWriteback k at'
  end.

(** *** The two processes under the kernel *)

(** The module after the kernel has resumed one process from [at_] and
    the process has run to its next wait. *)
Definition resume_testRun (s : system) (at_ : testRun_at) : system :=
  mkSystem (snd (testRun_from at_ (world s)))
           (after (fst (testRun_from at_ (world s))))
           (vw s).

Definition resume_verify (s : system) (at_ : verify_at) : system :=
  mkSystem (snd (verifyMemWriteback_from at_ (world s)))
           (tr s)
           (after (fst (verifyMemWriteback_from at_ (world s)))).

(** One scheduling step: the kernel resumes one suspended process.
    Timeouts and interrupt edges come from outside and may come at any
    time; [dataLoaded] resumes the waiting process only once it has been
    triggered. *)
Inductive step : system -> system -> Prop :=
| step_testRun (s : system) (at_ : testRun_at) :
    tr s = Suspended at_ ->
    at_ <> TR_returned ->
    step s (resume_testRun s at_)
| step_verify (s : system) (at_ : verify_at) :
    vw s = Suspended at_ ->
    at_ <> VW_returned ->
    (at_ = VW_dataLoaded -> dataLoaded_triggered (world s) = true) ->
    step s (resume_verify s at_).

End Driver.

(** The constructor: both offsets zero, no test data, nothing logged. *)
Definition initial_payload : payload :=
  mkPayload TLM_IGNORE_COMMAND 0 [] 0 0 TLM_INCOMPLETE_RESPONSE.

Definition make (burst : bool) : World :=
  mkWorld burst 0 0 [] initial_payload false [].

Definition boot (burst : bool) : system :=
  mkSystem (make burst) (Suspended TR_entry) (Suspended VW_entry).

(** What a history shows of an action when payload data and responses
    are left aside. *)
Inductive observation : Type :=
| reads (a : Z)
| writes (a : Z)
| ignores (a : Z)
| waits (c : wait_condition)
| notifies (e : sc_event)
| prints (s : string).

Definition observe (x : action) : observation :=
  match x with
  | Transport p _ =>
      match command p with
      | TLM_READ_COMMAND => reads (address p)
      | TLM_WRITE_COMMAND => writes (address p)
      | TLM_IGNORE_COMMAND => ignores (address p)
      end
  | Wait c => waits c
  | Notify e => notifies e
  | Print s => prints s
  end.

Definition is_write_to (a : Z) (o : observation) : bool :=
  match o with
  | writes b => b =? a
  | _ => false
  end.

(** The number of write transactions to address [a] in a history. *)
Fixpoint count_writes (a : Z) (os : list observation) : nat :=
  match os with
  | [] => O
  | o :: rest => ((if is_write_to a o then 1 else 0) + count_writes a rest)%nat
  end.

Definition writes_to (a : Z) (l : list action) : nat :=
  count_writes a (observe <$> l).

Definition is_notify (o : observation) : bool :=
  match o with
  | notifies dataLoaded => true
  | _ => false
  end.

(** [loadData] has completed: its notification is in the history. *)
Definition loaded (l : list action) : Prop :=
  Exists (fun x => is_notify (observe x) = true) l.

(** Every write to address [a] in the history comes after the completion
    of [loadData]. *)
Definition only_after_load (a : Z) (l : list action) : Prop :=
  forall (l1 l2 : list action) (x : action),
    l = l1 ++ x :: l2 -> is_write_to a (observe x) = true -> loaded l1.

(** The size of one transfer request, in bytes. *)
Definition request_size (w : World) : Z :=
  if burstMode w
  then wrapu 32 (sizeof_float * Z.of_nat (length (testData w)))
  else sizeof_float.

(** How a pass through the head of a transfer loop ends, in terms of the
    offset [o] it tests: with a request, at the interrupt wait [at_irq]
    and the offset advanced, or out of the loop with the offset as it
    was. *)
Definition loop_outcome {A : Type} (w : World) (o : Z) (at_irq : A)
           (r : result A) (o' : Z) : Prop :=
  (o < Z.of_nat (length (testData w))
   /\ r = Val at_irq
   /\ o' = wrapu 64 (o + request_size w / sizeof_float))
  \/ (Z.of_nat (length (testData w)) <= o
      /\ r <> Val at_irq
      /\ o' = o).

(** The places of the two processes from which [loadData] may still be
    pending. *)
Definition tr_before_data (p : process testRun_at) : bool :=
  match p with
  | Suspended TR_entry | Suspended TR_reset => true
  | _ => false
  end.

Definition tr_before_load (p : process testRun_at) : bool :=
  match p with
  | Suspended TR_entry | Suspended TR_reset | Terminated _ => true
  | _ => false
  end.

Definition vw_before_load (p : process verify_at) : bool :=
  match p with
  | Suspended VW_entry | Suspended VW_reset | Suspended VW_dataLoaded => true
  | _ => false
  end.

(** What holds of the module in every state the kernel can bring it to. *)
Record invariant (rm : RegisterMap) (burst : bool) (s : system) : Prop :=
  mkInvariant {
  inv_burst : burstMode (world s) = burst;
  inv_data : if tr_before_data (tr s)
             then testData (world s) = []
             else length (testData (world s)) = 10%nat;
  inv_mm2s : 0 <= mm2sOffset (world s) <= Z.of_nat (length (testData (world s)));
  inv_s2mm : 0 <= s2mmOffset (world s) <= Z.of_nat (length (testData (world s)));
  inv_mm2s_burst : burst = true ->
                   mm2sOffset (world s) = 0
                   \/ mm2sOffset (world s)
                      = Z.of_nat (length (testData (world s)));
  inv_s2mm_burst : burst = true ->
                   s2mmOffset (world s) = 0
                   \/ s2mmOffset (world s)
                      = Z.of_nat (length (testData (world s)));
  inv_triggered : dataLoaded_triggered (world s) = true ->
                  loaded (log (world s));
  inv_tr : tr_before_load (tr s) = false -> loaded (log (world s));
  inv_vw : vw_before_load (vw s) = false -> loaded (log (world s));
  inv_early : forall a : Z,
      a <> MEM_BASE_ADDR rm -> a <> S2MM_CR_REG rm 0 ->
      only_after_load a (log (world s))
}.

(** A schedule for examples, with the layout of the AXI DMA and a target
    that accepts everything: both processes start; [verifyMemWriteback]
    is resumed from its reset wait before [testRun] is
    ([schedule_enable]); then [testRun] loads the data and issues its
    first request, and [verifyMemWriteback], triggered, issues its own
    ([schedule_requests]). *)
Definition schedule_enable (rm : RegisterMap)
           (target : list action -> payload -> response) : system :=
  resume_verify rm target
    (resume_verify rm target
       (resume_testRun rm target (boot false) TR_entry)
       VW_entry)
    VW_reset.

Definition schedule_requests (rm : RegisterMap)
           (target : list action -> payload -> response) : system :=
  resume_verify rm target
    (resume_testRun rm target (schedule_enable rm target) TR_reset)
    VW_dataLoaded.

(** The other order at the reset timeout: [testRun] is resumed first and
    loads the data, [verifyMemWriteback] enables its interrupt and starts
    to wait after that. *)
Definition schedule_load_first (rm : RegisterMap)
           (target : list action -> payload -> response) : system :=
  resume_verify rm target
    (resume_testRun rm target
       (resume_verify rm target
          (resume_testRun rm target (boot false) TR_entry)
          VW_entry)
       TR_reset)
    VW_reset.

(** [verifyMemWriteback] waits on [dataLoaded] after the one notification
    of the run has been given, or after [loadData] has thrown. *)
Definition missed_notification (s : system) : Prop :=
  tr_before_data (tr s) = false
  /\ dataLoaded_triggered (world s) = false
  /\ vw s = Suspended VW_dataLoaded.

(** The target accepts the write of the test vector to memory. *)
Definition load_accepted (rm : RegisterMap)
           (target : list action -> payload -> response) : Prop :=
  forall (l : list action) (p : payload),
    command p = TLM_WRITE_COMMAND ->
    address p = MEM_BASE_ADDR rm ->
    rsp_status (target l p) = TLM_OK_RESPONSE.

(** The MM2S length register is not also one of the other addresses that
    [testRun] writes to. *)
Definition mm2s_length_distinct (rm : RegisterMap) : Prop :=
  MM2S_LENGTH_REG rm 0 <> MEM_BASE_ADDR rm
  /\ MM2S_LENGTH_REG rm 0 <> MM2S_ADDR_REG rm 0
  /\ MM2S_LENGTH_REG rm 0 <> MM2S_ADDR_MSB_REG rm 0
  /\ MM2S_LENGTH_REG rm 0 <> MM2S_CR_REG rm 0
  /\ MM2S_LENGTH_REG rm 0 <> MM2S_SR_REG rm 0.

(** Two targets for examples: one accepts every transaction and returns
    zeros, one rejects every transaction. *)
Definition accepting_target (_ : list action) (_ : payload) : response :=
  mkResponse TLM_OK_RESPONSE [].

Definition rejecting_target (_ : list action) (_ : payload) : response :=
  mkResponse TLM_GENERIC_ERROR_RESPONSE [].

(** A register map in the layout of the AXI DMA, used for examples. *)
Definition axi_dma : RegisterMap :=
  mkRegMap 4096
           (fun ii => 65536 * ii + 24) (fun ii => 65536 * ii + 28)
           (fun ii => 65536 * ii + 40)
           (fun ii => 65536 * ii + 0) (fun ii => 65536 * ii + 4)
           (fun ii => 65536 * ii + 72) (fun ii => 65536 * ii + 76)
           (fun ii => 65536 * ii + 88)
           (fun ii => 65536 * ii + 48) (fun ii => 65536 * ii + 52)
           4096.

(** The S2MM length register is not also one of the other addresses that
    the transfer loop of [verifyMemWriteback] writes to. *)
Definition s2mm_length_distinct (rm : RegisterMap) : Prop :=
  S2MM_LENGTH_REG rm 0 <> S2MM_ADDR_REG rm 0
  /\ S2MM_LENGTH_REG rm 0 <> S2MM_ADDR_MSB_REG rm 0
  /\ S2MM_LENGTH_REG rm 0 <> S2MM_SR_REG rm 0.

(** The 64-bit address and the byte count that the three register writes
    of one transfer request convey. *)
Definition requested_address (lsb msb : payload) : Z :=
  of_le_bytes (data lsb) + 2 ^ 32 * of_le_bytes (data msb).

Definition requested_length (len : payload) : Z := of_le_bytes (data len).

(** A float that the comparison can find equal to itself: a 32-bit
    pattern that is not a NaN. *)
Definition comparable (f : Z) : Prop :=
  0 <= f < 2 ^ 32 /\ float_is_nan f = false.

(** The target answers the read of the written-back vector with [bs]. *)
Definition readback_returns (rm : RegisterMap)
           (target : list action -> payload -> response)
           (n : nat) (st : tlm_response_status) (bs : list Z) : Prop :=
  forall (l : list action) (p : payload),
    command p = TLM_READ_COMMAND ->
    address p = wrapu 64 (MEM_BASE_ADDR rm
                          + wrapu 64 (Z.of_nat n * sizeof_float)) ->
    target l p = mkResponse st bs.

(** A target for examples: it answers every transaction ok, a read with
    the bytes [bs]. *)
Definition constant_target (bs : list Z) (_ : list action) (_ : payload)
  : response :=
  mkResponse TLM_OK_RESPONSE bs.

(** A schedule for examples: after [schedule_requests], the S2MM
    process is resumed by its interrupt and goes through both halves of
    [clearIOC]; then [testRun], resumed by its own interrupt, reads the
    MM2S status register.  [testRun] is then inside [clearIOC], between
    the two waits, and the S2MM process is about to go round its loop. *)
Definition schedule_clearing (rm : RegisterMap)
           (target : list action -> payload -> response) : system :=
  resume_testRun rm target
    (resume_verify rm target
       (resume_verify rm target (schedule_requests rm target) VW_irq)
       VW_clear_settle)
    TR_irq.

(** The target rejects the write of the test vector to memory. *)
Definition load_rejected (rm : RegisterMap)
           (target : list action -> payload -> response) : Prop :=
  forall (l : list action) (p : payload),
    command p = TLM_WRITE_COMMAND ->
    address p = MEM_BASE_ADDR rm ->
    rsp_status (target l p) <> TLM_OK_RESPONSE.

(** The payload [p] with its buffer holding [bs]. *)
Definition with_data (p : payload) (bs : list Z) : payload :=
  mkPayload (command p) (address p) bs (data_length p) (streaming_width p)
            (response_status p).

(** The target answers every read of register [a] with a full word: it
    writes all four bytes of the buffer, and its answer does not depend
    on what the buffer held before. *)
Definition fills_word (target : list action -> payload -> response) (a : Z)
  : Prop :=
  forall (l : list action) (p : payload),
    command p = TLM_READ_COMMAND ->
    address p = a ->
    (4 <= length (rsp_data (target l p)))%nat
    /\ forall bs : list Z, target l (with_data p bs) = target l p.

End DMATester.

(** * Properties *)

(** ** Machine integers *)

Lemma wrap_int_id (z : Z) : is_int z -> wrap_int z = z.
Proof.
  unfold is_int, INT_MIN, INT_MAX, wrap_int. intros H.
  rewrite Z.mod_small; lia.
Qed.

Lemma wrap_int_range (z : Z) : is_int (wrap_int z).
Proof.
  unfold is_int, INT_MIN, INT_MAX, wrap_int.
  pose proof (Z.mod_pos_bound (z + 2 ^ 31) (2 ^ 32) ltac:(lia)). lia.
Qed.

Lemma wrapu_id (w z : Z) : 0 <= z < 2 ^ w -> wrapu w z = z.
Proof. intros H. unfold wrapu. apply Z.mod_small. exact H. Qed.

Lemma length_le_bytes (n : nat) (v : Z) : length (le_bytes n v) = n.
Proof. revert v. induction n as [|n IH]; intros v; simpl; [|rewrite IH]; reflexivity. Qed.

(** ** The descriptor execution engine *)

Section PE_properties.

Import PE.

(** The counters of a descriptor after one tick, when nothing overflows. *)
Lemma tick_counters_spec (d : Descriptor_2D) :
  is_int (x_counter d - 1) ->
  is_int (y_counter d - 1) ->
  tick_counters d =
    if x_counter d - 1 <? 0
    then (mkDesc (state d) (x_count d) (x_count d) (y_count d)
                 (y_counter d - 1) (y_modify d), true)
    else (mkDesc (state d) (x_count d) (x_counter d - 1) (y_count d)
                 (y_counter d) (y_modify d), false).
Proof.
  intros Hx Hy. unfold tick_counters, set_x_counter, set_y_counter. simpl.
  rewrite !wrap_int_id by assumption.
  destruct (x_counter d - 1 <? 0); reflexivity.
Qed.

(** C2.  A programmed engine whose current descriptor [d] is GEN_WAIT
    takes one advance() as follows, provided the three int operations do
    not overflow: x_counter is decremented; if it is then below 0 it is
    reloaded with x_count, y_counter is decremented and the weight index
    moves by y_modify; the cursor moves to the next descriptor exactly
    when y_counter is below 0 after that.  Nothing else changes.  On the
    program [{GEN_WAIT, x_count=2, y_count=1, y_modify=1}] started at its
    counts with weight index 0, ticks 1 and 2 leave x_counter at 1 and 0,
    and tick 3 reloads x_counter to 2, takes y_counter to 0 and the weight
    index to 1, the cursor staying at the descriptor. *)
Theorem genwait_advance :
  (forall (pe : PE.t) (d : Descriptor_2D),
      programmed pe = true ->
      program pe !! prog_idx pe = Some d ->
      state d = GENWAIT ->
      is_int (x_counter d - 1) ->
      is_int (y_counter d - 1) ->
      is_int (weight_idx pe + y_modify d) ->
      let underflow := x_counter d - 1 <? 0 in
      let d' := mkDesc GENWAIT (x_count d)
                       (if underflow then x_count d else x_counter d - 1)
                       (y_count d)
                       (if underflow then y_counter d - 1 else y_counter d)
                       (y_modify d) in
      updateState pe =
        Ok (mkPE true
                 (<[prog_idx pe := d']> (program pe))
                 (if y_counter d' <? 0 then S (prog_idx pe) else prog_idx pe)
                 (weights pe)
                 (if underflow then weight_idx pe + y_modify d
                  else weight_idx pe)))
  /\ run 1 example_pe = Ok (mkPE true [mkDesc GENWAIT 2 1 1 1 1] 0%nat [] 0)
  /\ run 2 example_pe = Ok (mkPE true [mkDesc GENWAIT 2 0 1 1 1] 0%nat [] 0)
  /\ run 3 example_pe = Ok (mkPE true [mkDesc GENWAIT 2 2 1 0 1] 0%nat [] 1).
Proof.
  split; [|repeat split; reflexivity].
  intros pe d Hprog Hcur Hst Hx Hy Hw underflow d'.
  unfold updateState. rewrite Hprog, Hcur, Hst.
  rewrite tick_counters_spec by assumption.
  subst d' underflow. rewrite Hst.
  destruct (x_counter d - 1 <? 0); simpl.
  - rewrite wrap_int_id by assumption. reflexivity.
  - reflexivity.
Qed.

(** The general part of [genwait_advance] at the third tick of the
    example: the state after two ticks meets the hypotheses, and the
    step is the one described there. *)
Lemma genwait_advance_witness :
  let pe := mkPE true [mkDesc GENWAIT 2 0 1 1 1] 0%nat [] 0 in
  updateState pe = Ok (mkPE true [mkDesc GENWAIT 2 2 1 0 1] 0%nat [] 1).
Proof.
  intros pe.
  exact (proj1 genwait_advance pe (mkDesc GENWAIT 2 0 1 1 1)
           eq_refl eq_refl eq_refl
           ltac:(unfold is_int, INT_MIN, INT_MAX; simpl; lia)
           ltac:(unfold is_int, INT_MIN, INT_MAX; simpl; lia)
           ltac:(unfold is_int, INT_MIN, INT_MAX; simpl; lia)).
Defined.

(** The WAIT branch does the same bookkeeping and leaves the weight index
    alone. *)
Lemma wait_advance (pe : PE.t) (d : Descriptor_2D) :
  programmed pe = true ->
  program pe !! prog_idx pe = Some d ->
  state d = WAIT ->
  exists pe', updateState pe = Ok pe' /\ weight_idx pe' = weight_idx pe.
Proof.
  intros Hprog Hcur Hst. unfold updateState. rewrite Hprog, Hcur, Hst.
  destruct (tick_counters d) as [d' u]. eexists. split; reflexivity.
Qed.

(** SUSPENDED is a no-op. *)
Lemma suspended_advance (pe : PE.t) (d : Descriptor_2D) :
  programmed pe = true ->
  program pe !! prog_idx pe = Some d ->
  state d = SUSPENDED ->
  updateState pe = Ok pe.
Proof.
  intros Hprog Hcur Hst. unfold updateState. rewrite Hprog, Hcur, Hst.
  reflexivity.
Qed.

(** An engine that was never programmed refuses to advance. *)
Lemma unprogrammed_advance (pe : PE.t) :
  programmed pe = false -> updateState pe = Throw not_programmed.
Proof. intros H. unfold updateState. rewrite H. reflexivity. Qed.

(** The example program runs off its end at the sixth tick. *)
Lemma example_runs_off_the_end :
  run 6 example_pe = Ok (mkPE true [mkDesc GENWAIT 2 2 1 (-1) 1] 1%nat [] 2).
Proof. reflexivity. Qed.

(** C9, as stated, fails: after six ticks the cursor of the example
    engine is past its only descriptor, and the seventh advance() does
    not complete; [program.at(prog_idx)] throws std::out_of_range. *)
Lemma advance_past_end_throws_example :
  exists pe : PE.t,
    run 6 example_pe = Ok pe
    /\ programmed pe = true
    /\ prog_idx pe = length (program pe)
    /\ updateState pe = Throw out_of_range
    /\ ~ (exists pe', updateState pe = Ok pe').
Proof.
  exists (mkPE true [mkDesc GENWAIT 2 2 1 (-1) 1] 1%nat [] 2).
  split; [vm_compute; reflexivity|].
  split; [reflexivity|]. split; [reflexivity|].
  split; [reflexivity|]. intros [pe' H]. discriminate H.
Qed.

(** The two readings of [updateState] agree on what a call does. *)
Lemma updateState_call_agrees (pe : PE.t) :
  updateState pe
  = match updateState_call pe with
    | (None, pe') => Ok pe'
    | (Some e, _) => Throw e
    end.
Proof.
  unfold updateState, updateState_call.
  destruct (programmed pe); [|reflexivity].
  destruct (program pe !! prog_idx pe) as [d|]; [|reflexivity].
  destruct (state d); try reflexivity;
    destruct (tick_counters d) as [d' u]; reflexivity.
Qed.

(** No path of [updateState] that throws has written a member. *)
Lemma updateState_call_throws (pe pe' : PE.t) (e : exn) :
  updateState_call pe = (Some e, pe') -> pe' = pe.
Proof.
  unfold updateState_call.
  destruct (programmed pe); [|intros [= _ <-]; reflexivity].
  destruct (program pe !! prog_idx pe) as [d|]; [|intros [= _ <-]; reflexivity].
  destruct (state d); try (destruct (tick_counters d) as [d' u]);
    try discriminate; intros [= _ <-]; reflexivity.
Qed.

(** C9, amended.  Once the cursor is past the last descriptor, advance()
    makes no access to the program outside its bounds: the checked access
    [program.at(prog_idx)] throws std::out_of_range, so the call does not
    complete.  It throws before any member is written: the call leaves
    the engine exactly as it found it.  The same therefore happens on
    every later call, for a caller that lets the exception end the
    process and for one that catches it and calls again. *)
Theorem advance_past_end (pe : PE.t) :
  programmed pe = true ->
  (length (program pe) <= prog_idx pe)%nat ->
  updateState pe = Throw out_of_range
  /\ (forall n : nat, run (S n) pe = Throw out_of_range)
  /\ updateState_call pe = (Some out_of_range, pe)
  /\ forall n : nat, calls n pe = (replicate n (Some out_of_range), pe).
Proof.
  intros Hprog Hend.
  assert (Hcall : updateState_call pe = (Some out_of_range, pe)).
  { unfold updateState_call. rewrite Hprog.
    rewrite (lookup_ge_None_2 (program pe) (prog_idx pe)) by lia.
    reflexivity. }
  assert (Hstep : updateState pe = Throw out_of_range)
    by (rewrite updateState_call_agrees, Hcall; reflexivity).
  split; [exact Hstep|].
  split; [intros n; simpl; rewrite Hstep; reflexivity|].
  split; [exact Hcall|].
  intros n. induction n as [|n IH]; [reflexivity|].
  cbn [calls]. rewrite Hcall, IH. reflexivity.
Qed.

Lemma advance_past_end_witness :
  let pe := mkPE true [mkDesc GENWAIT 2 2 1 (-1) 1] 1%nat [] 2 in
  updateState pe = Throw out_of_range
  /\ (forall n : nat, run (S n) pe = Throw out_of_range)
  /\ updateState_call pe = (Some out_of_range, pe)
  /\ forall n : nat, calls n pe = (replicate n (Some out_of_range), pe).
Proof.
  intros pe. apply (advance_past_end pe); [reflexivity | simpl; lia].
Defined.

(** While the cursor is inside the program, advance() reads and writes
    the program at the cursor only: the program keeps its length. *)
Lemma updateState_length (pe pe' : PE.t) :
  updateState pe = Ok pe' -> length (program pe') = length (program pe).
Proof.
  unfold updateState.
  destruct (programmed pe); [|discriminate].
  destruct (program pe !! prog_idx pe) as [d|]; [|discriminate].
  destruct (state d); try discriminate.
  - destruct (tick_counters d) as [d' u]. intros [= <-]. simpl.
    apply length_insert.
  - destruct (tick_counters d) as [d' u]. intros [= <-]. simpl.
    apply length_insert.
  - intros [= <-]. reflexivity.
Qed.

End PE_properties.

(** ** The stream packetizer *)

Section Sig2Sock_properties.

Import Sig2Sock.

Lemma bitsToBytes_8 : bitsToBytes 8 = 1.
Proof. reflexivity. Qed.

Lemma bitsToBytes_aligned (bits : Z) :
  bits mod 8 = 0 -> 8 * bitsToBytes bits = bits.
Proof.
  intros H. unfold bitsToBytes.
  rewrite H. simpl.
  pose proof (Z.div_mod bits 8 ltac:(lia)). lia.
Qed.

(** The flush loop succeeds exactly when the queue holds the [n] words it
    pops, and then sends their bytes in queue order. *)
Lemma pop_words_enough (n nbytes : nat) (buf : list Z) :
  (n <= length buf)%nat ->
  pop_words n nbytes buf =
    Some (mbind (M := list) (le_bytes nbytes) (take n buf), drop n buf).
Proof.
  revert buf. induction n as [|n IH]; intros buf Hlen; simpl.
  - reflexivity.
  - destruct buf as [|w rest]; simpl in *; [lia|].
    rewrite IH by lia. reflexivity.
Qed.

Lemma pop_words_short (n nbytes : nat) (buf : list Z) :
  (length buf < n)%nat -> pop_words n nbytes buf = None.
Proof.
  revert buf. induction n as [|n IH]; intros buf Hlen; simpl; [lia|].
  destruct buf as [|w rest]; simpl in *; [reflexivity|].
  rewrite IH by lia. reflexivity.
Qed.

(** [flushBuffer] leaves the word counter and the limit alone. *)
Lemma flushBuffer_counters (W : Z) (i : inputs) (s s' : t) (sent : option (list Z)) :
  flushBuffer W i s = Done s' sent ->
  currentWords s' = currentWords s /\ maxWords s' = maxWords s
  /\ setupTime s' = setupTime s.
Proof.
  unfold flushBuffer.
  destruct (negb (packetLength i =? 0) && _).
  - destruct (negb (bitsToBytes W <=? 8)); [discriminate|].
    destruct (pop_words _ _ _) as [[d b]|]; [|discriminate].
    destruct (response_ok i); [|discriminate].
    intros [= <- _]. auto.
  - intros [= <- _]. auto.
Qed.


(** *** Bus width 8: the framing is byte-accurate *)

Lemma bytes8_app (a b : list Z) : bytes8 (a ++ b) = bytes8 a ++ bytes8 b.
Proof. unfold bytes8. apply bind_app. Qed.

Lemma length_bytes8 (buf : list Z) : length (bytes8 buf) = length buf.
Proof.
  induction buf as [|w rest IH]; [reflexivity|].
  change (bytes8 (w :: rest)) with (le_bytes 1 w ++ bytes8 rest).
  rewrite length_app, IH. reflexivity.
Qed.

Lemma flushBuffer_width8 (L : Z) (i : inputs) (s : t) :
  0 < L < 2 ^ 64 ->
  packetLength i = L ->
  response_ok i = true ->
  Z.of_nat (length (buffer s)) <= L ->
  flushBuffer 8 i s =
    if Z.of_nat (length (buffer s)) =? L
    then Done (set_buffer s []) (Some (bytes8 (buffer s)))
    else Done s None.
Proof.
  intros HL Hlen Hok Hbuf. unfold flushBuffer.
  rewrite Hlen, Hok, bitsToBytes_8.
  replace (L =? 0) with false by (symmetry; apply Z.eqb_neq; lia).
  rewrite Z.mul_1_r, wrapu_id by lia. simpl negb. simpl andb.
  destruct (Z.eqb_spec (Z.of_nat (length (buffer s))) L) as [Heq|Hne].
  - replace (Z.of_nat (length (buffer s)) >=? L) with true
      by (symmetry; apply Z.geb_le; lia).
    rewrite pop_words_enough by lia.
    rewrite take_ge, drop_ge by lia. reflexivity.
  - replace (Z.of_nat (length (buffer s)) >=? L) with false
      by (rewrite Z.geb_leb; symmetry; apply Z.leb_gt; lia).
    reflexivity.
Qed.

(** One clock edge at width 8: the word is appended if the edge samples,
    and a packet leaves exactly when that makes [L] words. *)
Lemma updateInput_width8 (L : Z) (i : inputs) (s : t) :
  0 < L < 2 ^ 64 ->
  packetLength i = L ->
  response_ok i = true ->
  Z.of_nat (length (buffer s)) < L ->
  let taken := if peripheralValid i && (currentWords s <? maxWords s)
                  && (setupTime s =? 0)
               then [inputSig i] else [] in
  exists s' sent,
    updateInput 8 i s = Done s' sent
    /\ (if Z.of_nat (length (buffer s ++ taken)) =? L
        then buffer s' = [] /\ sent = Some (bytes8 (buffer s ++ taken))
        else buffer s' = buffer s ++ taken /\ sent = None).
Proof.
  intros HL Hlen Hok Hbuf taken. unfold updateInput. subst taken.
  destruct (peripheralValid i && (currentWords s <? maxWords s)) eqn:Hgo;
    simpl andb.
  - destruct (setupTime s =? 0) eqn:Hsetup; simpl negb; cbv iota.
    + rewrite (flushBuffer_width8 L) by
        (try assumption; simpl; rewrite length_app; simpl; lia).
      simpl buffer.
      destruct (Z.of_nat (length (buffer s ++ [inputSig i])) =? L);
        do 2 eexists; (split; [reflexivity|]); simpl; auto.
    + do 2 eexists. split; [reflexivity|].
      rewrite app_nil_r.
      replace (Z.of_nat (length (buffer s)) =? L) with false
        by (symmetry; apply Z.eqb_neq; lia).
      simpl. auto.
  - rewrite (flushBuffer_width8 L) by (try assumption; lia).
    rewrite app_nil_r.
    replace (Z.of_nat (length (buffer s)) =? L) with false
      by (symmetry; apply Z.eqb_neq; lia).
    do 2 eexists. split; [reflexivity|]. simpl. auto.
Qed.

(** At bus width 8, whatever the valid line does: a run from a queue
    shorter than [L] never faults; every packet it writes is exactly [L]
    bytes; the packets, followed by what is left in the queue, are the
    bytes of the sampled words in sampling order; and less than one
    packet is left. *)
Lemma width8_framing (L : Z) (evs : list event) :
  0 < L < 2 ^ 64 ->
  steady L evs ->
  forall s : t,
    Z.of_nat (length (buffer s)) < L ->
    exists s' ps,
      run 8 evs s = inr (s', ps)
      /\ Forall (fun p => Z.of_nat (length p) = L) ps
      /\ concat ps ++ bytes8 (buffer s')
         = bytes8 (buffer s ++ sampled 8 evs s)
      /\ Z.of_nat (length (buffer s')) < L.
Proof.
  intros HL Hsteady. induction Hsteady as [|e evs He Hrest IH]; intros s Hbuf.
  - exists s, []. simpl. rewrite app_nil_r. auto.
  - destruct e as [i|].
    + destruct He as [Hlen Hok].
      destruct (updateInput_width8 L i s HL Hlen Hok Hbuf)
        as (s1 & sent & Hstep & Hcase).
      simpl run. simpl sampled. rewrite Hstep.
      set (taken := if peripheralValid i && (currentWords s <? maxWords s)
                       && (setupTime s =? 0)
                    then [inputSig i] else []) in *.
      destruct (Z.eqb_spec (Z.of_nat (length (buffer s ++ taken))) L)
        as [Hfull|Hpart].
      * destruct Hcase as [Hb1 Hsent].
        destruct (IH s1) as (s2 & ps & Hrun & Hall & Hcat & Hlt);
          [rewrite Hb1; simpl; lia|].
        rewrite Hrun, Hsent.
        exists s2, (bytes8 (buffer s ++ taken) :: ps).
        split; [reflexivity|]. split; [|split; [|exact Hlt]].
        -- constructor; [|exact Hall]. rewrite length_bytes8. exact Hfull.
        -- simpl concat. rewrite <- app_assoc, Hcat, Hb1. simpl app.
           rewrite <- bytes8_app, app_assoc. reflexivity.
      * destruct Hcase as [Hb1 Hsent].
        assert (Hlt1 : Z.of_nat (length (buffer s1)) < L).
        { rewrite Hb1. rewrite length_app in *.
          subst taken.
          destruct (peripheralValid i && (currentWords s <? maxWords s)
                    && (setupTime s =? 0)); simpl in *; lia. }
        destruct (IH s1 Hlt1) as (s2 & ps & Hrun & Hall & Hcat & Hlt).
        rewrite Hrun, Hsent.
        exists s2, ps. split; [reflexivity|]. split; [exact Hall|].
        split; [|exact Hlt].
        rewrite Hcat, Hb1, app_assoc. reflexivity.
    + simpl run. simpl sampled.
      destruct (IH (resetSetupTime s) Hbuf) as (s2 & ps & Hrun & Hall & Hcat & Hlt).
      exists s2, ps. auto.
Qed.

Lemma length_concat_uniform (L : Z) (ps : list (list Z)) :
  Forall (fun p => Z.of_nat (length p) = L) ps ->
  Z.of_nat (length (concat ps)) = Z.of_nat (length ps) * L.
Proof.
  induction 1 as [|p ps Hp _ IH]; simpl; [lia|].
  rewrite length_app. lia.
Qed.

(** At bus width 8 the number of packets is the specification's quotient:
    the sampled bytes divided by [L], rounded down. *)
Lemma width8_packet_count (L maxW : Z) (ready0 : bool) (evs : list event) :
  0 < L < 2 ^ 64 ->
  steady L evs ->
  exists s0 s' ps,
    make 8 maxW ready0 = inr s0
    /\ run 8 evs s0 = inr (s', ps)
    /\ Forall (fun p => Z.of_nat (length p) = L) ps
    /\ Z.of_nat (length ps)
       = Z.of_nat (length (sampled 8 evs s0)) * bitsToBytes 8 / L
    /\ exists rest, bytes8 (sampled 8 evs s0) = concat ps ++ rest.
Proof.
  intros HL Hsteady.
  exists (mkS2S [] 0 maxW 1 ready0).
  destruct (width8_framing L evs HL Hsteady (mkS2S [] 0 maxW 1 ready0))
    as (s' & ps & Hrun & Hall & Hcat & Hlt); [simpl; lia|].
  exists s', ps. split; [reflexivity|]. split; [exact Hrun|].
  split; [exact Hall|]. simpl buffer in Hcat. simpl app in Hcat.
  split; [|exists (bytes8 (buffer s')); symmetry; exact Hcat].
  rewrite bitsToBytes_8, Z.mul_1_r.
  assert (Hn : Z.of_nat (length (sampled 8 evs (mkS2S [] 0 maxW 1 ready0)))
               = Z.of_nat (length ps) * L + Z.of_nat (length (buffer s'))).
  { rewrite <- (length_bytes8 (sampled _ _ _)), <- Hcat, length_app,
      length_bytes8, Nat2Z.inj_add, (length_concat_uniform L) by exact Hall.
    reflexivity. }
  rewrite Hn. apply Z.div_unique with (r := Z.of_nat (length (buffer s'))); lia.
Qed.


(** At bus width 8 the flush loop never meets an empty queue: its guard
    compares bytes with bytes. *)
Lemma flush_width8_never_pops_empty (i : inputs) (s : t) :
  0 <= packetLength i ->
  Z.of_nat (length (buffer s)) < 2 ^ 64 ->
  flushBuffer 8 i s <> Fault empty_queue_access.
Proof.
  intros HL Hbuf. unfold flushBuffer. rewrite bitsToBytes_8, Z.mul_1_r.
  rewrite wrapu_id by lia.
  destruct (negb (packetLength i =? 0)); simpl andb; [|discriminate].
  destruct (Z.of_nat (length (buffer s)) >=? packetLength i) eqn:Hge;
    [|discriminate].
  apply Z.geb_le in Hge. simpl negb. cbv iota.
  rewrite pop_words_enough by lia.
  destruct (response_ok i); discriminate.
Qed.

(** At any width, the guard of [flushBuffer] lets the loop run with
    fewer words in the queue than it pops exactly when the byte count
    reaches the packet length and the word count does not. *)
Lemma flush_pops_empty_iff (W : Z) (i : inputs) (s : t) :
  0 <= packetLength i ->
  bitsToBytes W <= 8 ->
  flushBuffer W i s = Fault empty_queue_access
  <-> packetLength i <> 0
      /\ wrapu 64 (Z.of_nat (length (buffer s)) * bitsToBytes W)
         >= packetLength i
      /\ Z.of_nat (length (buffer s)) < packetLength i.
Proof.
  intros HL HW. unfold flushBuffer.
  destruct (Z.eqb_spec (packetLength i) 0) as [H0|H0]; simpl negb; simpl andb.
  - split; [discriminate|]. intros (Hne & _). contradiction.
  - destruct (wrapu 64 (Z.of_nat (length (buffer s)) * bitsToBytes W)
              >=? packetLength i) eqn:Hge.
    + apply Z.geb_le in Hge.
      replace (bitsToBytes W <=? 8) with true by (symmetry; apply Z.leb_le; lia).
      simpl negb. cbv iota.
      destruct (Z_lt_le_dec (Z.of_nat (length (buffer s))) (packetLength i))
        as [Hlt|Hle].
      * rewrite pop_words_short by lia. split; [intros _|reflexivity].
        repeat split; [assumption|lia|assumption].
      * rewrite pop_words_enough by lia.
        split; [destruct (response_ok i); discriminate|].
        intros (_ & _ & Hlt). lia.
    + split; [discriminate|].
      intros (_ & Hge' & _). rewrite Z.geb_leb in Hge.
      apply Z.leb_gt in Hge. lia.
Qed.

(** The ready output after a clock edge that is not the set-up delay is
    computed from [currentWords], and no flush ever lowers that
    counter. *)
Lemma ready_follows_currentWords (W : Z) (i : inputs) (s s' : t)
      (sent : option (list Z)) :
  updateInput W i s = Done s' sent ->
  (peripheralValid i && (currentWords s <? maxWords s)
   && negb (setupTime s =? 0) = false) ->
  inputReady s' = (currentWords s' <? maxWords s')
  /\ maxWords s' = maxWords s
  /\ currentWords s' =
       if peripheralValid i && (currentWords s <? maxWords s)
       then wrapu 64 (currentWords s + 1) else currentWords s.
Proof.
  unfold updateInput. intros Hstep Hnosetup.
  destruct (peripheralValid i && (currentWords s <? maxWords s)) eqn:Hgo.
  - simpl in Hnosetup. rewrite Hnosetup in Hstep.
    destruct (flushBuffer W i (push_word s (inputSig i))) as [s1 o|f] eqn:Hf;
      [|discriminate].
    apply flushBuffer_counters in Hf. simpl in Hf.
    destruct Hf as (Hc & Hm & _).
    injection Hstep as <- _. simpl. rewrite Hc, Hm. auto.
  - destruct (flushBuffer W i s) as [s1 o|f] eqn:Hf; [|discriminate].
    apply flushBuffer_counters in Hf. destruct Hf as (Hc & Hm & _).
    injection Hstep as <- _. simpl. rewrite Hc, Hm. auto.
Qed.

(** C1, at the failing inputs.  Bus width 32, a target that accepts every
    write, valid held high (the first edge is the set-up delay).
    With packet length 1 and one sampled word the specification asks for
    1 * 4 / 1 = 4 packets of one byte; the module writes one packet of
    four bytes.  With packet length 8 and two sampled words it
    asks for one packet of eight bytes; the guard passes at 2 * 4 >= 8
    and the loop pops eight words from a queue of two. *)
Theorem width32_framing_diverges :
  let s0 := mkS2S [] 0 16 1 true in
  let edge := fun v L => Clk (mkIn true v L true) in
  make 32 16 true = inr s0
  /\ (let evs := [edge 0 1; edge 67305985 1] in
      exists (s' : t) (ps : list (list Z)),
        run 32 evs s0 = inr (s', ps)
        /\ ps = [[1; 2; 3; 4]]
        /\ sampled 32 evs s0 = [67305985]
        /\ Z.of_nat (length ps)
           <> Z.of_nat (length (sampled 32 evs s0)) * bitsToBytes 32 / 1
        /\ ~ Forall (fun p => Z.of_nat (length p) = 1) ps)
  /\ (let evs := [edge 0 8; edge 67305985 8; edge 134678021 8] in
      sampled 32 evs s0 = [67305985; 134678021]
      /\ Z.of_nat (length (sampled 32 evs s0)) * bitsToBytes 32 / 8 = 1
      /\ run 32 evs s0 = inl empty_queue_access).
Proof.
  split; [reflexivity|]. split.
  - exists (mkS2S [] 1 16 0 true), [[1; 2; 3; 4]].
    split; [reflexivity|]. split; [reflexivity|]. split; [reflexivity|].
    split.
    + vm_compute. discriminate.
    + intros H. apply Forall_cons in H as [H _]. simpl in H. lia.
  - repeat split.
Qed.

(** C7, at the failing input.  Bus width 8, at most 2 words, packet
    length 2.  After the set-up edge and two sampled words the packet has
    left and the queue is empty, yet ready is false: it is computed from
    [currentWords], which counted both words and was not reduced by the
    flush.  From here on the module samples nothing more. *)
Theorem ready_false_on_empty_queue :
  let s0 := mkS2S [] 0 2 1 true in
  let edge := fun v => Clk (mkIn true v 2 true) in
  make 8 2 true = inr s0
  /\ (exists s' : t,
        run 8 [edge 0; edge 17; edge 34] s0 = inr (s', [[17; 34]])
        /\ buffer s' = []
        /\ (Z.of_nat (length (buffer s')) <? maxWords s') = true
        /\ inputReady s' = false)
  /\ run 8 [edge 0; edge 17; edge 34; edge 51; edge 68] s0
     = inr (mkS2S [] 2 2 0 false, [[17; 34]]).
Proof.
  split; [reflexivity|]. split; [|reflexivity].
  eexists. split; [reflexivity|]. repeat split.
Qed.

(** C10, at the failing input.  Bus width 32, packet length 4, one word
    in the queue: the guard of [flushBuffer] holds, since 1 * 4 >= 4, and
    the loop is to pop four words; its second front() finds the queue
    empty.  The state is reached from construction by the set-up edge and
    one sampled word. *)
Theorem flush_pops_empty_queue_at_width32 :
  let s := mkS2S [67305985] 1 16 0 true in
  let i := mkIn true 67305985 4 true in
  (wrapu 64 (Z.of_nat (length (buffer s)) * bitsToBytes 32) >=? packetLength i)
    = true
  /\ (length (buffer s) < Z.to_nat (packetLength i))%nat
  /\ flushBuffer 32 i s = Fault empty_queue_access
  /\ run 32 [Clk (mkIn true 0 4 true); Clk i] (mkS2S [] 0 16 1 true)
     = inl empty_queue_access.
Proof. repeat split. simpl. lia. Qed.

End Sig2Sock_properties.

(** ** The DMA register-protocol driver *)

Section DMATester_properties.

Import DMATester.

Variable rm : RegisterMap.
Variable target : list action -> payload -> response.

(** Unfolds the plumbing of [M] and of the payload's setters. *)
Ltac exec :=
  cbv [mbind M_bind mret M_ret get modify throw emit b_transport wait notify
       print trans_reset set_command set_read set_write set_address
       set_data_ptr set_data_length set_streaming_width set_response_status
       with_trans with_log with_triggered with_testData with_mm2sOffset
       with_s2mmOffset
       burstMode mm2sOffset s2mmOffset testData trans dataLoaded_triggered log
       command address data data_length streaming_width response_status].

(** The world after [sendDMAReq]: one offset has moved, the payload is
    left on the length register, and three writes are in the history. *)
Lemma sendDMAReq_run (s2mm : bool) (w : World) :
  let dataSize := if burstMode w
                  then wrapu 32 (sizeof_float * Z.of_nat (length (testData w)))
                  else sizeof_float in
  exists (p' : payload) (l : list action),
    sendDMAReq rm target s2mm w =
      (Val tt,
       mkWorld (burstMode w)
               (if s2mm then mm2sOffset w
                else wrapu 64 (mm2sOffset w + dataSize / sizeof_float))
               (if s2mm then wrapu 64 (s2mmOffset w + dataSize / sizeof_float)
                else s2mmOffset w)
               (testData w) p' (dataLoaded_triggered w) (log w ++ l))
    /\ observe <$> l =
         (if s2mm
          then [writes (S2MM_ADDR_REG rm 0); writes (S2MM_ADDR_MSB_REG rm 0);
                writes (S2MM_LENGTH_REG rm 0)]
          else [writes (MM2S_ADDR_REG rm 0); writes (MM2S_ADDR_MSB_REG rm 0);
                writes (MM2S_LENGTH_REG rm 0)])
    /\ address p' = (if s2mm then S2MM_LENGTH_REG rm 0 else MM2S_LENGTH_REG rm 0).
Proof.
  destruct w as [bm mo so td p trig lg]. intros dataSize. subst dataSize.
  unfold sendDMAReq. exec.
  destruct s2mm; rewrite <- !app_assoc;
    (eexists _, _; split; [reflexivity|split; reflexivity]).
Qed.


Lemma enableIOC_run (s2mm : bool) (ii : Z) (w : World) :
  let cr := if s2mm then S2MM_CR_REG rm ii else MM2S_CR_REG rm ii in
  exists (p' : payload) (l : list action),
    enableIOC rm target s2mm ii w =
      (Val tt,
       mkWorld (burstMode w) (mm2sOffset w) (s2mmOffset w) (testData w) p'
               (dataLoaded_triggered w) (log w ++ l))
    /\ observe <$> l = [reads cr; writes cr]
    /\ address p' = cr.
Proof.
  destruct w as [bm mo so td p trig lg]. intros cr. subst cr.
  unfold enableIOC. exec. rewrite <- !app_assoc.
  eexists _, _; split; [reflexivity|split; reflexivity].
Qed.

Lemma clearIOC_read_run (s2mm : bool) (ii : Z) (w : World) :
  let sr := if s2mm then S2MM_SR_REG rm ii else MM2S_SR_REG rm ii in
  exists (p' : payload) (l : list action),
    clearIOC_read rm target s2mm ii w =
      (Val tt,
       mkWorld (burstMode w) (mm2sOffset w) (s2mmOffset w) (testData w) p'
               (dataLoaded_triggered w) (log w ++ l))
    /\ observe <$> l = [reads sr; waits (for_time 50)]
    /\ address p' = sr.
Proof.
  destruct w as [bm mo so td p trig lg]. intros sr. subst sr.
  unfold clearIOC_read. exec. rewrite <- !app_assoc.
  eexists _, _; split; [reflexivity|split; reflexivity].
Qed.

(** The second half of [clearIOC] writes to whatever address the shared
    payload holds when the process is resumed. *)
Lemma clearIOC_write_run (w : World) :
  exists (p' : payload) (l : list action),
    clearIOC_write target w =
      (Val tt,
       mkWorld (burstMode w) (mm2sOffset w) (s2mmOffset w) (testData w) p'
               (dataLoaded_triggered w) (log w ++ l))
    /\ observe <$> l = [writes (address (trans w)); waits (for_time 50)]
    /\ address p' = address (trans w).
Proof.
  destruct w as [bm mo so td p trig lg].
  unfold clearIOC_write. exec. rewrite <- !app_assoc.
  eexists _, _; split; [reflexivity|split; reflexivity].
Qed.

(** [loadData] appends its ten floats and writes them to memory; it
    notifies when the target answers ok, and throws otherwise. *)
Lemma loadData_run (w : World) :
  let td' := push_range 10 0 (testData w) in
  exists (p' : payload) (x : action),
    (loadData rm target w =
       (Val tt,
        mkWorld (burstMode w) (mm2sOffset w) (s2mmOffset w) td' p' true
                (log w ++ [x; Notify dataLoaded]))
     \/ loadData rm target w =
          (Exn "Failed to write test data to memory",
           mkWorld (burstMode w) (mm2sOffset w) (s2mmOffset w) td' p'
                   (dataLoaded_triggered w) (log w ++ [x])))
    /\ observe x = writes (MEM_BASE_ADDR rm)
    /\ address p' = MEM_BASE_ADDR rm.
Proof.
  destruct w as [bm mo so td p trig lg]. intros td'. subst td'.
  unfold loadData. exec. unfold is_response_ok. exec.
  match goal with
  | |- context [rsp_status ?r] => destruct (rsp_status r) eqn:Hst
  end; cbv beta iota zeta delta [negb]; rewrite <- ?app_assoc;
    eexists _, _;
    (split; [first [left; reflexivity | right; reflexivity]
            |split; reflexivity]).
Qed.


(** *** The comparison loop *)

Lemma compare_from_clean (n ii : nat) (md : list Z) (w : World) :
  agree_between (testData w) md ii (ii + n) ->
  compare_from n ii md w = (Val None, w).
Proof.
  revert ii. induction n as [|n IH]; intros ii Hagree; [reflexivity|].
  destruct (Hagree ii ltac:(lia)) as (t & m & Ht & Hm & Hne).
  simpl compare_from. exec. fold (testData w).
  rewrite Ht, Hm, Hne. apply IH.
  intros j Hj. apply Hagree. lia.
Qed.

Lemma compare_from_mismatch (n ii i : nat) (md : list Z) (w : World) (t m : Z) :
  (ii <= i < ii + n)%nat ->
  agree_between (testData w) md ii i ->
  testData w !! i = Some t ->
  md !! i = Some m ->
  float_ne t m = true ->
  compare_from n ii md w =
    (Val (Some i), with_log (fun l => l ++ [Print mismatch_message]) w).
Proof.
  revert ii. induction n as [|n IH]; intros ii Hi Hagree Ht Hm Hne; [lia|].
  simpl compare_from. exec. fold (testData w).
  destruct (decide (ii = i)) as [->|Hneq].
  - rewrite Ht, Hm, Hne. destruct w; reflexivity.
  - destruct (Hagree ii ltac:(lia)) as (t' & m' & Ht' & Hm' & Hne').
    rewrite Ht', Hm', Hne'. apply IH; try assumption; [lia|].
    intros j Hj. apply Hagree. lia.
Qed.


(** C5, amended.  When [i] is the first index at which the written-back
    element differs from the test element, the loop prints one fixed
    message, which does not name the index, and returns at [i]; the
    elements after [i] are never compared, for the outcome is the same
    for every vector that agrees up to [i].  When all elements compare
    equal the loop ends without printing anything. *)
Theorem verification_stops_at_first_mismatch (w : World) (md : list Z) :
  (forall (i : nat) (t m : Z),
      agree_between (testData w) md 0 i ->
      testData w !! i = Some t ->
      md !! i = Some m ->
      float_ne t m = true ->
      forall md' : list Z,
        take (S i) md' = take (S i) md ->
        compare_from (length (testData w)) 0 md' w =
          (Val (Some i), with_log (fun l => l ++ [Print mismatch_message]) w))
  /\ (agree_between (testData w) md 0 (length (testData w)) ->
      compare_from (length (testData w)) 0 md w = (Val None, w)).
Proof.
  split.
  - intros i t m Hagree Ht Hm Hne md' Htake.
    assert (Hsame : forall j, (j < S i)%nat -> md' !! j = md !! j).
    { intros j Hj.
      rewrite <- (lookup_take_lt md' (S i) j), <- (lookup_take_lt md (S i) j)
        by exact Hj.
      rewrite Htake. reflexivity. }
    apply (compare_from_mismatch _ 0 i md' w t m); try assumption.
    + apply lookup_lt_Some in Ht. lia.
    + intros j Hj. destruct (Hagree j Hj) as (t' & m' & Ht' & Hm' & Hne').
      exists t', m'. rewrite Hsame by lia. auto.
    + rewrite Hsame by lia. exact Hm.
  - intros Hagree. apply compare_from_clean. exact Hagree.
Qed.


(** *** The two loops *)

(** What one pass of the [while (true)] of [testRun] does: a transfer
    request while the offset is short of the vector, the final message
    otherwise. *)
Lemma testRun_loop_run (w : World) :
  let dataSize := if burstMode w
                  then wrapu 32 (sizeof_float * Z.of_nat (length (testData w)))
                  else sizeof_float in
  (mm2sOffset w < Z.of_nat (length (testData w)) ->
   exists (p' : payload) (l : list action),
     testRun_loop rm target w =
       (Val TR_irq,
        mkWorld (burstMode w)
                (wrapu 64 (mm2sOffset w + dataSize / sizeof_float))
                (s2mmOffset w) (testData w) p' (dataLoaded_triggered w)
                (log w ++ l))
     /\ observe <$> l =
          [writes (MM2S_ADDR_REG rm 0); writes (MM2S_ADDR_MSB_REG rm 0);
           writes (MM2S_LENGTH_REG rm 0);
           waits (for_event mm2sIRQOnComp_posedge)]
     /\ address p' = MM2S_LENGTH_REG rm 0)
  /\ (Z.of_nat (length (testData w)) <= mm2sOffset w ->
      testRun_loop rm target w =
        (Val TR_returned,
         with_log (fun l => l ++ [Print "Test data consumed!"]) w)).
Proof.
  destruct w as [bm mo so td p trig lg]. cbv zeta.
  cbn [burstMode mm2sOffset s2mmOffset testData trans dataLoaded_triggered log].
  split; intros Hoff.
  - destruct (sendDMAReq_run false (mkWorld bm mo so td p trig lg))
      as (p' & l & Hrun & Hobs & Haddr).
    cbn [burstMode mm2sOffset s2mmOffset testData trans dataLoaded_triggered
         log] in Hrun.
    exists p', (l ++ [Wait (for_event mm2sIRQOnComp_posedge)]).
    split; [|split; [rewrite fmap_app, Hobs; reflexivity|exact Haddr]].
    unfold testRun_loop, sendMM2SReq. exec.
    replace (mo <? Z.of_nat (length td)) with true
      by (symmetry; apply Z.ltb_lt; exact Hoff).
    rewrite Hrun. rewrite <- app_assoc. reflexivity.
  - unfold testRun_loop. exec.
    replace (mo <? Z.of_nat (length td)) with false
      by (symmetry; apply Z.ltb_ge; exact Hoff).
    reflexivity.
Qed.


Lemma compare_from_frame (n ii : nat) (md : list Z) (w : World) :
  exists (r : result (option nat)) (ps : list string),
    compare_from n ii md w = (r, with_log (fun l => l ++ (Print <$> ps)) w).
Proof.
  revert ii. induction n as [|n IH]; intros ii.
  - exists (Val None), []. simpl. destruct w; simpl.
    unfold with_log; simpl. rewrite app_nil_r. reflexivity.
  - simpl compare_from. exec. fold (testData w).
    destruct (testData w !! ii) as [t|];
      [destruct (md !! ii) as [m|]; [destruct (float_ne t m)|]|].
    + exists (Val (Some ii)), [mismatch_message]. destruct w; reflexivity.
    + apply IH.
    + exists (Exn "vector::at"), []. destruct w; simpl.
      unfold with_log; simpl. rewrite app_nil_r. reflexivity.
    + exists (Exn "vector::at"), []. destruct w; simpl.
      unfold with_log; simpl. rewrite app_nil_r. reflexivity.
Qed.

(** The read-back: one read transaction, then the comparison.  Offsets
    and test data are left alone, and nothing is written. *)
Lemma readback_and_compare_run (w : World) :
  exists (r : result (option nat)) (p' : payload) (x : action) (ps : list string),
    readback_and_compare rm target w =
      (r, mkWorld (burstMode w) (mm2sOffset w) (s2mmOffset w) (testData w) p'
                  (dataLoaded_triggered w) (log w ++ x :: (Print <$> ps)))
    /\ observe x =
         reads (wrapu 64 (MEM_BASE_ADDR rm
                          + wrapu 64 (Z.of_nat (length (testData w))
                                      * sizeof_float))).
Proof.
  destruct w as [bm mo so td p trig lg].
  cbn [burstMode mm2sOffset s2mmOffset testData trans dataLoaded_triggered log].
  unfold readback_and_compare. exec. unfold is_response_ok. exec.
  match goal with
  | |- context [rsp_status ?r] => destruct (rsp_status r) eqn:Hst
  end; cbv beta iota zeta delta [negb].
  - match goal with
    | |- context [compare_from ?n ?ii ?md ?w0] =>
        destruct (compare_from_frame n ii md w0) as (r & ps & ->)
    end.
    exists r. eexists _, _, ps. unfold with_log.
    cbn [burstMode mm2sOffset s2mmOffset testData trans dataLoaded_triggered
         log].
    rewrite <- app_assoc. split; reflexivity.
  - eexists _, _, _, []. split; reflexivity.
  - eexists _, _, _, []. split; reflexivity.
Qed.

Lemma verify_loop_run (w : World) :
  let dataSize := if burstMode w
                  then wrapu 32 (sizeof_float * Z.of_nat (length (testData w)))
                  else sizeof_float in
  (s2mmOffset w < Z.of_nat (length (testData w)) ->
   exists (p' : payload) (l : list action),
     verify_loop rm target w =
       (Val VW_irq,
        mkWorld (burstMode w) (mm2sOffset w)
                (wrapu 64 (s2mmOffset w + dataSize / sizeof_float))
                (testData w) p' (dataLoaded_triggered w) (log w ++ l))
     /\ observe <$> l =
          [writes (S2MM_ADDR_REG rm 0); writes (S2MM_ADDR_MSB_REG rm 0);
           writes (S2MM_LENGTH_REG rm 0);
           waits (for_event s2mmIRQOnComp_posedge)])
  /\ (Z.of_nat (length (testData w)) <= s2mmOffset w ->
      exists (r : result verify_at) (p' : payload) (l : list action),
        verify_loop rm target w =
          (r, mkWorld (burstMode w) (mm2sOffset w) (s2mmOffset w)
                      (testData w) p' (dataLoaded_triggered w) (log w ++ l))
        /\ (r = Val VW_returned \/ exists what, r = Exn what)).
Proof.
  destruct w as [bm mo so td p trig lg]. cbv zeta.
  cbn [burstMode mm2sOffset s2mmOffset testData trans dataLoaded_triggered log].
  split; intros Hoff.
  - destruct (sendDMAReq_run true (mkWorld bm mo so td p trig lg))
      as (p' & l & Hrun & Hobs & Haddr).
    cbn [burstMode mm2sOffset s2mmOffset testData trans dataLoaded_triggered
         log] in Hrun.
    exists p', (l ++ [Wait (for_event s2mmIRQOnComp_posedge)]).
    split; [|rewrite fmap_app, Hobs; reflexivity].
    unfold verify_loop, sendS2MMReq. exec.
    replace (so <? Z.of_nat (length td)) with true
      by (symmetry; apply Z.ltb_lt; exact Hoff).
    rewrite Hrun. rewrite <- app_assoc. reflexivity.
  - destruct (readback_and_compare_run (mkWorld bm mo so td p trig lg))
      as (r & p' & x & ps & Hrun & Hobs).
    cbn [burstMode mm2sOffset s2mmOffset testData trans dataLoaded_triggered
         log] in Hrun.
    unfold verify_loop. exec.
    replace (so <? Z.of_nat (length td)) with false
      by (symmetry; apply Z.ltb_ge; exact Hoff).
    rewrite Hrun. destruct r as [o|what].
    + eexists _, _, _. split; [reflexivity|]. left. reflexivity.
    + eexists _, _, _. split; [reflexivity|]. right. eexists. reflexivity.
Qed.


(** *** Histories *)

Lemma loaded_app_l (l l' : list action) : loaded l -> loaded (l ++ l').
Proof. unfold loaded. intros H. apply Exists_app. left. exact H. Qed.

Lemma loaded_app_r (l l' : list action) : loaded l' -> loaded (l ++ l').
Proof. unfold loaded. intros H. apply Exists_app. right. exact H. Qed.

Lemma only_after_load_nil (a : Z) : only_after_load a [].
Proof. intros l1 l2 x H. destruct l1; discriminate H. Qed.

Lemma only_after_load_snoc (a : Z) (l : list action) (x : action) :
  only_after_load a l ->
  (is_write_to a (observe x) = true -> loaded l) ->
  only_after_load a (l ++ [x]).
Proof.
  intros Hl Hx l1 l2 y Heq Hw.
  destruct l2 as [|z l2 _] using rev_ind.
  - apply app_inj_tail in Heq as [-> ->]. apply Hx. exact Hw.
  - rewrite app_comm_cons, app_assoc in Heq.
    apply app_inj_tail in Heq as [-> _].
    apply (Hl l1 l2 y eq_refl Hw).
Qed.

Lemma only_after_load_app (a : Z) (l l' : list action) :
  only_after_load a l ->
  loaded l \/ Forall (fun o => is_write_to a o = false) (observe <$> l') ->
  only_after_load a (l ++ l').
Proof.
  revert l. induction l' as [|x l' IH]; intros l Hl Hor.
  - rewrite app_nil_r. exact Hl.
  - change (x :: l') with ([x] ++ l'). rewrite app_assoc. apply IH.
    + apply only_after_load_snoc; [exact Hl|].
      intros Hw. destruct Hor as [Hld|Hall]; [exact Hld|].
      rewrite fmap_cons in Hall. apply Forall_cons in Hall as [Hx _].
      congruence.
    + destruct Hor as [Hld|Hall]; [left; apply loaded_app_l; exact Hld|].
      right. rewrite fmap_cons in Hall. apply Forall_cons in Hall as [_ H].
      exact H.
Qed.


(** *** The processes, one resumption at a time *)

Ltac fields :=
  cbn [burstMode mm2sOffset s2mmOffset testData trans dataLoaded_triggered log].

Ltac fields_in H :=
  cbn [burstMode mm2sOffset s2mmOffset testData trans dataLoaded_triggered log]
    in H.

(** One resumption of [testRun]: the S2MM offset and the mode are never
    touched; the test data change only in the resumption that calls
    [loadData]; the MM2S offset changes only by a transfer request. *)
Lemma testRun_from_run (at_ : testRun_at) (w : World) :
  exists (r : result testRun_at) (mo' : Z) (td' : list Z) (p' : payload)
         (trig' : bool) (l : list action),
    testRun_from rm target at_ w =
      (r, mkWorld (burstMode w) mo' (s2mmOffset w) td' p' trig' (log w ++ l))
    /\ match at_ with
       | TR_entry =>
           r = Val TR_reset /\ mo' = mm2sOffset w /\ td' = testData w
           /\ trig' = dataLoaded_triggered w
           /\ observe <$> l = [waits (for_time 20000)]
       | TR_reset =>
           td' = push_range 10 0 (testData w)
           /\ exists (x : action) (l2 : list action),
               observe x = writes (MEM_BASE_ADDR rm)
               /\ ((r = Exn "Failed to write test data to memory"
                    /\ l = [x] /\ mo' = mm2sOffset w
                    /\ trig' = dataLoaded_triggered w)
                   \/ (l = x :: Notify dataLoaded :: l2 /\ trig' = true
                       /\ (r = Val TR_irq \/ r = Val TR_returned)
                       /\ loop_outcome
                            (with_testData (push_range 10 0) w)
                            (mm2sOffset w) TR_irq r mo'))
       | TR_irq =>
           r = Val TR_clear_settle /\ mo' = mm2sOffset w /\ td' = testData w
           /\ trig' = dataLoaded_triggered w
       | TR_clear_settle =>
           r = Val TR_clear_deassert /\ mo' = mm2sOffset w
           /\ td' = testData w /\ trig' = dataLoaded_triggered w
       | TR_clear_deassert =>
           td' = testData w /\ trig' = dataLoaded_triggered w
           /\ (r = Val TR_irq \/ r = Val TR_returned)
           /\ loop_outcome w (mm2sOffset w) TR_irq r mo'
       | TR_returned =>
           r = Val TR_returned /\ mo' = mm2sOffset w /\ td' = testData w
           /\ trig' = dataLoaded_triggered w /\ l = []
       end.
Proof.
  destruct at_; unfold testRun_from.
  - destruct w as [bm mo so td p trig lg]. exec.
    eexists _, _, _, _, _, _. split; [reflexivity|]. repeat split.
  - destruct (loadData_run w) as (p1 & x & [Hrun|Hrun] & Hobs & _).
    + destruct (enableIOC_run false 0
                  (mkWorld (burstMode w) (mm2sOffset w) (s2mmOffset w)
                           (push_range 10 0 (testData w)) p1 true
                           (log w ++ [x; Notify dataLoaded])))
        as (p2 & l2 & Hen & _ & _).
      fields_in Hen.
      set (w2 := mkWorld (burstMode w) (mm2sOffset w) (s2mmOffset w)
                         (push_range 10 0 (testData w)) p2 true
                         ((log w ++ [x; Notify dataLoaded]) ++ l2)) in *.
      destruct (testRun_loop_run w2) as [Hlt Hge]. cbv zeta in Hlt.
      destruct (Z_lt_le_dec (mm2sOffset w2) (Z.of_nat (length (testData w2))))
        as [Hcmp|Hcmp].
      * destruct (Hlt Hcmp) as (p3 & l3 & Hloop & _ & _).
        subst w2. fields_in Hloop. fields_in Hcmp.
        eexists _, _, _, _, _, (x :: Notify dataLoaded :: l2 ++ l3).
        split.
        { exec. rewrite Hrun, Hen, Hloop.
          rewrite <- !app_assoc. reflexivity. }
        split; [reflexivity|]. exists x, (l2 ++ l3). split; [exact Hobs|].
        right. split; [reflexivity|]. split; [reflexivity|].
        split; [left; reflexivity|]. left.
        unfold request_size, with_testData. fields. auto.
      * specialize (Hge Hcmp). subst w2. fields_in Hge. fields_in Hcmp.
        unfold with_log in Hge. fields_in Hge.
        eexists _, _, _, _, _,
          (x :: Notify dataLoaded :: l2 ++ [Print "Test data consumed!"]).
        split.
        { exec. rewrite Hrun, Hen, Hge.
          rewrite <- !app_assoc. reflexivity. }
        split; [reflexivity|].
        exists x, (l2 ++ [Print "Test data consumed!"]). split; [exact Hobs|].
        right. split; [reflexivity|]. split; [reflexivity|].
        split; [right; reflexivity|]. right.
        unfold with_testData. fields. split; [exact Hcmp|].
        split; [discriminate|reflexivity].
    + eexists _, _, _, _, _, [x]. split.
      { exec. rewrite Hrun. reflexivity. }
      split; [reflexivity|]. exists x, []. split; [exact Hobs|]. left.
      repeat split.
  - destruct (clearIOC_read_run false 0 w) as (p1 & l & Hrun & _ & _).
    eexists _, _, _, _, _, l. split.
    { exec. rewrite Hrun. reflexivity. }
    repeat split.
  - destruct (clearIOC_write_run w) as (p1 & l & Hrun & _ & _).
    eexists _, _, _, _, _, l. split.
    { exec. rewrite Hrun. reflexivity. }
    repeat split.
  - destruct (testRun_loop_run w) as [Hlt Hge]. cbv zeta in Hlt.
    destruct (Z_lt_le_dec (mm2sOffset w) (Z.of_nat (length (testData w))))
      as [Hcmp|Hcmp].
    + destruct (Hlt Hcmp) as (p3 & l3 & Hloop & _ & _).
      eexists _, _, _, _, _, l3. split; [exact Hloop|].
      split; [reflexivity|]. split; [reflexivity|].
      split; [left; reflexivity|]. left. auto.
    + specialize (Hge Hcmp). destruct w as [bm mo so td p trig lg].
      unfold with_log in Hge. fields_in Hge. fields.
      eexists _, _, _, _, _, _. split; [exact Hge|].
      split; [reflexivity|]. split; [reflexivity|].
      split; [right; reflexivity|]. right.
      split; [exact Hcmp|]. split; [discriminate|reflexivity].
  - destruct w as [bm mo so td p trig lg]. exec.
    eexists _, _, _, _, _, []. rewrite app_nil_r.
    split; [reflexivity|]. repeat split.
Qed.


(** One resumption of [verifyMemWriteback]: the MM2S offset, the mode and
    the test data are never touched; the S2MM offset changes only by a
    transfer request. *)
Lemma verifyMemWriteback_from_run (at_ : verify_at) (w : World) :
  exists (r : result verify_at) (so' : Z) (p' : payload) (trig' : bool)
         (l : list action),
    verifyMemWriteback_from rm target at_ w =
      (r, mkWorld (burstMode w) (mm2sOffset w) so' (testData w) p' trig'
                  (log w ++ l))
    /\ match at_ with
       | VW_entry =>
           r = Val VW_reset /\ so' = s2mmOffset w
           /\ trig' = dataLoaded_triggered w
           /\ observe <$> l = [waits (for_time 20000)]
       | VW_reset =>
           r = Val VW_dataLoaded /\ so' = s2mmOffset w /\ trig' = false
           /\ observe <$> l =
                [reads (S2MM_CR_REG rm 0); writes (S2MM_CR_REG rm 0);
                 waits (for_event dataLoaded)]
       | VW_dataLoaded | VW_clear_deassert =>
           trig' = dataLoaded_triggered w
           /\ loop_outcome w (s2mmOffset w) VW_irq r so'
       | VW_irq =>
           r = Val VW_clear_settle /\ so' = s2mmOffset w
           /\ trig' = dataLoaded_triggered w
       | VW_clear_settle =>
           r = Val VW_clear_deassert /\ so' = s2mmOffset w
           /\ trig' = dataLoaded_triggered w
       | VW_returned =>
           r = Val VW_returned /\ so' = s2mmOffset w
           /\ trig' = dataLoaded_triggered w /\ l = []
       end.
Proof.
  assert (Hloop : exists (r : result verify_at) (so' : Z) (p' : payload)
                         (l : list action),
             verify_loop rm target w =
               (r, mkWorld (burstMode w) (mm2sOffset w) so' (testData w) p'
                           (dataLoaded_triggered w) (log w ++ l))
             /\ loop_outcome w (s2mmOffset w) VW_irq r so').
  { destruct (verify_loop_run w) as [Hlt Hge]. cbv zeta in Hlt.
    destruct (Z_lt_le_dec (s2mmOffset w) (Z.of_nat (length (testData w))))
      as [Hcmp|Hcmp].
    - destruct (Hlt Hcmp) as (p3 & l3 & Hrun & _).
      eexists _, _, _, _. split; [exact Hrun|]. left. auto.
    - destruct (Hge Hcmp) as (r & p3 & l3 & Hrun & Hr).
      eexists _, _, _, _. split; [exact Hrun|]. right.
      split; [exact Hcmp|]. split; [|reflexivity].
      destruct Hr as [->|[what ->]]; discriminate. }
  destruct at_; unfold verifyMemWriteback_from.
  - destruct w as [bm mo so td p trig lg]. exec.
    eexists _, _, _, _, _. split; [reflexivity|]. repeat split.
  - destruct (enableIOC_run true 0 w) as (p1 & l & Hrun & Hobs & _).
    eexists _, _, _, _, (l ++ [Wait (for_event dataLoaded)]). split.
    { exec. rewrite Hrun. exec. rewrite <- app_assoc. reflexivity. }
    rewrite fmap_app, Hobs. repeat split.
  - destruct Hloop as (r & so' & p' & l & Hrun & Hout).
    eexists _, _, _, _, _. split; [exact Hrun|]. auto.
  - destruct (clearIOC_read_run true 0 w) as (p1 & l & Hrun & _ & _).
    eexists _, _, _, _, l. split.
    { exec. rewrite Hrun. reflexivity. }
    repeat split.
  - destruct (clearIOC_write_run w) as (p1 & l & Hrun & _ & _).
    eexists _, _, _, _, l. split.
    { exec. rewrite Hrun. reflexivity. }
    repeat split.
  - destruct Hloop as (r & so' & p' & l & Hrun & Hout).
    eexists _, _, _, _, _. split; [exact Hrun|]. auto.
  - destruct w as [bm mo so td p trig lg]. exec.
    eexists _, _, _, _, []. rewrite app_nil_r.
    split; [reflexivity|]. repeat split.
Qed.

(** The arithmetic of a transfer request under the invariant. *)
Lemma request_advances (w : World) (o : Z) :
  length (testData w) = 10%nat ->
  0 <= o < Z.of_nat (length (testData w)) ->
  (burstMode w = true -> o = 0 \/ o = Z.of_nat (length (testData w))) ->
  let o' := wrapu 64 (o + request_size w / sizeof_float) in
  o < o' <= Z.of_nat (length (testData w))
  /\ (burstMode w = true -> o' = Z.of_nat (length (testData w)))
  /\ (burstMode w = false -> o' = o + 1).
Proof.
  intros Hlen Ho Hb. unfold request_size, sizeof_float. rewrite Hlen in *.
  destruct (burstMode w).
  - destruct (Hb eq_refl) as [->|Heq]; [|lia].
    change (wrapu 64 (0 + wrapu 32 (4 * Z.of_nat 10) `div` 4)) with 10.
    cbv zeta. split; [lia|]. split; [reflexivity|discriminate].
  - change (4 `div` 4) with 1. cbv zeta.
    rewrite wrapu_id by lia.
    split; [lia|]. split; [discriminate|reflexivity].
Qed.


(** *** The invariant *)

Lemma loaded_notify (l l1 l2 : list action) :
  loaded (l ++ l1 ++ Notify dataLoaded :: l2).
Proof.
  apply loaded_app_r, loaded_app_r. unfold loaded.
  apply Exists_cons_hd. reflexivity.
Qed.

Lemma length_push_range (n : nat) (ii : Z) (v : list Z) :
  length (push_range n ii v) = (length v + n)%nat.
Proof.
  revert ii v. induction n as [|n IH]; intros ii v; simpl; [lia|].
  rewrite IH, length_app. simpl. lia.
Qed.

Lemma boot_invariant (burst : bool) : invariant rm burst (boot burst).
Proof.
  constructor; simpl; try reflexivity; try lia; try discriminate; auto.
  intros a _ _. apply only_after_load_nil.
Qed.

(** Every scheduling step keeps the invariant and lowers neither offset. *)
Lemma step_preserves (burst : bool) (s s' : system) :
  invariant rm burst s ->
  step rm target s s' ->
  invariant rm burst s'
  /\ mm2sOffset (world s) <= mm2sOffset (world s')
  /\ s2mmOffset (world s) <= s2mmOffset (world s').
Proof.
  intros [Hb Hd Hm Hs Hmb Hsb Htg Htr Hvw Hearly] Hstep.
  destruct Hstep as [s at_ Hat Hne | s at_ Hat Hne Hen].
  - destruct (testRun_from_run at_ (world s))
      as (r & mo' & td' & p' & trig' & l & Hrun & Hcase).
    unfold resume_testRun.
    rewrite Hrun. cbn [fst snd world tr vw]. fields.
    destruct s as [w trp vwp]. cbn [world tr vw] in *. subst trp.
    destruct at_; cbn [tr_before_data tr_before_load] in *.
    + (* TR_entry *)
      destruct Hcase as (-> & -> & -> & -> & Hobs).
      split; [|lia].
      constructor; cbn [world tr vw after tr_before_data tr_before_load];
        fields; auto using loaded_app_l; try discriminate.
      intros a Ha1 Ha2. apply only_after_load_app; [auto|]. right.
      rewrite Hobs. repeat constructor.
    + (* TR_reset *)
      destruct Hcase as (-> & x & l2 & Hobs & Hcase).
      rewrite Hd in *. simpl length in *.
      assert (mm2sOffset w = 0) as Hm0 by lia.
      assert (s2mmOffset w = 0) as Hs0 by lia.
      destruct Hcase as [(-> & -> & -> & ->)
                        |(-> & -> & Hr & Hloop)].
      * split; [|lia].
        constructor; cbn [world tr vw after tr_before_data tr_before_load];
          fields; auto using loaded_app_l; try discriminate;
          try (rewrite length_push_range; simpl; lia).
        intros a Ha1 Ha2. apply only_after_load_app; [auto|]. right.
        simpl. rewrite Hobs. repeat constructor. simpl.
        apply Z.eqb_neq. congruence.
      * assert (Hld : loaded (log w ++ x :: Notify dataLoaded :: l2))
          by apply (loaded_notify (log w) [x] l2).
        assert (Hlen : length (testData (with_testData (push_range 10 0) w))
                       = 10%nat).
        { unfold with_testData. fields. rewrite Hd. reflexivity. }
        assert (Hbounds : mm2sOffset w <= mo' <= 10
                          /\ (burst = true -> mo' = 0 \/ mo' = 10)).
        { destruct Hloop as [(Hlt & _ & Hmo')|(Hge & _ & Hmo')].
          - destruct (request_advances (with_testData (push_range 10 0) w)
                        (mm2sOffset w) Hlen) as (H1 & H2 & _).
            + rewrite Hlen. change (Z.of_nat 10) with 10. lia.
            + intros _. left. exact Hm0.
            + rewrite <- Hmo', Hlen in H1, H2.
              change (Z.of_nat 10) with 10 in H1, H2.
              split; [lia|]. intros Hbt. right. apply H2.
              unfold with_testData. fields. congruence.
          - rewrite Hlen in Hge. change (Z.of_nat 10) with 10 in Hge. lia. }
        destruct Hbounds as [Hmo Hmob].
        split; [|lia].
        constructor; cbn [world tr vw after]; fields; auto;
          try (rewrite length_push_range; simpl length; simpl Z.of_nat);
          try lia.
        -- destruct Hr as [-> | ->]; reflexivity.
        -- intros a Ha1 Ha2.
           change (x :: Notify dataLoaded :: l2)
             with ([x; Notify dataLoaded] ++ l2).
           rewrite app_assoc. apply only_after_load_app.
           ++ apply only_after_load_app; [auto|]. right.
              simpl. rewrite Hobs. repeat constructor. simpl.
              apply Z.eqb_neq. congruence.
           ++ left. apply (loaded_notify (log w) [x] []).
    + (* TR_irq *)
      destruct Hcase as (-> & -> & -> & ->).
      pose proof (Htr eq_refl) as Hld.
      split; [|lia].
      constructor; cbn [world tr vw after tr_before_data tr_before_load];
        fields; auto using loaded_app_l.
      intros a Ha1 Ha2. apply only_after_load_app; auto.
    + (* TR_clear_settle *)
      destruct Hcase as (-> & -> & -> & ->).
      pose proof (Htr eq_refl) as Hld.
      split; [|lia].
      constructor; cbn [world tr vw after tr_before_data tr_before_load];
        fields; auto using loaded_app_l.
      intros a Ha1 Ha2. apply only_after_load_app; auto.
    + (* TR_clear_deassert *)
      destruct Hcase as (-> & -> & Hr & Hloop).
      pose proof (Htr eq_refl) as Hld.
      assert (Hbounds : mm2sOffset w <= mo' <= Z.of_nat (length (testData w))
                        /\ (burst = true ->
                            mo' = 0 \/ mo' = Z.of_nat (length (testData w)))).
      { destruct Hloop as [(Hlt & _ & Hmo')|(Hge & _ & ->)].
        - destruct (request_advances w (mm2sOffset w) Hd) as (H1 & H2 & _).
          + lia.
          + rewrite Hb. exact Hmb.
          + rewrite <- Hmo' in H1, H2.
            split; [lia|]. intros Hbt. right. apply H2. congruence.
        - split; [lia|]. exact Hmb. }
      destruct Hbounds as [Hmo Hmob].
      split; [|lia].
      constructor; cbn [world tr vw after]; fields; auto using loaded_app_l;
        try lia.
      * destruct Hr as [-> | ->]; exact Hd.
      * intros a Ha1 Ha2. apply only_after_load_app; auto.
    + contradiction.
  - destruct (verifyMemWriteback_from_run at_ (world s))
      as (r & so' & p' & trig' & l & Hrun & Hcase).
    unfold resume_verify.
    rewrite Hrun. cbn [fst snd world tr vw]. fields.
    destruct s as [w trp vwp]. cbn [world tr vw] in *. subst vwp.
    assert (Hloop : forall (r : result verify_at) (so' : Z),
               loop_outcome w (s2mmOffset w) VW_irq r so' ->
               s2mmOffset w <= so' <= Z.of_nat (length (testData w))
               /\ (burst = true ->
                   so' = 0 \/ so' = Z.of_nat (length (testData w)))).
    { intros r0 so0 [(Hlt & _ & Hso')|(Hge & _ & ->)].
      - assert (Hlen : length (testData w) = 10%nat).
        { destruct (tr_before_data trp); [|exact Hd].
          rewrite Hd in Hlt. simpl in Hlt. lia. }
        destruct (request_advances w (s2mmOffset w) Hlen) as (H1 & H2 & _).
        + lia.
        + rewrite Hb. exact Hsb.
        + rewrite <- Hso' in H1, H2.
          split; [lia|]. intros Hbt. right. apply H2. congruence.
      - split; [lia|]. exact Hsb. }
    destruct at_; cbn [vw_before_load] in *.
    + (* VW_entry *)
      destruct Hcase as (-> & -> & -> & Hobs).
      split; [|lia].
      constructor; cbn [world tr vw after vw_before_load];
        fields; auto using loaded_app_l; try discriminate.
      intros a Ha1 Ha2. apply only_after_load_app; [auto|]. right.
      rewrite Hobs. repeat constructor.
    + (* VW_reset *)
      destruct Hcase as (-> & -> & -> & Hobs).
      split; [|lia].
      constructor; cbn [world tr vw after vw_before_load];
        fields; auto using loaded_app_l; try discriminate.
      intros a Ha1 Ha2. apply only_after_load_app; [auto|]. right.
      rewrite Hobs. repeat constructor. simpl.
      apply Z.eqb_neq. congruence.
    + (* VW_dataLoaded *)
      destruct Hcase as (-> & Hout).
      pose proof (Htg (Hen eq_refl)) as Hld.
      destruct (Hloop r so' Hout) as [Hso Hsob].
      split; [|lia].
      constructor; cbn [world tr vw after]; fields; auto using loaded_app_l;
        try lia.
      intros a Ha1 Ha2. apply only_after_load_app; auto.
    + (* VW_irq *)
      destruct Hcase as (-> & -> & ->).
      pose proof (Hvw eq_refl) as Hld.
      split; [|lia].
      constructor; cbn [world tr vw after]; fields; auto using loaded_app_l.
      intros a Ha1 Ha2. apply only_after_load_app; auto.
    + (* VW_clear_settle *)
      destruct Hcase as (-> & -> & ->).
      pose proof (Hvw eq_refl) as Hld.
      split; [|lia].
      constructor; cbn [world tr vw after]; fields; auto using loaded_app_l.
      intros a Ha1 Ha2. apply only_after_load_app; auto.
    + (* VW_clear_deassert *)
      destruct Hcase as (-> & Hout).
      pose proof (Hvw eq_refl) as Hld.
      destruct (Hloop r so' Hout) as [Hso Hsob].
      split; [|lia].
      constructor; cbn [world tr vw after]; fields; auto using loaded_app_l;
        try lia.
      intros a Ha1 Ha2. apply only_after_load_app; auto.
    + contradiction.
Qed.

Lemma reachable_invariant (burst : bool) (s : system) :
  rtc (step rm target) (boot burst) s -> invariant rm burst s.
Proof.
  revert s. apply rtc_ind_r.
  - apply boot_invariant.
  - intros s s' _ Hstep IH. apply (step_preserves burst s s' IH Hstep).
Qed.

(** C8.  Both transfer offsets start at 0.  In every state that the two
    processes can reach under any scheduling, any target and either mode,
    each offset lies between 0 and the current length of the test vector,
    which is at most 10; and no scheduling step lowers an offset. *)
Theorem offsets_bounded_and_monotone (burst : bool) :
  mm2sOffset (world (boot burst)) = 0
  /\ s2mmOffset (world (boot burst)) = 0
  /\ forall s : system,
      rtc (step rm target) (boot burst) s ->
      (0 <= mm2sOffset (world s) <= Z.of_nat (length (testData (world s)))
       /\ 0 <= s2mmOffset (world s) <= Z.of_nat (length (testData (world s)))
       /\ (length (testData (world s)) <= 10)%nat)
      /\ forall s' : system,
          step rm target s s' ->
          mm2sOffset (world s) <= mm2sOffset (world s')
          /\ s2mmOffset (world s) <= s2mmOffset (world s').
Proof.
  split; [reflexivity|]. split; [reflexivity|].
  intros s Hreach. pose proof (reachable_invariant burst s Hreach) as Hinv.
  split.
  - destruct Hinv as [_ Hd Hm Hs _ _ _ _ _ _].
    split; [exact Hm|]. split; [exact Hs|].
    destruct (tr_before_data (tr s)); rewrite Hd; simpl; lia.
  - intros s' Hstep.
    apply (step_preserves burst s s' Hinv Hstep).
Qed.

(** C6, amended.  The S2MM process enables its interrupt first and waits
    for [dataLoaded] after that: resumed from its reset wait it reads and
    writes the S2MM control register and then suspends on the event.
    What does wait for the load is everything else: under any
    scheduling, a write to any address other than the memory base and
    the S2MM control register, so in particular every write that
    programs or starts an S2MM transfer, has the completion of
    [loadData] before it in the history; and the S2MM process is past
    its wait on the event only if [loadData] has completed. *)
Theorem requests_wait_for_load (burst : bool) :
  (forall w : World,
      exists (p' : payload) (l : list action),
        verifyMemWriteback_from rm target VW_reset w =
          (Val VW_dataLoaded,
           mkWorld (burstMode w) (mm2sOffset w) (s2mmOffset w) (testData w)
                   p' false (log w ++ l))
        /\ observe <$> l =
             [reads (S2MM_CR_REG rm 0); writes (S2MM_CR_REG rm 0);
              waits (for_event dataLoaded)])
  /\ forall s : system,
      rtc (step rm target) (boot burst) s ->
      (forall a : Z,
          a <> MEM_BASE_ADDR rm -> a <> S2MM_CR_REG rm 0 ->
          only_after_load a (log (world s)))
      /\ (vw_before_load (vw s) = false -> loaded (log (world s))).
Proof.
  split.
  - intros w.
    destruct (verifyMemWriteback_from_run VW_reset w)
      as (r & so' & p' & trig' & l & Hrun & -> & -> & -> & Hobs).
    exists p', l. split; [exact Hrun|exact Hobs].
  - intros s Hreach.
    destruct (reachable_invariant burst s Hreach)
      as [_ _ _ _ _ _ _ _ Hvw Hearly].
    split; [exact Hearly|exact Hvw].
Qed.

(** The event is notified once, immediately: a process that starts to
    wait on it afterwards is never resumed. *)
Lemma missed_notification_forever (s s' : system) :
  missed_notification s ->
  rtc (step rm target) s s' ->
  missed_notification s'.
Proof.
  intros Hs Hreach. induction Hreach as [s|s s1 s2 Hstep _ IH]; [exact Hs|].
  apply IH. clear IH. destruct Hs as (Htr & Htrig & Hvw).
  destruct Hstep as [s at_ Hat Hne | s at_ Hat Hne Hen].
  - destruct (testRun_from_run at_ (world s))
      as (r & mo' & td' & p' & trig' & l & Hrun & Hcase).
    unfold missed_notification, resume_testRun.
    rewrite Hrun. cbn [fst snd world tr vw]. fields.
    rewrite Hat in Htr.
    destruct at_; cbn [tr_before_data] in Htr; try discriminate.
    + destruct Hcase as (-> & _ & _ & ->). auto.
    + destruct Hcase as (-> & _ & _ & ->). auto.
    + destruct Hcase as (_ & -> & [-> | ->] & _); auto.
    + contradiction.
  - rewrite Hvw in Hat. injection Hat as <-.
    rewrite (Hen eq_refl) in Htrig. discriminate.
Qed.

(** *** A memory-to-stream run on its own *)

Lemma count_writes_app (a : Z) (os os' : list observation) :
  count_writes a (os ++ os') = (count_writes a os + count_writes a os')%nat.
Proof. induction os as [|o os IH]; simpl; [reflexivity|]. rewrite IH. lia. Qed.

Lemma writes_to_app (a : Z) (l l' : list action) :
  writes_to a (l ++ l') = (writes_to a l + writes_to a l')%nat.
Proof. unfold writes_to. rewrite fmap_app. apply count_writes_app. Qed.

Lemma is_write_to_other (a b : Z) : a <> b -> is_write_to a (writes b) = false.
Proof. intros H. simpl. apply Z.eqb_neq. congruence. Qed.

Lemma is_write_to_same (a : Z) : is_write_to a (writes a) = true.
Proof. simpl. apply Z.eqb_refl. Qed.

Lemma loadData_accepted (w : World) :
  load_accepted rm target ->
  exists (p' : payload) (x : action),
    loadData rm target w =
      (Val tt,
       mkWorld (burstMode w) (mm2sOffset w) (s2mmOffset w)
               (push_range 10 0 (testData w)) p' true
               (log w ++ [x; Notify dataLoaded]))
    /\ observe x = writes (MEM_BASE_ADDR rm).
Proof.
  intros Hacc. destruct w as [bm mo so td p trig lg].
  unfold loadData. exec. unfold is_response_ok. exec.
  match goal with
  | |- context [rsp_status (target ?l ?q)] =>
      rewrite (Hacc l q eq_refl eq_refl)
  end.
  cbv beta iota zeta delta [negb].
  rewrite <- ?app_assoc. eexists _, _. split; reflexivity.
Qed.

Lemma testRun_step (fuel : nat) (at_ : testRun_at) (w : World) :
  at_ <> TR_returned ->
  testRun rm target (S fuel) at_ w =
    match testRun_from rm target at_ w with
    | (Val at', w') => testRun rm target fuel at' w'
    | (Exn what, w') => (Exn what, w')
    end.
Proof. destruct at_; intros H; try contradiction; reflexivity. Qed.

Lemma testRun_returned (fuel : nat) (w : World) :
  testRun rm target fuel TR_returned w = (Val (Some tt), w).
Proof. destruct fuel; reflexivity. Qed.

(** From the interrupt to the head of the loop: [clearIOC] in its two
    halves, which touch the status register only. *)
Lemma testRun_clear (fuel : nat) (w : World) :
  exists (p' : payload) (l : list action),
    testRun rm target (S (S fuel)) TR_irq w =
      testRun rm target fuel TR_clear_deassert
        (mkWorld (burstMode w) (mm2sOffset w) (s2mmOffset w) (testData w) p'
                 (dataLoaded_triggered w) (log w ++ l))
    /\ observe <$> l =
         [reads (MM2S_SR_REG rm 0); waits (for_time 50);
          writes (MM2S_SR_REG rm 0); waits (for_time 50)].
Proof.
  destruct w as [bm mo so td p trig lg]. fields.
  destruct (clearIOC_read_run false 0 (mkWorld bm mo so td p trig lg))
    as (p1 & l1 & Hr & Hobs1 & Haddr).
  cbv zeta in Hr, Hobs1, Haddr. fields_in Hr.
  destruct (clearIOC_write_run (mkWorld bm mo so td p1 trig (lg ++ l1)))
    as (p2 & l2 & Hw & Hobs2 & _).
  fields_in Hw. fields_in Hobs2. rewrite Haddr in Hobs2.
  exists p2, (l1 ++ l2). split.
  - rewrite testRun_step by discriminate.
    unfold testRun_from at 1. exec. rewrite Hr.
    rewrite testRun_step by discriminate.
    unfold testRun_from at 1. exec. rewrite Hw.
    rewrite <- app_assoc. reflexivity.
  - rewrite fmap_app, Hobs1, Hobs2. reflexivity.
Qed.

(** From the head of the loop to the return, with [r] requests to go. *)
Lemma testRun_requests (r : nat) :
  mm2s_length_distinct rm ->
  forall (w : World) (fuel : nat),
    length (testData w) = 10%nat ->
    0 <= mm2sOffset w ->
    mm2sOffset w + Z.of_nat r * (request_size w / sizeof_float) = 10 ->
    (3 * r + 1 <= fuel)%nat ->
    exists w' : World,
      testRun rm target fuel TR_clear_deassert w = (Val (Some tt), w')
      /\ mm2sOffset w' = 10
      /\ testData w' = testData w
      /\ writes_to (MM2S_LENGTH_REG rm 0) (log w')
         = (writes_to (MM2S_LENGTH_REG rm 0) (log w) + r)%nat.
Proof.
  intros (Hmem & Haddr & Hmsb & Hcr & Hsr).
  induction r as [|r IH]; intros w fuel Hlen Hpos Hsum Hfuel.
  - destruct fuel as [|fuel]; [lia|].
    rewrite testRun_step by discriminate.
    unfold testRun_from.
    destruct (testRun_loop_run w) as [_ Hexit].
    rewrite Hexit by (rewrite Hlen; simpl; lia).
    rewrite testRun_returned. eexists. split; [reflexivity|].
    destruct w; unfold with_log; simpl in *. split; [lia|].
    split; [reflexivity|].
    rewrite writes_to_app. unfold writes_to at 2. simpl. lia.
  - assert (Hinc : request_size w / sizeof_float = 1
                   \/ request_size w / sizeof_float = 10).
    { unfold request_size. rewrite Hlen. destruct (burstMode w);
        [right|left]; reflexivity. }
    destruct fuel as [|fuel]; [lia|].
    rewrite testRun_step by discriminate.
    unfold testRun_from.
    destruct (testRun_loop_run w) as [Hreq _]. cbv zeta in Hreq.
    destruct Hreq as (p1 & l1 & Hloop & Hobs1 & _);
      [rewrite Hlen; simpl; lia|].
    rewrite Hloop. fold (request_size w).
    rewrite wrapu_id by lia.
    set (w1 := mkWorld (burstMode w)
                       (mm2sOffset w + request_size w / sizeof_float)
                       (s2mmOffset w) (testData w) p1
                       (dataLoaded_triggered w) (log w ++ l1)).
    destruct fuel as [|[|fuel]]; [lia|lia|].
    destruct (testRun_clear fuel w1) as (p2 & l2 & Hclear & Hobs2).
    rewrite Hclear. subst w1. fields.
    match goal with
    | |- context [testRun rm target fuel TR_clear_deassert ?w2] =>
        destruct (IH w2 fuel) as (w' & Hrun & Hoff & Htd & Hcount)
    end; fields.
    + exact Hlen.
    + lia.
    + unfold request_size in *. fields. lia.
    + lia.
    + exists w'. split; [exact Hrun|]. split; [exact Hoff|].
      split; [exact Htd|].
      fields_in Hcount. rewrite Hcount. rewrite !writes_to_app.
      replace (writes_to (MM2S_LENGTH_REG rm 0) l1) with 1%nat.
      * replace (writes_to (MM2S_LENGTH_REG rm 0) l2) with 0%nat; [lia|].
        unfold writes_to. rewrite Hobs2. cbn [count_writes].
        rewrite is_write_to_other by congruence. reflexivity.
      * unfold writes_to. rewrite Hobs1. cbn [count_writes].
        rewrite !is_write_to_other by congruence.
        rewrite is_write_to_same. reflexivity.
Qed.



Lemma testRun_entry (fuel : nat) (w : World) :
  testRun rm target (S fuel) TR_entry w =
    testRun rm target fuel TR_reset
      (with_log (fun l => l ++ [Wait (for_time 20000)]) w).
Proof.
  rewrite testRun_step by discriminate.
  destruct w as [bm mo so td p trig lg]. reflexivity.
Qed.

(** The resumption that loads the data goes on into the loop. *)
Lemma testRun_reset (fuel : nat) (w : World) :
  load_accepted rm target ->
  exists (p' : payload) (l : list action),
    testRun rm target (S fuel) TR_reset w =
      testRun rm target (S fuel) TR_clear_deassert
        (mkWorld (burstMode w) (mm2sOffset w) (s2mmOffset w)
                 (push_range 10 0 (testData w)) p' true (log w ++ l))
    /\ observe <$> l =
         [writes (MEM_BASE_ADDR rm); notifies dataLoaded;
          reads (MM2S_CR_REG rm 0); writes (MM2S_CR_REG rm 0)].
Proof.
  intros Hacc. destruct w as [bm mo so td p trig lg]. fields.
  destruct (loadData_accepted (mkWorld bm mo so td p trig lg) Hacc)
    as (p1 & x & Hload & Hobsx).
  fields_in Hload.
  destruct (enableIOC_run false 0
              (mkWorld bm mo so (push_range 10 0 td) p1 true
                       (lg ++ [x; Notify dataLoaded])))
    as (p2 & l2 & Hen & Hobs2 & _).
  cbv zeta in Hen, Hobs2. fields_in Hen.
  exists p2, ([x; Notify dataLoaded] ++ l2). split.
  - rewrite !testRun_step by discriminate.
    replace (testRun_from rm target TR_reset (mkWorld bm mo so td p trig lg))
      with (testRun_from rm target TR_clear_deassert
              (mkWorld bm mo so (push_range 10 0 td) p2 true
                       (lg ++ [x; Notify dataLoaded] ++ l2))).
    + reflexivity.
    + unfold testRun_from. unfold mbind, M_bind.
      rewrite Hload, Hen. rewrite <- app_assoc. reflexivity.
  - rewrite fmap_app, Hobs2. cbn [fmap list_fmap]. rewrite Hobsx.
    reflexivity.
Qed.

(** C4.  With a target that accepts the write of the test vector, and a
    register map in which the MM2S length register is an address of its
    own: one transfer request leaves the MM2S offset one word further in
    non-burst mode and ten words further in burst mode; and a
    memory-to-stream run carried to its end (at most 32 resumptions)
    returns with the ten-element test vector loaded, the offset raised
    from 0 to 10, and exactly 10 writes to the length register in
    non-burst mode, exactly 1 in burst mode. *)
Theorem mm2s_run_requests (burst : bool) :
  load_accepted rm target ->
  mm2s_length_distinct rm ->
  (forall w : World,
      length (testData w) = 10%nat ->
      burstMode w = burst ->
      0 <= mm2sOffset w ->
      mm2sOffset w + (if burst then 10 else 1) <= 10 ->
      fst (sendMM2SReq rm target w) = Val tt
      /\ mm2sOffset (snd (sendMM2SReq rm target w))
         = mm2sOffset w + (if burst then 10 else 1))
  /\ forall fuel : nat,
      (32 <= fuel)%nat ->
      exists w' : World,
        testRun rm target fuel TR_entry (make burst) = (Val (Some tt), w')
        /\ mm2sOffset (make burst) = 0
        /\ mm2sOffset w' = 10
        /\ testData w' = push_range 10 0 []
        /\ writes_to (MM2S_LENGTH_REG rm 0) (log w')
           = (if burst then 1 else 10)%nat.
Proof.
  intros Hacc Hdistinct. split.
  - intros w Hlen Hb Hpos Hsum. unfold sendMM2SReq.
    destruct (sendDMAReq_run false w) as (p' & l & Hrun & _ & _).
    cbv zeta in Hrun. rewrite Hrun. cbn [fst snd mm2sOffset].
    split; [reflexivity|]. rewrite Hb, Hlen.
    destruct burst;
      [change (wrapu 32 (sizeof_float * Z.of_nat 10) `div` sizeof_float)
         with 10
      |change (sizeof_float `div` sizeof_float) with 1];
      apply wrapu_id; lia.
  - intros fuel Hfuel.
    destruct fuel as [|[|fuel]]; [lia|lia|].
    rewrite testRun_entry.
    destruct (testRun_reset fuel
                (with_log (fun l => l ++ [Wait (for_time 20000)]) (make burst))
                Hacc) as (p' & l & Hreset & Hobs).
    rewrite Hreset. unfold with_log, make in *. fields.
    fields_in Hobs.
    match goal with
    | |- context [testRun rm target (S fuel) TR_clear_deassert ?w3] =>
        destruct (testRun_requests (if burst then 1 else 10)%nat Hdistinct
                    w3 (S fuel)) as (w' & Hrun & Hoff & Htd & Hcount)
    end; fields.
    + reflexivity.
    + lia.
    + unfold request_size. fields. destruct burst; reflexivity.
    + destruct burst; lia.
    + exists w'. split; [exact Hrun|]. split; [reflexivity|].
      split; [exact Hoff|]. split; [exact Htd|].
      rewrite Hcount. fields. rewrite !writes_to_app.
      destruct Hdistinct as (Hmem & _ & _ & Hcr & _).
      replace (writes_to (MM2S_LENGTH_REG rm 0) l) with 0%nat.
      * destruct burst; reflexivity.
      * unfold writes_to. rewrite Hobs. cbn [count_writes].
        rewrite !is_write_to_other by congruence. reflexivity.
Qed.

End DMATester_properties.

(** *** Instances *)

Section DMATester_instances.

Import DMATester.

(** C3, at the failing input and in general.  No register transaction
    has its response status looked at.  Whatever the target answers,
    [sendDMAReq], [enableIOC] and both halves of [clearIOC] return
    normally.  With a target that rejects every transaction, a transfer
    request in non-burst mode still issues its three writes, all
    rejected, advances the offset by one word, and returns. *)
Theorem register_status_unchecked :
  (forall (rm : RegisterMap) (target : list action -> payload -> response)
          (w : World) (s2mm : bool) (ii : Z),
      fst (sendDMAReq rm target s2mm w) = Val tt
      /\ fst (enableIOC rm target s2mm ii w) = Val tt
      /\ fst (clearIOC_read rm target s2mm ii w) = Val tt
      /\ fst (clearIOC_write target w) = Val tt)
  /\ (let w0 := with_testData (push_range 10 0) (make false) in
      let out := sendDMAReq axi_dma rejecting_target false w0 in
      fst out = Val tt
      /\ mm2sOffset (snd out) = 1
      /\ observe <$> log (snd out) =
           [writes (MM2S_ADDR_REG axi_dma 0);
            writes (MM2S_ADDR_MSB_REG axi_dma 0);
            writes (MM2S_LENGTH_REG axi_dma 0)]
      /\ Forall (fun x => exists p r,
                     x = Transport p r
                     /\ rsp_status r = TLM_GENERIC_ERROR_RESPONSE)
                (log (snd out))).
Proof.
  split.
  - intros rm target w s2mm ii. destruct s2mm; repeat split.
  - vm_compute. repeat split.
    repeat (constructor; [eexists _, _; split; reflexivity|]).
    constructor.
Qed.

(** [mm2s_run_requests] for the layout of the AXI DMA and the accepting
    target, in non-burst mode with 32 resumptions: the layout keeps the
    MM2S length register apart, and the target accepts the load. *)
Lemma mm2s_run_requests_witness :
  exists w' : World,
    testRun axi_dma accepting_target 32 TR_entry (make false)
    = (Val (Some tt), w')
    /\ mm2sOffset (make false) = 0
    /\ mm2sOffset w' = 10
    /\ testData w' = push_range 10 0 []
    /\ writes_to (MM2S_LENGTH_REG axi_dma 0) (log w') = 10%nat.
Proof.
  apply (proj2 (mm2s_run_requests axi_dma accepting_target false
                  ltac:(intros l p _ _; reflexivity)
                  ltac:(unfold mm2s_length_distinct; simpl; lia))
               32%nat).
  lia.
Defined.

(** [verification_stops_at_first_mismatch] for the loaded test vector:
    read back with element 3 replaced by 42.0, and read back unchanged. *)
Lemma verification_stops_at_first_mismatch_witness :
  let w := with_testData (push_range 10 0) (make false) in
  let md := <[3%nat := float_of_size 42]> (testData w) in
  compare_from 10 0 md w
  = (Val (Some 3%nat), with_log (fun l => l ++ [Print mismatch_message]) w)
  /\ compare_from 10 0 (testData w) w = (Val None, w).
Proof.
  intros w md. split.
  - apply (proj1 (verification_stops_at_first_mismatch w md) 3%nat
             (float_of_size 3) (float_of_size 42)).
    + intros j Hj. destruct j as [|[|[|j]]]; [| | |lia];
        eexists _, _; repeat split.
    + reflexivity.
    + reflexivity.
    + vm_compute. reflexivity.
    + reflexivity.
  - apply (proj2 (verification_stops_at_first_mismatch w (testData w))).
    intros j Hj.
    do 10 (destruct j as [|j]; [eexists _, _; repeat split|]).
    simpl in Hj. lia.
Defined.

(** C5, as stated, fails.  The diagnostic is the same at index 3 and at
    index 7, so it names neither; and when the written-back vector equals
    the test vector nothing at all is printed. *)
Lemma mismatch_report_names_no_index :
  let w := with_testData (push_range 10 0) (make false) in
  let at3 := compare_from 10 0 (<[3%nat := float_of_size 42]> (testData w)) w in
  let at7 := compare_from 10 0 (<[7%nat := float_of_size 42]> (testData w)) w in
  let same := compare_from 10 0 (testData w) w in
  fst at3 = Val (Some 3%nat)
  /\ fst at7 = Val (Some 7%nat)
  /\ log (snd at3) = [Print mismatch_message]
  /\ log (snd at7) = log (snd at3)
  /\ fst same = Val None
  /\ log (snd same) = [].
Proof. vm_compute. repeat split. Qed.

Lemma loaded_existsb (l : list action) :
  loaded l <-> existsb (fun x => is_notify (observe x)) l = true.
Proof.
  unfold loaded. rewrite existsb_exists, Exists_exists.
  split; intros (x & Hin & Hx); exists x; split; try assumption;
    apply list_elem_of_In; assumption.
Qed.

Lemma schedule_enable_reachable :
  rtc (step axi_dma accepting_target) (boot false)
      (schedule_enable axi_dma accepting_target).
Proof.
  unfold schedule_enable.
  eapply rtc_r; [eapply rtc_r; [eapply rtc_once|]|].
  - apply (step_testRun _ _ (boot false) TR_entry);
      [reflexivity|discriminate].
  - apply step_verify; [reflexivity|discriminate|discriminate].
  - apply step_verify; [reflexivity|discriminate|discriminate].
Qed.

Lemma schedule_requests_reachable :
  rtc (step axi_dma accepting_target) (boot false)
      (schedule_requests axi_dma accepting_target).
Proof.
  unfold schedule_requests.
  eapply rtc_r; [eapply rtc_r; [exact schedule_enable_reachable|]|].
  - apply step_testRun; [reflexivity|discriminate].
  - apply step_verify;
      [vm_compute; reflexivity|discriminate
      |intros _; vm_compute; reflexivity].
Qed.

(** C6, as stated, fails.  Under a schedule that the kernel may choose,
    the S2MM process has read and written the S2MM control register and
    only then suspended on [dataLoaded], while [testRun] has not yet
    called [loadData]: no test data, no notification. *)
Lemma s2mm_enable_precedes_load :
  exists s : system,
    rtc (step axi_dma accepting_target) (boot false) s
    /\ observe <$> log (world s) =
         [waits (for_time 20000); waits (for_time 20000);
          reads (S2MM_CR_REG axi_dma 0); writes (S2MM_CR_REG axi_dma 0);
          waits (for_event dataLoaded)]
    /\ tr s = Suspended TR_reset
    /\ vw s = Suspended VW_dataLoaded
    /\ testData (world s) = []
    /\ ~ loaded (log (world s)).
Proof.
  exists (schedule_enable axi_dma accepting_target).
  split; [exact schedule_enable_reachable|].
  split; [vm_compute; reflexivity|]. split; [reflexivity|].
  split; [reflexivity|]. split; [reflexivity|].
  rewrite loaded_existsb. vm_compute. discriminate.
Qed.


(** [offsets_bounded_and_monotone] at the state of [schedule_enable] and
    at the step that resumes [testRun] from it. *)
Lemma offsets_bounded_and_monotone_witness :
  let s := schedule_enable axi_dma accepting_target in
  let s' := resume_testRun axi_dma accepting_target s TR_reset in
  (0 <= mm2sOffset (world s) <= Z.of_nat (length (testData (world s)))
   /\ 0 <= s2mmOffset (world s) <= Z.of_nat (length (testData (world s)))
   /\ (length (testData (world s)) <= 10)%nat)
  /\ mm2sOffset (world s) <= mm2sOffset (world s')
  /\ s2mmOffset (world s) <= s2mmOffset (world s').
Proof.
  intros s s'.
  destruct (proj2 (proj2 (offsets_bounded_and_monotone
                            axi_dma accepting_target false))
                  s schedule_enable_reachable) as [Hbounds Hmono].
  split; [exact Hbounds|].
  apply Hmono. apply step_testRun; [reflexivity|discriminate].
Defined.

(** [requests_wait_for_load] at the state of [schedule_requests], for
    the S2MM length register. *)
Lemma requests_wait_for_load_witness :
  let s := schedule_requests axi_dma accepting_target in
  only_after_load (S2MM_LENGTH_REG axi_dma 0) (log (world s))
  /\ loaded (log (world s)).
Proof.
  intros s.
  destruct (proj2 (requests_wait_for_load axi_dma accepting_target false)
                  s schedule_requests_reachable) as [Hearly Hvw].
  split.
  - apply Hearly; simpl; lia.
  - apply Hvw. vm_compute. reflexivity.
Defined.


(** Under the other order at the reset timeout the load completes, and
    [verifyMemWriteback] then waits for a notification that has already
    been given. *)
Lemma load_first_misses_notification :
  rtc (step axi_dma accepting_target) (boot false)
      (schedule_load_first axi_dma accepting_target)
  /\ loaded (log (world (schedule_load_first axi_dma accepting_target)))
  /\ missed_notification (schedule_load_first axi_dma accepting_target).
Proof.
  split; [|split].
  - unfold schedule_load_first.
    eapply rtc_r; [eapply rtc_r; [eapply rtc_r; [eapply rtc_once|]|]|].
    + apply (step_testRun _ _ (boot false) TR_entry);
        [reflexivity|discriminate].
    + apply step_verify; [reflexivity|discriminate|discriminate].
    + apply step_testRun; [reflexivity|discriminate].
    + apply step_verify; [reflexivity|discriminate|discriminate].
  - rewrite loaded_existsb. vm_compute. reflexivity.
  - vm_compute. repeat split.
Qed.

(** The ten floats of the test vector: 0, 1, ..., 9 as binary32. *)
Lemma testVector_values :
  push_range 10 0 [] =
    [0; 1065353216; 1073741824; 1077936128; 1082130432;
     1084227584; 1086324736; 1088421888; 1090519040; 1091567616].
Proof. vm_compute. reflexivity. Qed.

End DMATester_instances.

(** * Further properties *)

(** ** The descriptor execution engine: loops, errors, invariants *)

Section PE_coverage.

Import PE.

Ltac int_lia :=
  unfold is_int, INT_MIN, INT_MAX in *;
  change (2 ^ 31) with 2147483648 in *;
  lia.

Lemma set_counters_same (d : Descriptor_2D) :
  set_counters d (x_counter d) (y_counter d) = d.
Proof. destruct d; reflexivity. Qed.

Lemma run_app (a b : nat) (pe : PE.t) :
  run (a + b) pe = match run a pe with
                   | Ok pe' => run b pe'
                   | Throw e => Throw e
                   end.
Proof.
  revert pe. induction a as [|a IH]; intros pe; simpl; [reflexivity|].
  destruct (updateState pe) as [pe1|e]; [apply IH|reflexivity].
Qed.

Lemma run_S (n : nat) (pe : PE.t) :
  run (S n) pe = match updateState pe with
                 | Ok pe' => run n pe'
                 | Throw e => Throw e
                 end.
Proof. reflexivity. Qed.

(** One tick of a counting descriptor, GENWAIT or WAIT, without
    overflow. *)
Lemma counting_step (prog : list Descriptor_2D) (i : nat) (ws : list Z)
      (w : Z) (d : Descriptor_2D) :
  prog !! i = Some d ->
  counting d = true ->
  is_int (x_counter d - 1) ->
  is_int (y_counter d - 1) ->
  is_int (w + stride d) ->
  updateState (mkPE true prog i ws w) =
    if x_counter d - 1 <? 0
    then Ok (mkPE true
                  (<[i := set_counters d (x_count d) (y_counter d - 1)]> prog)
                  (if y_counter d - 1 <? 0 then S i else i) ws (w + stride d))
    else Ok (mkPE true
                  (<[i := set_counters d (x_counter d - 1) (y_counter d)]> prog)
                  (if y_counter d <? 0 then S i else i) ws w).
Proof.
  intros Hcur Hc Hx Hy Hw. unfold updateState. simpl. rewrite Hcur.
  unfold counting, stride in *.
  destruct (state d) eqn:Hst; try discriminate;
    rewrite tick_counters_spec by assumption;
    destruct (x_counter d - 1 <? 0); simpl;
    rewrite ?wrap_int_id by assumption;
    unfold set_counters; rewrite ?Hst, ?Z.add_0_r; reflexivity.
Qed.

(** The inner loop: [x_counter] ticks take [x_counter] to 0 and change
    nothing else. *)
Lemma inner_countdown (n : nat) :
  forall (prog : list Descriptor_2D) (i : nat) (ws : list Z) (w : Z)
         (d : Descriptor_2D),
    prog !! i = Some d ->
    counting d = true ->
    x_counter d = Z.of_nat n ->
    is_int (x_counter d) ->
    0 <= y_counter d ->
    is_int (y_counter d) ->
    run n (mkPE true prog i ws w) =
      Ok (mkPE true (<[i := set_counters d 0 (y_counter d)]> prog) i ws w).
Proof.
  induction n as [|n IH]; intros prog i ws w d Hcur Hc Hx Hxi Hy Hyi.
  - simpl run.
    replace (set_counters d 0 (y_counter d)) with d
      by (destruct d; simpl in *; subst; reflexivity).
    rewrite list_insert_id by exact Hcur. reflexivity.
  - assert (Hstep : updateState (mkPE true prog i ws w) =
              Ok (mkPE true
                    (<[i := set_counters d (x_counter d - 1) (y_counter d)]>
                       prog) i ws w)).
    { unfold updateState. simpl. rewrite Hcur. unfold counting in Hc.
      destruct (state d) eqn:Hst; try discriminate;
        rewrite tick_counters_spec by int_lia;
        replace (x_counter d - 1 <? 0) with false
          by (symmetry; apply Z.ltb_ge; lia);
        cbn [y_counter];
        replace (y_counter d <? 0) with false
          by (symmetry; apply Z.ltb_ge; lia);
        unfold set_counters; rewrite Hst; reflexivity. }
    simpl run. rewrite Hstep.
    rewrite (IH _ i ws w (set_counters d (x_counter d - 1) (y_counter d))).
    + rewrite list_insert_insert_eq. reflexivity.
    + apply list_lookup_insert_eq. eapply lookup_lt_Some. exact Hcur.
    + exact Hc.
    + simpl. lia.
    + simpl. int_lia.
    + exact Hy.
    + simpl. int_lia.
Qed.

(** The nested loop down to its last tick: from counters [(x, y)] it takes
    [x + y * (x_count + 1)] ticks to reach [(0, 0)], the weight index
    having moved [y] strides, the cursor still at the descriptor. *)
Lemma countdown_to_last (y : nat) :
  forall (prog : list Descriptor_2D) (i : nat) (ws : list Z) (w : Z)
         (d : Descriptor_2D),
    prog !! i = Some d ->
    counting d = true ->
    0 <= x_counter d <= INT_MAX ->
    0 <= x_count d <= INT_MAX ->
    y_counter d = Z.of_nat y ->
    y_counter d <= INT_MAX ->
    (forall k : Z, 0 <= k <= Z.of_nat y -> is_int (w + k * stride d)) ->
    run (Z.to_nat (x_counter d + Z.of_nat y * (x_count d + 1)))
        (mkPE true prog i ws w) =
      Ok (mkPE true (<[i := set_counters d 0 0]> prog) i ws
               (w + Z.of_nat y * stride d)).
Proof.
  induction y as [|y IH]; intros prog i ws w d Hcur Hc Hx HX Hy Hyi Hw.
  - rewrite Z.mul_0_l, Z.add_0_r, Z.add_0_r.
    rewrite (inner_countdown _ prog i ws w d Hcur Hc); unfold INT_MAX in *.
    + rewrite Hy. reflexivity.
    + lia.
    + int_lia.
    + lia.
    + int_lia.
  - unfold INT_MAX in *.
    replace (Z.to_nat (x_counter d + Z.of_nat (S y) * (x_count d + 1)))
      with (Z.to_nat (x_counter d)
            + S (Z.to_nat (x_count d + Z.of_nat y * (x_count d + 1))))%nat
      by nia.
    rewrite run_app.
    rewrite (inner_countdown _ prog i ws w d Hcur Hc);
      [|lia|int_lia|lia|int_lia].
    rewrite run_S.
    set (d0 := set_counters d 0 (y_counter d)).
    assert (Hcur0 : <[i := d0]> prog !! i = Some d0).
    { apply list_lookup_insert_eq. eapply lookup_lt_Some. exact Hcur. }
    rewrite (counting_step _ i ws w d0 Hcur0);
      [|exact Hc|simpl; int_lia
       |simpl; int_lia
       |specialize (Hw 1 ltac:(lia)); rewrite Z.mul_1_l in Hw; exact Hw].
    simpl x_counter. simpl y_counter. simpl x_count.
    change (0 - 1 <? 0) with true. cbv iota.
    replace (y_counter d - 1 <? 0) with false
      by (symmetry; apply Z.ltb_ge; lia).
    rewrite list_insert_insert_eq.
    set (d1 := set_counters d0 (x_count d) (y_counter d - 1)).
    assert (Hcur1 : <[i := d1]> prog !! i = Some d1).
    { apply list_lookup_insert_eq. eapply lookup_lt_Some. exact Hcur. }
    pose proof (IH (<[i := d1]> prog) i ws (w + stride d0) d1 Hcur1 Hc) as H.
    simpl x_counter in H. simpl x_count in H. simpl y_counter in H.
    rewrite H; clear H.
    + rewrite list_insert_insert_eq.
      change (stride d0) with (stride d). change (stride d1) with (stride d).
      change (set_counters d1 0 0) with (set_counters d 0 0).
      f_equal. f_equal. lia.
    + lia.
    + lia.
    + lia.
    + lia.
    + intros k Hk. change (stride d0) with (stride d).
      change (stride d1) with (stride d).
      replace (w + stride d + k * stride d) with (w + (k + 1) * stride d)
        by lia.
      apply Hw. lia.
Qed.

Lemma run_prefix (a b : nat) (pe pe' : PE.t) :
  run (a + b) pe = Ok pe' -> exists pe1, run a pe = Ok pe1 /\ run b pe1 = Ok pe'.
Proof.
  rewrite run_app. destruct (run a pe) as [pe1|e]; [|discriminate].
  intros H. exists pe1. auto.
Qed.

Lemma updateState_cursor (pe pe' : PE.t) :
  updateState pe = Ok pe' ->
  (prog_idx pe <= prog_idx pe' <= S (prog_idx pe))%nat.
Proof.
  unfold updateState.
  destruct (programmed pe); [|discriminate].
  destruct (program pe !! prog_idx pe) as [d|]; [|discriminate].
  destruct (state d); try discriminate.
  - destruct (tick_counters d) as [d' u]. intros [= <-]. simpl.
    destruct (y_counter d' <? 0); lia.
  - destruct (tick_counters d) as [d' u]. intros [= <-]. simpl.
    destruct (y_counter d' <? 0); lia.
  - intros [= <-]. lia.
Qed.

Lemma run_cursor (n : nat) :
  forall pe pe' : PE.t,
    run n pe = Ok pe' -> (prog_idx pe <= prog_idx pe')%nat.
Proof.
  induction n as [|n IH]; intros pe pe'; simpl.
  - intros [= <-]. lia.
  - destruct (updateState pe) as [pe1|e] eqn:Hstep; [|discriminate].
    intros H. apply IH in H. apply updateState_cursor in Hstep. lia.
Qed.

(** X1.  The nested loop of a counting descriptor (GENWAIT or WAIT).
    With the cursor at a descriptor whose counters are [(x, y)], both
    non-negative, and no int overflow on the way, the cursor stays at the
    descriptor for [x + y * (x_count + 1)] ticks and moves to the next
    descriptor at the tick after; by then the weight index has moved
    [y + 1] strides, the stride being [y_modify] in GENWAIT and 0 in
    WAIT, and the descriptor is left with counters [(x_count, -1)]. *)
Theorem descriptor_duration (prog : list Descriptor_2D) (i : nat)
        (ws : list Z) (w : Z) (d : Descriptor_2D) :
  prog !! i = Some d ->
  counting d = true ->
  0 <= x_counter d <= INT_MAX ->
  0 <= x_count d <= INT_MAX ->
  0 <= y_counter d <= INT_MAX ->
  (forall k : Z, 0 <= k <= y_counter d + 1 -> is_int (w + k * stride d)) ->
  let last := Z.to_nat (x_counter d + y_counter d * (x_count d + 1)) in
  (forall k : nat, (k <= last)%nat ->
     exists pe', run k (mkPE true prog i ws w) = Ok pe' /\ prog_idx pe' = i)
  /\ run (S last) (mkPE true prog i ws w) =
       Ok (mkPE true (<[i := set_counters d (x_count d) (-1)]> prog) (S i) ws
                (w + (y_counter d + 1) * stride d)).
Proof.
  intros Hcur Hc Hx HX Hy Hw last.
  assert (Hlast : run last (mkPE true prog i ws w) =
            Ok (mkPE true (<[i := set_counters d 0 0]> prog) i ws
                     (w + y_counter d * stride d))).
  { subst last.
    pose proof (countdown_to_last (Z.to_nat (y_counter d)) prog i ws w d
                  Hcur Hc Hx HX) as H.
    rewrite Z2Nat.id in H by lia. apply H; [reflexivity|lia|].
    intros k Hk. apply Hw. lia. }
  split.
  - intros k Hk.
    replace last with (k + (last - k))%nat in Hlast by lia.
    apply run_prefix in Hlast as (pe1 & Hk1 & Hrest).
    exists pe1. split; [exact Hk1|].
    apply run_cursor in Hk1. apply run_cursor in Hrest. simpl in *. lia.
  - replace (S last) with (last + 1)%nat by lia.
    rewrite run_app, Hlast. simpl run.
    set (d0 := set_counters d 0 0).
    assert (Hcur0 : <[i := d0]> prog !! i = Some d0).
    { apply list_lookup_insert_eq. eapply lookup_lt_Some. exact Hcur. }
    unfold INT_MAX in *.
    rewrite (counting_step _ i ws _ d0 Hcur0);
      [|exact Hc|simpl; int_lia|simpl; int_lia|].
    + simpl. rewrite list_insert_insert_eq.
      change (stride d0) with (stride d).
      f_equal. f_equal. lia.
    + change (stride d0) with (stride d).
      replace (w + y_counter d * stride d + stride d)
        with (w + (y_counter d + 1) * stride d) by lia.
      apply Hw. lia.
Qed.


(** [descriptor_duration] for a WAIT descriptor with counts (1, 2) and
    stride 5, started at counters (1, 2): the cursor moves at the sixth
    tick and the weight index stays at 7. *)
Lemma descriptor_duration_witness :
  let d := mkDesc WAIT 1 1 2 2 5 in
  (forall k : nat, (k <= 5)%nat ->
     exists pe', run k (mkPE true [d] 0%nat [] 7) = Ok pe' /\ prog_idx pe' = 0%nat)
  /\ run 6 (mkPE true [d] 0%nat [] 7) =
       Ok (mkPE true [mkDesc WAIT 1 1 2 (-1) 5] 1%nat [] 7).
Proof.
  intros d. subst d.
  apply (descriptor_duration [mkDesc WAIT 1 1 2 2 5] 0%nat [] 7
           (mkDesc WAIT 1 1 2 2 5) eq_refl eq_refl);
    try (unfold INT_MAX; simpl; lia).
  intros k Hk. unfold is_int, INT_MIN, INT_MAX, stride. simpl in *. lia.
Defined.

(** X2.  A SUSPENDED descriptor parks the engine: however many ticks
    follow, the engine is exactly as it was. *)
Theorem suspended_forever (n : nat) (pe : PE.t) (d : Descriptor_2D) :
  programmed pe = true ->
  program pe !! prog_idx pe = Some d ->
  state d = SUSPENDED ->
  run n pe = Ok pe.
Proof.
  intros Hprog Hcur Hst. induction n as [|n IH]; [reflexivity|].
  rewrite run_S, (suspended_advance pe d Hprog Hcur Hst). exact IH.
Qed.

Lemma suspended_forever_witness :
  let pe := mkPE true [mkDesc SUSPENDED 0 0 0 0 0] 0%nat [3; 4] 1 in
  run 1000 pe = Ok pe.
Proof.
  intros pe.
  apply (suspended_forever 1000 pe (mkDesc SUSPENDED 0 0 0 0 0));
    reflexivity.
Defined.

(** X3.  What [updateState] can touch.  A tick that completes leaves the
    engine programmed, leaves the weights and the length of the program as
    they were, moves the cursor by at most one place and never back,
    leaves every descriptor other than the current one as it was, and in
    the current one changes nothing but the two counters. *)
Theorem advance_frame (pe pe' : PE.t) :
  updateState pe = Ok pe' ->
  programmed pe' = true
  /\ weights pe' = weights pe
  /\ length (program pe') = length (program pe)
  /\ (prog_idx pe <= prog_idx pe' <= S (prog_idx pe))%nat
  /\ (forall j : nat, j <> prog_idx pe -> program pe' !! j = program pe !! j)
  /\ exists d d' : Descriptor_2D,
       program pe !! prog_idx pe = Some d
       /\ program pe' !! prog_idx pe = Some d'
       /\ state d' = state d
       /\ x_count d' = x_count d
       /\ y_count d' = y_count d
       /\ y_modify d' = y_modify d.
Proof.
  intros Hstep.
  pose proof (updateState_cursor pe pe' Hstep) as Hcursor.
  pose proof (updateState_length pe pe' Hstep) as Hlen.
  unfold updateState in Hstep.
  destruct (programmed pe) eqn:Hprog; [|discriminate].
  destruct (program pe !! prog_idx pe) as [d|] eqn:Hcur; [|discriminate].
  assert (Hin : (prog_idx pe < length (program pe))%nat)
    by (eapply lookup_lt_Some; exact Hcur).
  assert (Hcount : forall d' u,
             tick_counters d = (d', u) ->
             state d' = state d /\ x_count d' = x_count d
             /\ y_count d' = y_count d /\ y_modify d' = y_modify d).
  { intros d' u. unfold tick_counters, set_x_counter, set_y_counter. simpl.
    destruct (wrap_int (x_counter d - 1) <? 0); intros [= <- _]; auto. }
  destruct (state d) eqn:Hst; try discriminate.
  - destruct (tick_counters d) as [d' u] eqn:Htick.
    injection Hstep as <-. simpl in *.
    split; [reflexivity|]. split; [reflexivity|]. split; [exact Hlen|].
    split; [exact Hcursor|].
    split; [intros j Hj; apply list_lookup_insert_ne; congruence|].
    exists d, d'. split; [reflexivity|].
    split; [apply list_lookup_insert_eq; exact Hin|].
    rewrite Hst. apply (Hcount d' u eq_refl).
  - destruct (tick_counters d) as [d' u] eqn:Htick.
    injection Hstep as <-. simpl in *.
    split; [reflexivity|]. split; [reflexivity|]. split; [exact Hlen|].
    split; [exact Hcursor|].
    split; [intros j Hj; apply list_lookup_insert_ne; congruence|].
    exists d, d'. split; [reflexivity|].
    split; [apply list_lookup_insert_eq; exact Hin|].
    rewrite Hst. apply (Hcount d' u eq_refl).
  - injection Hstep as <-.
    split; [exact Hprog|]. split; [reflexivity|]. split; [reflexivity|].
    split; [exact Hcursor|]. split; [reflexivity|].
    exists d, d. auto 7.
Qed.

Lemma advance_frame_witness :
  let pe := mkPE true [mkDesc WAIT 3 0 1 0 9; mkDesc SUSPENDED 0 0 0 0 0]
                 0%nat [5; 6] 1 in
  let pe' := mkPE true [mkDesc WAIT 3 3 1 (-1) 9; mkDesc SUSPENDED 0 0 0 0 0]
                  1%nat [5; 6] 1 in
  updateState pe = Ok pe'
  /\ weights pe' = weights pe
  /\ (prog_idx pe <= prog_idx pe' <= S (prog_idx pe))%nat.
Proof.
  intros pe pe'.
  assert (H : updateState pe = Ok pe') by reflexivity.
  split; [exact H|].
  destruct (advance_frame pe pe' H) as (_ & Hw & _ & Hc & _).
  split; [exact Hw|exact Hc].
Defined.

(** X4.  When [updateState] fails.  It throws for want of a program exactly
    when the engine is not programmed; std::out_of_range exactly when it
    is programmed and the cursor is at or past the end of the program;
    the invalid-descriptor exception exactly when it is programmed and
    the current descriptor carries a state other than the three named
    ones.  In every other case it completes. *)
Theorem advance_failures (pe : PE.t) :
  (updateState pe = Throw not_programmed <-> programmed pe = false)
  /\ (updateState pe = Throw out_of_range <->
      programmed pe = true
      /\ (length (program pe) <= prog_idx pe)%nat)
  /\ (updateState pe = Throw invalid_descriptor <->
      programmed pe = true
      /\ exists (d : Descriptor_2D) (raw : Z),
           program pe !! prog_idx pe = Some d /\ state d = INVALID raw)
  /\ ((exists pe', updateState pe = Ok pe') <->
      programmed pe = true
      /\ exists d : Descriptor_2D,
           program pe !! prog_idx pe = Some d
           /\ (counting d = true \/ state d = SUSPENDED)).
Proof.
  unfold updateState, counting.
  destruct (programmed pe).
  - destruct (program pe !! prog_idx pe) as [d|] eqn:Hcur.
    + pose proof (lookup_lt_Some _ _ _ Hcur) as Hlt.
      destruct (state d) as [| | |raw] eqn:Hst;
        try destruct (tick_counters d) as [d' u];
        (split; [|split; [|split]]); split;
        try discriminate; try (intros [H _]; discriminate H);
        try (intros [_ H]; lia);
        try (intros [pe' H]; discriminate H);
        try (intros (_ & d0 & raw0 & [= <-] & H); congruence);
        try (intros (_ & d0 & [= <-] & [H|H]); rewrite Hst in H;
             discriminate H);
        first
          [ intros _; eexists; reflexivity
          | intros _; split; [reflexivity|]; exists d;
            split; [reflexivity|]; rewrite Hst; auto
          | intros _; split; [reflexivity|]; exists d, raw; auto ].
    + apply lookup_ge_None in Hcur.
      (split; [|split; [|split]]); split;
        try discriminate; try (intros [H _]; discriminate H);
        try (intros [pe' H]; discriminate H);
        try (intros (_ & d0 & raw0 & H & _); discriminate H);
        try (intros (_ & d0 & H & _); discriminate H).
      * intros _. split; [reflexivity|exact Hcur].
      * reflexivity.
  - (split; [|split; [|split]]); split;
      try discriminate; try (intros [H _]; discriminate H);
      try (intros [pe' H]; discriminate H); auto.
Qed.

(** X5.  The counters stay within their counts.  If every descriptor of
    the program has [0 <= x_counter <= x_count] and
    [-1 <= y_counter <= y_count], and no descriptor at or after the
    cursor is used up ([y_counter >= 0]), then the same holds after any
    number of ticks that complete.  In particular [x_counter] is never
    left at -1, and [y_counter] is -1 only in descriptors the cursor has
    passed. *)
Theorem counters_stay_in_range (n : nat) :
  forall pe pe' : PE.t,
    counters_ok pe -> run n pe = Ok pe' -> counters_ok pe'.
Proof.
  induction n as [|n IH]; intros pe pe' Hok; simpl.
  - intros [= <-]. exact Hok.
  - destruct (updateState pe) as [pe1|e] eqn:Hstep; [|discriminate].
    apply IH. clear IH pe'. unfold updateState in Hstep.
    destruct (programmed pe); [|discriminate].
    destruct (program pe !! prog_idx pe) as [d|] eqn:Hcur; [|discriminate].
    destruct (Hok _ _ Hcur) as ((Hx & HX & Hy & HY) & Hlive).
    specialize (Hlive ltac:(lia)).
    assert (Hin : (prog_idx pe < length (program pe))%nat)
      by (eapply lookup_lt_Some; exact Hcur).
    assert (Hcount : forall pe2 : PE.t,
               (let '(d', _) := tick_counters d in
                program pe2 = <[prog_idx pe := d']> (program pe)
                /\ prog_idx pe2 = (if y_counter d' <? 0
                                   then S (prog_idx pe) else prog_idx pe)) ->
               counters_ok pe2).
    { intros pe2. rewrite tick_counters_spec by int_lia.
      destruct (Z.ltb_spec (x_counter d - 1) 0) as [Hu|Hu];
        intros [Hp Hi]; simpl in Hi; intros j dj Hj; rewrite Hp in Hj;
        (destruct (decide (j = prog_idx pe)) as [->|Hne];
         [rewrite list_lookup_insert_eq in Hj by exact Hin;
          injection Hj as <-; unfold counters_in_range; simpl;
          split; [lia|]; rewrite Hi;
          destruct (Z.ltb_spec (y_counter d - 1) 0);
          destruct (Z.ltb_spec (y_counter d) 0); lia
         |rewrite list_lookup_insert_ne in Hj by congruence;
          destruct (Hok _ _ Hj) as [Hr Hl]; split; [exact Hr|];
          intros Hge; apply Hl; rewrite Hi in Hge;
          destruct (_ <? 0) in Hge; lia]). }
    destruct (state d); try discriminate.
    + apply Hcount. destruct (tick_counters d) as [d' u].
      injection Hstep as <-. simpl. auto.
    + apply Hcount. destruct (tick_counters d) as [d' u].
      injection Hstep as <-. simpl. auto.
    + injection Hstep as <-. exact Hok.
Qed.

Lemma counters_stay_in_range_witness :
  counters_ok example_pe
  /\ counters_ok (mkPE true [mkDesc GENWAIT 2 2 1 (-1) 1] 1%nat [] 2).
Proof.
  assert (Hok : counters_ok example_pe).
  { intros j d Hj. destruct j as [|j]; [|discriminate Hj].
    injection Hj as <-. unfold counters_in_range, INT_MAX. simpl. lia. }
  split; [exact Hok|].
  apply (counters_stay_in_range 6 example_pe _ Hok). vm_compute. reflexivity.
Defined.


Lemma updateState_loadWeights (ws : list Z) (pe : PE.t) :
  updateState (loadWeights ws pe)
  = match updateState pe with
    | Ok pe' => Ok (loadWeights ws pe')
    | Throw e => Throw e
    end.
Proof.
  destruct pe as [pg prog i ws0 w]. unfold updateState, loadWeights.
  cbn [programmed program prog_idx weights weight_idx].
  destruct pg; [|reflexivity].
  destruct (prog !! i) as [d|]; [|reflexivity].
  destruct (state d); try reflexivity;
    destruct (tick_counters d) as [d' u]; reflexivity.
Qed.

(** X6.  The state machine does not look at the weights.  Loading a
    weight vector commutes with any number of clock ticks: the ticks
    throw the same exception or reach the same cursor, counters and
    weight index whether the weights are loaded before or after, and no
    tick changes the weight vector.  The current weight after the ticks
    is therefore the element of the loaded vector at the weight index
    the ticks have reached, and is out of the vector whenever that index
    is. *)
Theorem loadWeights_commutes (n : nat) (ws : list Z) (pe : PE.t) :
  run n (loadWeights ws pe)
  = match run n pe with
    | Ok pe' => Ok (loadWeights ws pe')
    | Throw e => Throw e
    end
  /\ forall pe' : PE.t,
      run n pe = Ok pe' ->
      weights pe' = weights pe
      /\ currentWeight (loadWeights ws pe')
         = (if weight_idx pe' <? 0 then None
            else ws !! Z.to_nat (weight_idx pe')).
Proof.
  split.
  - revert pe. induction n as [|n IH]; intros pe; [reflexivity|].
    cbn [run]. rewrite updateState_loadWeights.
    destruct (updateState pe) as [pe1|e]; [apply IH|reflexivity].
  - revert pe. induction n as [|n IH]; intros pe pe' Hrun.
    + injection Hrun as <-. split; reflexivity.
    + cbn [run] in Hrun.
      destruct (updateState pe) as [pe1|e] eqn:Hstep; [|discriminate].
      destruct (IH pe1 pe' Hrun) as [Hw Hcur]. split; [|exact Hcur].
      rewrite Hw. clear - Hstep.
      destruct pe as [pg prog i ws0 w]. unfold updateState in Hstep.
      cbn [programmed program prog_idx weights weight_idx] in *.
      destruct pg; [|discriminate].
      destruct (prog !! i) as [d|]; [|discriminate].
      destruct (state d); try discriminate;
        try (destruct (tick_counters d) as [d' u]);
        injection Hstep as <-; reflexivity.
Qed.

Lemma run_programmed (n : nat) (pe : PE.t) :
  programmed pe = true ->
  run n pe <> Throw not_programmed
  /\ forall pe' : PE.t, run n pe = Ok pe' -> programmed pe' = true.
Proof.
  revert pe. induction n as [|n IH]; intros pe Hp.
  - split; [discriminate|]. intros pe' H. injection H as <-. exact Hp.
  - cbn [run].
    destruct (updateState pe) as [pe1|e] eqn:Hstep.
    + apply IH. clear - Hstep Hp.
      destruct pe as [pg prog i ws0 w]. unfold updateState in Hstep.
      cbn [programmed program prog_idx weights weight_idx] in *. subst pg.
      destruct (prog !! i) as [d|]; [|discriminate].
      destruct (state d); try discriminate;
        try (destruct (tick_counters d) as [d' u]);
        injection Hstep as <-; reflexivity.
    + split; [|discriminate]. intros Heq. injection Heq as ->.
      unfold updateState in Hstep. rewrite Hp in Hstep.
      destruct (program pe !! prog_idx pe) as [d|]; [|discriminate].
      destruct (state d); try discriminate;
        destruct (tick_counters d) as [d' u]; discriminate.
Qed.

(** X7.  Programming is lost only by [reset].  After [reset] every clock tick throws the not-programmed exception
    and the weight vector is empty, so that [currentWeight] reads
    outside it.  After [loadProgram] the cursor is at descriptor 0, and
    however many ticks follow, the not-programmed exception never
    occurs again and the module stays programmed; [loadProgram] keeps
    the weights and the weight index as they are. *)
Theorem programmed_until_reset (n : nat) (prog : list Descriptor_2D)
        (pe : PE.t) :
  run (S n) (reset pe) = Throw not_programmed
  /\ currentWeight (reset pe) = None
  /\ run n (loadProgram prog pe) <> Throw not_programmed
  /\ (forall pe' : PE.t,
        run n (loadProgram prog pe) = Ok pe' -> programmed pe' = true)
  /\ current (loadProgram prog pe) = prog !! 0%nat
  /\ currentWeight (loadProgram prog pe) = currentWeight pe.
Proof.
  split; [reflexivity|]. split; [reflexivity|].
  destruct (run_programmed n (loadProgram prog pe) eq_refl) as [Hno Hkeep].
  split; [exact Hno|]. split; [exact Hkeep|]. split; reflexivity.
Qed.

End PE_coverage.


(** ** The stream packetizer: construction, set-up delay, capacity *)

Section Sig2Sock_coverage.

Import Sig2Sock.

(** X8.  [bitsToBytes] rounds up to whole bytes, and the constructor
    accepts exactly the widths for which nothing is rounded: for an
    unsigned [bits], [bitsToBytes bits] is the least byte count that
    holds them; the constructor throws when [bits] is not a multiple of
    8 and otherwise yields an empty queue, a word count of 0 and a
    pending set-up delay, and then [8 * bitsToBytes bits = bits]. *)
Theorem bitsToBytes_rounds_up (bits maxW : Z) (ready0 : bool) :
  0 <= bits ->
  (bits <= 8 * bitsToBytes bits < bits + 8)
  /\ (bits mod 8 <> 0 -> make bits maxW ready0 = inl unaligned_width)
  /\ (bits mod 8 = 0 ->
      make bits maxW ready0 = inr (mkS2S [] 0 maxW 1 ready0)
      /\ 8 * bitsToBytes bits = bits).
Proof.
  intros Hpos. unfold bitsToBytes, make.
  pose proof (Z.div_mod bits 8 ltac:(lia)) as Hdm.
  pose proof (Z.mod_pos_bound bits 8 ltac:(lia)) as Hm.
  destruct (Z.eqb_spec (bits mod 8) 0) as [H0|H0]; simpl negb; cbv iota.
  - split; [lia|]. split; [contradiction|]. intros _. split; [reflexivity|lia].
  - split; [lia|]. split; [reflexivity|]. contradiction.
Qed.

Lemma bitsToBytes_rounds_up_witness :
  (12 <= 8 * bitsToBytes 12 < 12 + 8)
  /\ make 12 4 false = inl unaligned_width
  /\ make 32 4 false = inr (mkS2S [] 0 4 1 false)
  /\ 8 * bitsToBytes 32 = 32.
Proof.
  destruct (bitsToBytes_rounds_up 12 4 false ltac:(lia)) as (H1 & H2 & _).
  destruct (bitsToBytes_rounds_up 32 4 false ltac:(lia)) as (_ & _ & H3).
  split; [exact H1|]. split; [apply H2; discriminate|].
  apply H3. reflexivity.
Defined.

Lemma pop_words_length (n nbytes : nat) (buf data buf' : list Z) :
  pop_words n nbytes buf = Some (data, buf') ->
  buf' = drop n buf
  /\ data = mbind (M := list) (le_bytes nbytes) (take n buf)
  /\ (n <= length buf)%nat.
Proof.
  intros H. destruct (le_lt_dec n (length buf)) as [Hle|Hlt].
  - rewrite pop_words_enough in H by exact Hle. injection H as <- <-. auto.
  - rewrite pop_words_short in H by exact Hlt. discriminate.
Qed.

(** What a flush that completes does to the queue: nothing when it
    sends nothing; otherwise it sends the bytes of the first
    [packetLength] words and removes exactly those. *)
Lemma flushBuffer_queue (W : Z) (i : inputs) (s s' : t)
      (sent : option (list Z)) :
  flushBuffer W i s = Done s' sent ->
  match sent with
  | None => buffer s' = buffer s
  | Some data =>
      data = mbind (M := list) (le_bytes (Z.to_nat (bitsToBytes W)))
                   (take (Z.to_nat (packetLength i)) (buffer s))
      /\ buffer s' = drop (Z.to_nat (packetLength i)) (buffer s)
  end.
Proof.
  unfold flushBuffer.
  destruct (negb (packetLength i =? 0) && _).
  - destruct (negb (bitsToBytes W <=? 8)); [discriminate|].
    destruct (pop_words _ _ _) as [[d b]|] eqn:Hpop; [|discriminate].
    destruct (response_ok i); [|discriminate].
    intros [= <- <-]. simpl.
    apply pop_words_length in Hpop as (-> & -> & _). auto.
  - intros [= <- <-]. reflexivity.
Qed.

(** X9.  The set-up delay.  After a falling edge of valid, the first
    clock edge that finds valid high and room in the word count is used
    up: it samples nothing, sends nothing even if a whole packet is
    queued, and leaves the queue, the word count and the ready output as
    they were; only the delay is cleared.  The next such edge pushes its
    word at the back of the queue and counts it, and the flush of that
    edge works on the queue with the word in it; with packet length 0
    the two edges leave the old queue followed by the word of the second
    edge alone.  A clock edge with valid low leaves the delay
    pending. *)
Theorem setup_edge_is_skipped (W : Z) (i1 i2 : inputs) (s : t) :
  peripheralValid i1 = true ->
  peripheralValid i2 = true ->
  currentWords s < maxWords s ->
  updateInput W i1 (resetSetupTime s) = Done (set_setupTime s 0) None
  /\ sampled W [ValidFall; Clk i1; Clk i2] s = [inputSig i2]
  /\ (forall (i0 : inputs) (s' : t) (sent : option (list Z)),
         peripheralValid i0 = false ->
         updateInput W i0 (resetSetupTime s) = Done s' sent ->
         setupTime s' = 1)
  /\ (forall (s2 : t) (sent : option (list Z)),
         updateInput W i2 (set_setupTime s 0) = Done s2 sent ->
         currentWords s2 = wrapu 64 (currentWords s + 1)
         /\ setupTime s2 = 0
         /\ match sent with
            | None => buffer s2 = buffer s ++ [inputSig i2]
            | Some data =>
                data = mbind (M := list)
                             (le_bytes (Z.to_nat (bitsToBytes W)))
                             (take (Z.to_nat (packetLength i2))
                                   (buffer s ++ [inputSig i2]))
                /\ buffer s2 = drop (Z.to_nat (packetLength i2))
                                    (buffer s ++ [inputSig i2])
            end)
  /\ (packetLength i2 = 0 ->
      run W [ValidFall; Clk i1; Clk i2] s
      = inr (mkS2S (buffer s ++ [inputSig i2])
                   (wrapu 64 (currentWords s + 1)) (maxWords s) 0
                   (wrapu 64 (currentWords s + 1) <? maxWords s), [])).
Proof.
  intros Hv1 Hv2 Hroom.
  assert (Hlt : (currentWords s <? maxWords s) = true)
    by (apply Z.ltb_lt; exact Hroom).
  assert (Hstep : updateInput W i1 (resetSetupTime s)
                  = Done (set_setupTime s 0) None).
  { unfold updateInput, resetSetupTime. simpl. rewrite Hv1, Hlt. reflexivity. }
  assert (Hnext : updateInput W i2 (set_setupTime s 0)
                  = match flushBuffer W i2
                            (push_word (set_setupTime s 0) (inputSig i2)) with
                    | Done s' sent =>
                        Done (set_inputReady s'
                                (currentWords s' <? maxWords s')) sent
                    | Fault f => Fault f
                    end).
  { unfold updateInput. simpl. rewrite Hv2, Hlt. reflexivity. }
  split; [exact Hstep|]. split; [|split; [|split]].
  - simpl sampled. rewrite Hstep. simpl. rewrite Hv1, Hv2, Hlt. simpl.
    destruct (updateInput W i2 (set_setupTime s 0)); reflexivity.
  - intros i0 s' sent Hv0. unfold updateInput. rewrite Hv0. simpl andb.
    cbv iota.
    destruct (flushBuffer W i0 (resetSetupTime s)) as [s1 o|f] eqn:Hf;
      [|discriminate].
    apply flushBuffer_counters in Hf as (_ & _ & Hsetup).
    intros [= <- _]. simpl. exact Hsetup.
  - intros s2 sent. rewrite Hnext.
    destruct (flushBuffer W i2 (push_word (set_setupTime s 0) (inputSig i2)))
      as [s1 o|f] eqn:Hf; [|discriminate].
    intros [= <- <-].
    pose proof (flushBuffer_queue _ _ _ _ _ Hf) as Hq.
    apply flushBuffer_counters in Hf as (Hc & _ & Hsetup).
    cbn [currentWords setupTime buffer set_inputReady] in *.
    split; [exact Hc|]. split; [exact Hsetup|exact Hq].
  - intros HL. cbn [run]. rewrite Hstep, Hnext.
    unfold flushBuffer. rewrite HL. reflexivity.
Qed.

Lemma setup_edge_is_skipped_witness :
  let s := mkS2S [1; 2] 2 8 0 true in
  let edge := fun v => mkIn true v 2 true in
  updateInput 8 (edge 3) (resetSetupTime s) = Done s None
  /\ sampled 8 [ValidFall; Clk (edge 3); Clk (edge 4)] s = [4]
  /\ updateInput 8 (edge 4) s = Done (mkS2S [4] 3 8 0 true) (Some [1; 2])
  /\ currentWords (mkS2S [4] 3 8 0 true) = wrapu 64 (2 + 1)
  /\ [1; 2] = mbind (M := list) (le_bytes (Z.to_nat (bitsToBytes 8)))
                    (take (Z.to_nat 2) ([1; 2] ++ [4]))
  /\ buffer (mkS2S [4] 3 8 0 true) = drop (Z.to_nat 2) ([1; 2] ++ [4]).
Proof.
  intros s edge.
  destruct (setup_edge_is_skipped 8 (edge 3) (edge 4) s eq_refl eq_refl
              ltac:(simpl; lia)) as (H1 & H2 & _ & H4 & _).
  assert (Hrun : updateInput 8 (edge 4) s
                 = Done (mkS2S [4] 3 8 0 true) (Some [1; 2]))
    by reflexivity.
  destruct (H4 _ _ Hrun) as (Hc & _ & Hd & Hb).
  split; [exact H1|]. split; [exact H2|]. split; [exact Hrun|].
  split; [exact Hc|]. split; [exact Hd|exact Hb].
Defined.

(** A flush never lengthens the queue. *)
Lemma flushBuffer_shrinks (W : Z) (i : inputs) (s s' : t)
      (sent : option (list Z)) :
  flushBuffer W i s = Done s' sent ->
  (length (buffer s') <= length (buffer s))%nat.
Proof.
  unfold flushBuffer.
  destruct (negb (packetLength i =? 0) && _).
  - destruct (negb (bitsToBytes W <=? 8)); [discriminate|].
    destruct (pop_words _ _ _) as [[d b]|] eqn:Hpop; [|discriminate].
    destruct (response_ok i); [|discriminate].
    intros [= <- _]. simpl.
    apply pop_words_length in Hpop as (-> & _ & _).
    rewrite length_drop. lia.
  - intros [= <- _]. lia.
Qed.

(** One clock edge and the word count. *)
Lemma updateInput_count (W : Z) (i : inputs) (s s' : t)
      (sent : option (list Z)) :
  Z.of_nat (length (buffer s)) <= currentWords s <= maxWords s ->
  maxWords s < 2 ^ 64 ->
  updateInput W i s = Done s' sent ->
  maxWords s' = maxWords s
  /\ Z.of_nat (length (buffer s')) <= currentWords s' <= maxWords s'
  /\ currentWords s' =
       currentWords s
       + Z.of_nat (length (if peripheralValid i
                              && (currentWords s <? maxWords s)
                              && (setupTime s =? 0)
                           then [inputSig i] else [])).
Proof.
  intros Hinv Hmax. unfold updateInput.
  destruct (peripheralValid i && (currentWords s <? maxWords s)) eqn:Hgo;
    simpl andb.
  - apply andb_true_iff in Hgo as [_ Hlt]. apply Z.ltb_lt in Hlt.
    destruct (setupTime s =? 0); simpl negb; cbv iota.
    + destruct (flushBuffer W i (push_word s (inputSig i))) as [s1 o|f] eqn:Hf;
        [|discriminate].
      pose proof (flushBuffer_shrinks _ _ _ _ _ Hf) as Hlen.
      apply flushBuffer_counters in Hf as (Hc & Hm & _).
      intros [= <- _]. simpl in *. rewrite Hc, Hm.
      rewrite wrapu_id by lia. rewrite length_app in Hlen. simpl in Hlen.
      repeat split; lia.
    + intros [= <- _]. simpl. repeat split; lia.
  - destruct (flushBuffer W i s) as [s1 o|f] eqn:Hf; [|discriminate].
    pose proof (flushBuffer_shrinks _ _ _ _ _ Hf) as Hlen.
    apply flushBuffer_counters in Hf as (Hc & Hm & _).
    intros [= <- _]. simpl in *. rewrite Hc, Hm. repeat split; lia.
Qed.

(** X10.  Capacity.  Along any run that does not fault, started with the
    queue no longer than the word count and the word count within the
    limit, the queue never holds more words than [currentWords], which
    never exceeds [maxWords]; and [currentWords] has grown by exactly
    the number of words sampled.  So the module samples at most
    [maxWords] words over its whole life. *)
Theorem capacity_bound (W : Z) (evs : list event) :
  forall (s s' : t) (ps : list (list Z)),
    Z.of_nat (length (buffer s)) <= currentWords s <= maxWords s ->
    maxWords s < 2 ^ 64 ->
    run W evs s = inr (s', ps) ->
    maxWords s' = maxWords s
    /\ Z.of_nat (length (buffer s')) <= currentWords s' <= maxWords s
    /\ currentWords s' = currentWords s + Z.of_nat (length (sampled W evs s)).
Proof.
  induction evs as [|e evs IH]; intros s s' ps Hinv Hmax.
  - simpl. intros [= <- _]. repeat split; lia.
  - destruct e as [i|]; simpl run; simpl sampled.
    + destruct (updateInput W i s) as [s1 sent|f] eqn:Hstep; [|discriminate].
      destruct (updateInput_count W i s s1 sent Hinv Hmax Hstep)
        as (Hm1 & Hinv1 & Hc1).
      destruct (run W evs s1) as [f|[s2 ps2]] eqn:Hrun; [discriminate|].
      intros [= <- _].
      destruct (IH s1 s2 ps2) as (Hm2 & Hinv2 & Hc2);
        [exact Hinv1|lia|exact Hrun|].
      rewrite length_app, Nat2Z.inj_add. repeat split; lia.
    + intros Hrun. apply (IH (resetSetupTime s) s' ps); assumption.
Qed.

Lemma capacity_bound_witness :
  let s0 := mkS2S [] 0 2 1 true in
  let edge := fun v => Clk (mkIn true v 0 true) in
  let evs := [edge 0; edge 17; edge 34; edge 51; edge 68] in
  run 8 evs s0 = inr (mkS2S [17; 34] 2 2 0 false, [])
  /\ sampled 8 evs s0 = [17; 34]
  /\ currentWords (mkS2S [17; 34] 2 2 0 false)
     = 0 + Z.of_nat (length (sampled 8 evs s0)).
Proof.
  intros s0 edge evs.
  assert (Hrun : run 8 evs s0 = inr (mkS2S [17; 34] 2 2 0 false, []))
    by reflexivity.
  split; [exact Hrun|]. split; [reflexivity|].
  apply (capacity_bound 8 evs s0 _ [] ltac:(simpl; lia) ltac:(simpl; lia) Hrun).
Defined.


(** X11.  Packet length 0 switches flushing off.  While the packet-length
    signal reads 0 on every clock edge, the module at any bus width never
    writes to the socket and never faults, and the queue is what it was
    followed by the sampled words. *)
Theorem zero_length_never_sends (W : Z) (evs : list event) :
  Forall (fun e => match e with
                   | Clk i => packetLength i = 0
                   | ValidFall => True
                   end) evs ->
  forall s : t,
    exists s' : t,
      run W evs s = inr (s', [])
      /\ buffer s' = buffer s ++ sampled W evs s.
Proof.
  induction 1 as [|e evs He _ IH]; intros s.
  - exists s. simpl. rewrite app_nil_r. auto.
  - destruct e as [i|]; simpl run; simpl sampled.
    + assert (Hflush : forall s0, flushBuffer W i s0 = Done s0 None).
      { intros s0. unfold flushBuffer. rewrite He. reflexivity. }
      unfold updateInput. rewrite !Hflush.
      destruct (peripheralValid i && (currentWords s <? maxWords s));
        simpl andb; [destruct (setupTime s =? 0); simpl negb; cbv iota|].
      * destruct (IH (set_inputReady (push_word s (inputSig i))
                        (currentWords (push_word s (inputSig i))
                         <? maxWords (push_word s (inputSig i)))))
          as (s' & Hrun & Hbuf).
        exists s'. rewrite Hrun. split; [reflexivity|].
        rewrite Hbuf. simpl. rewrite <- app_assoc. reflexivity.
      * destruct (IH (set_setupTime s (setupTime s - 1)))
          as (s' & Hrun & Hbuf).
        exists s'. rewrite Hrun. split; [reflexivity|]. exact Hbuf.
      * destruct (IH (set_inputReady s (currentWords s <? maxWords s)))
          as (s' & Hrun & Hbuf).
        exists s'. rewrite Hrun. split; [reflexivity|]. exact Hbuf.
    + destruct (IH (resetSetupTime s)) as (s' & Hrun & Hbuf).
      exists s'. split; [exact Hrun|exact Hbuf].
Qed.

Lemma zero_length_never_sends_witness :
  let edge := fun v => Clk (mkIn true v 0 true) in
  exists s' : t,
    run 32 [edge 0; edge 5; ValidFall; edge 6; edge 7] (mkS2S [] 0 16 1 true)
    = inr (s', [])
    /\ buffer s'
       = [] ++ sampled 32 [edge 0; edge 5; ValidFall; edge 6; edge 7]
                 (mkS2S [] 0 16 1 true).
Proof.
  intros edge.
  apply (zero_length_never_sends 32
           [edge 0; edge 5; ValidFall; edge 6; edge 7]).
  repeat constructor.
Defined.

Lemma length_bind_le_bytes (nbytes : nat) (ws : list Z) :
  length (mbind (M := list) (le_bytes nbytes) ws) = (length ws * nbytes)%nat.
Proof.
  induction ws as [|w ws IH]; [reflexivity|].
  change (mbind (M := list) (le_bytes nbytes) (w :: ws))
    with (le_bytes nbytes w ++ mbind (M := list) (le_bytes nbytes) ws).
  rewrite length_app, length_le_bytes, IH. simpl. lia.
Qed.

(** X12.  The four ways a flush can go, at any bus width of at most 64
    bits and any packet length [L >= 0].  It does nothing when [L] is 0
    or exceeds the queued byte count.  Otherwise it takes [L] words, not
    [L] bytes, off the queue: with at least [L] words queued and an ok
    response it removes exactly the first [L] words and sends their
    bytes in order, [L * bitsToBytes] bytes in all; with a response that
    is not ok it throws the write failure; with fewer than [L] words
    queued it runs into the empty queue. *)
Theorem flushBuffer_cases (W : Z) (i : inputs) (s : t) :
  0 <= packetLength i ->
  bitsToBytes W <= 8 ->
  let L := packetLength i in
  let words := Z.of_nat (length (buffer s)) in
  let queued := wrapu 64 (words * bitsToBytes W) in
  let nbytes := Z.to_nat (bitsToBytes W) in
  (L = 0 \/ queued < L -> flushBuffer W i s = Done s None)
  /\ (L <> 0 -> L <= queued -> L <= words -> response_ok i = true ->
      flushBuffer W i s =
        Done (set_buffer s (drop (Z.to_nat L) (buffer s)))
             (Some (mbind (M := list) (le_bytes nbytes)
                          (take (Z.to_nat L) (buffer s))))
      /\ length (mbind (M := list) (le_bytes nbytes)
                       (take (Z.to_nat L) (buffer s)))
         = (Z.to_nat L * nbytes)%nat)
  /\ (L <> 0 -> L <= queued -> L <= words -> response_ok i = false ->
      flushBuffer W i s = Fault write_failed)
  /\ (L <> 0 -> L <= queued -> words < L ->
      flushBuffer W i s = Fault empty_queue_access).
Proof.
  intros HL HW L words queued nbytes. subst L words queued nbytes.
  unfold flushBuffer.
  replace (bitsToBytes W <=? 8) with true by (symmetry; apply Z.leb_le; lia).
  simpl negb.
  destruct (Z.eqb_spec (packetLength i) 0) as [H0|H0]; simpl negb; simpl andb.
  - split; [reflexivity|]. repeat split; contradiction.
  - destruct (wrapu 64 (Z.of_nat (length (buffer s)) * bitsToBytes W)
              >=? packetLength i) eqn:Hge; cbv iota.
    + apply Z.geb_le in Hge.
      split; [intros [H|H]; [contradiction|lia]|].
      split; [|split].
      * intros _ _ Hw Hok. rewrite pop_words_enough by lia. rewrite Hok.
        split; [reflexivity|].
        rewrite length_bind_le_bytes, length_take. f_equal. lia.
      * intros _ _ Hw Hok. rewrite pop_words_enough by lia. rewrite Hok.
        reflexivity.
      * intros _ _ Hw. rewrite pop_words_short by lia. reflexivity.
    + rewrite Z.geb_leb in Hge. apply Z.leb_gt in Hge.
      split; [reflexivity|]. repeat split; intros; lia.
Qed.

Lemma flushBuffer_cases_witness :
  let i := mkIn true 0 2 true in
  let s := mkS2S [67305985; 134678021; 9] 3 16 0 true in
  flushBuffer 32 i s
  = Done (set_buffer s [9]) (Some [1; 2; 3; 4; 5; 6; 7; 8])
  /\ flushBuffer 32 (mkIn true 0 2 false) s = Fault write_failed
  /\ flushBuffer 32 (mkIn true 0 20 true) s = Done s None
  /\ flushBuffer 32 (mkIn true 0 8 true) s = Fault empty_queue_access.
Proof.
  intros i s.
  assert (HW : bitsToBytes 32 <= 8) by (vm_compute; discriminate).
  split; [|split; [|split]].
  - apply (proj1 (proj2 (flushBuffer_cases 32 i s ltac:(simpl; lia) HW)));
      [discriminate|vm_compute; discriminate|simpl; lia|reflexivity].
  - apply (proj1 (proj2 (proj2 (flushBuffer_cases 32 (mkIn true 0 2 false) s
                                  ltac:(simpl; lia) HW))));
      [discriminate|vm_compute; discriminate|simpl; lia|reflexivity].
  - apply (proj1 (flushBuffer_cases 32 (mkIn true 0 20 true) s
                    ltac:(simpl; lia) HW)).
    right. vm_compute. reflexivity.
  - apply (proj2 (proj2 (proj2 (flushBuffer_cases 32 (mkIn true 0 8 true) s
                                  ltac:(simpl; lia) HW))));
      [discriminate|vm_compute; discriminate|simpl; lia].
Defined.

(** X13.  Byte-accurate framing at bus width 8.  From construction, over
    any sequence of clock edges and falling edges of valid with a
    constant packet length [L] and a target that accepts every write,
    the module at width 8 never faults, writes only packets of exactly
    [L] bytes, as many as the sampled bytes divided by [L] rounded down,
    and the packets together are a prefix of the sampled bytes in
    sampling order. *)
Theorem width8_framing_from_construction (L maxW : Z) (ready0 : bool)
        (evs : list event) :
  0 < L < 2 ^ 64 ->
  steady L evs ->
  exists (s0 s' : t) (ps : list (list Z)),
    make 8 maxW ready0 = inr s0
    /\ run 8 evs s0 = inr (s', ps)
    /\ Forall (fun p => Z.of_nat (length p) = L) ps
    /\ Z.of_nat (length ps)
       = Z.of_nat (length (sampled 8 evs s0)) * bitsToBytes 8 / L
    /\ (exists rest, bytes8 (sampled 8 evs s0) = concat ps ++ rest)
    /\ Z.of_nat (length (buffer s')) < L.
Proof.
  intros HL Hsteady.
  exists (mkS2S [] 0 maxW 1 ready0).
  destruct (width8_framing L evs HL Hsteady (mkS2S [] 0 maxW 1 ready0))
    as (s' & ps & Hrun & Hall & Hcat & Hlt); [simpl; lia|].
  exists s', ps. split; [reflexivity|]. split; [exact Hrun|].
  split; [exact Hall|]. simpl buffer in Hcat. simpl app in Hcat.
  split; [|split; [exists (bytes8 (buffer s')); symmetry; exact Hcat
                  |exact Hlt]].
  rewrite bitsToBytes_8, Z.mul_1_r.
  assert (Hn : Z.of_nat (length (sampled 8 evs (mkS2S [] 0 maxW 1 ready0)))
               = Z.of_nat (length ps) * L + Z.of_nat (length (buffer s'))).
  { rewrite <- (length_bytes8 (sampled _ _ _)), <- Hcat, length_app,
      length_bytes8, Nat2Z.inj_add, (length_concat_uniform L) by exact Hall.
    reflexivity. }
  rewrite Hn.
  apply Z.div_unique with (r := Z.of_nat (length (buffer s'))); lia.
Qed.

Lemma width8_framing_from_construction_witness :
  let edge := fun v => Clk (mkIn true v 2 true) in
  exists (s0 s' : t) (ps : list (list Z)),
    make 8 16 true = inr s0
    /\ run 8 [edge 0; edge 1; edge 2; edge 3] s0 = inr (s', ps)
    /\ Forall (fun p => Z.of_nat (length p) = 2) ps
    /\ Z.of_nat (length ps)
       = Z.of_nat (length (sampled 8 [edge 0; edge 1; edge 2; edge 3] s0))
         * bitsToBytes 8 / 2
    /\ (exists rest,
          bytes8 (sampled 8 [edge 0; edge 1; edge 2; edge 3] s0)
          = concat ps ++ rest)
    /\ Z.of_nat (length (buffer s')) < 2.
Proof.
  intros edge.
  apply (width8_framing_from_construction 2 16 true
           [edge 0; edge 1; edge 2; edge 3]); [lia|].
  repeat constructor.
Defined.

End Sig2Sock_coverage.

(** *** The DMA tester: register contents, regions, read-back *)

Section DMATester_coverage.

Import DMATester.

Variable rm : RegisterMap.
Variable target : list action -> payload -> response.

Ltac exec :=
  cbv [mbind M_bind mret M_ret get modify throw emit b_transport wait notify
       print trans_reset set_command set_read set_write set_address
       set_data_ptr set_data_length set_streaming_width set_response_status
       with_trans with_log with_triggered with_testData with_mm2sOffset
       with_s2mmOffset
       burstMode mm2sOffset s2mmOffset testData trans dataLoaded_triggered log
       command address data data_length streaming_width response_status].

Ltac fields :=
  cbn [burstMode mm2sOffset s2mmOffset testData trans dataLoaded_triggered log].

Ltac fields_in H :=
  cbn [burstMode mm2sOffset s2mmOffset testData trans dataLoaded_triggered log]
    in H.

Lemma of_le_bytes_le_bytes (n : nat) (v : Z) :
  of_le_bytes (le_bytes n v) = v mod 256 ^ Z.of_nat n.
Proof.
  revert v. induction n as [|n IH]; intros v.
  - simpl. rewrite Z.mod_1_r. reflexivity.
  - cbn [le_bytes of_le_bytes]. rewrite IH, Z.mod_mod by lia.
    rewrite Nat2Z.inj_succ, Z.pow_succ_r by lia.
    rewrite Z.rem_mul_r by lia. reflexivity.
Qed.

Lemma of_le_bytes_range (bs : list Z) :
  0 <= of_le_bytes bs < 256 ^ Z.of_nat (length bs).
Proof.
  induction bs as [|b bs IH]; [simpl; lia|].
  cbn [of_le_bytes length]. rewrite Nat2Z.inj_succ, Z.pow_succ_r by lia.
  pose proof (Z.mod_pos_bound b 256 ltac:(lia)). nia.
Qed.

Lemma of_le_bytes_word (v : Z) :
  0 <= v < 2 ^ 32 -> of_le_bytes (le_bytes 4 v) = v.
Proof.
  intros Hv. rewrite of_le_bytes_le_bytes.
  change (256 ^ Z.of_nat 4) with (2 ^ 32). apply Z.mod_small. exact Hv.
Qed.

(** The two shifts of [sendDMAReq] cut a 64-bit address into its low and
    high words. *)
Lemma split_address (a : Z) :
  0 <= a < 2 ^ 64 ->
  wrapu 32 (Z.shiftr (wrapu 64 (Z.shiftl a 32)) 32) = a mod 2 ^ 32
  /\ wrapu 32 (Z.shiftr a 32) = a / 2 ^ 32.
Proof.
  intros Ha. unfold wrapu.
  rewrite Z.shiftl_mul_pow2, !Z.shiftr_div_pow2 by lia.
  change (2 ^ 64) with (2 ^ 32 * 2 ^ 32) in *.
  rewrite Z.mul_mod_distr_r by lia.
  rewrite Z.div_mul by lia. rewrite Z.mod_mod by lia.
  split; [reflexivity|].
  apply Z.mod_small. split; [apply Z.div_pos; lia|].
  apply Z.div_lt_upper_bound; lia.
Qed.

Lemma wrapu_range (w z : Z) : 0 <= w -> 0 <= wrapu w z < 2 ^ w.
Proof. intros Hw. unfold wrapu. apply Z.mod_pos_bound. apply Z.pow_pos_nonneg; lia. Qed.

(** The three transactions of a transfer request, with their contents. *)
Lemma sendDMAReq_payloads (s2mm : bool) (w : World) :
  let index := if s2mm
               then wrapu 64 (Z.of_nat (length (testData w)) + s2mmOffset w)
               else mm2sOffset w in
  let dataAddress :=
    wrapu 64 (MEM_BASE_ADDR rm + wrapu 64 (index * sizeof_float)) in
  exists (p1 p2 p3 : payload) (r1 r2 r3 : response),
    log (snd (sendDMAReq rm target s2mm w))
    = log w ++ [Transport p1 r1; Transport p2 r2; Transport p3 r3]
    /\ (command p1 = TLM_WRITE_COMMAND /\ command p2 = TLM_WRITE_COMMAND
        /\ command p3 = TLM_WRITE_COMMAND)
    /\ (address p1 = (if s2mm then S2MM_ADDR_REG rm 0 else MM2S_ADDR_REG rm 0)
        /\ address p2 = (if s2mm then S2MM_ADDR_MSB_REG rm 0
                         else MM2S_ADDR_MSB_REG rm 0)
        /\ address p3 = (if s2mm then S2MM_LENGTH_REG rm 0
                         else MM2S_LENGTH_REG rm 0))
    /\ (data_length p1 = 4 /\ data_length p2 = 4 /\ data_length p3 = 4)
    /\ data p1 = le_bytes 4 (wrapu 32 (Z.shiftr
                                         (wrapu 64 (Z.shiftl dataAddress 32))
                                         32))
    /\ data p2 = le_bytes 4 (wrapu 32 (Z.shiftr dataAddress 32))
    /\ data p3 = le_bytes 4 (request_size w).
Proof.
  destruct w as [bm mo so td p trig lg]. cbv zeta.
  unfold sendDMAReq, request_size. exec.
  destruct s2mm; cbv [snd]; fields; rewrite <- !app_assoc;
    (eexists _, _, _, _, _, _; split; [reflexivity|]; repeat split).
Qed.

(** X14.  What a transfer request tells the DMA.  [sendDMAReq] issues
    exactly three write transactions of four bytes each, to the address,
    address-MSB and length registers of its direction, in this order.
    The low and the high word recombine to the 64-bit data address
    [MEM_BASE_ADDR + index * 4] (wrapped to 64 bits), where the index is
    the MM2S offset, or the vector length plus the S2MM offset; the
    length word is the request size: 4 bytes, or the whole vector in
    burst mode. *)
Theorem request_registers (s2mm : bool) (w : World) :
  let index := if s2mm
               then wrapu 64 (Z.of_nat (length (testData w)) + s2mmOffset w)
               else mm2sOffset w in
  let dataAddress :=
    wrapu 64 (MEM_BASE_ADDR rm + wrapu 64 (index * sizeof_float)) in
  exists (p1 p2 p3 : payload) (r1 r2 r3 : response),
    log (snd (sendDMAReq rm target s2mm w))
    = log w ++ [Transport p1 r1; Transport p2 r2; Transport p3 r3]
    /\ observe <$> [Transport p1 r1; Transport p2 r2; Transport p3 r3]
       = (if s2mm
          then [writes (S2MM_ADDR_REG rm 0); writes (S2MM_ADDR_MSB_REG rm 0);
                writes (S2MM_LENGTH_REG rm 0)]
          else [writes (MM2S_ADDR_REG rm 0); writes (MM2S_ADDR_MSB_REG rm 0);
                writes (MM2S_LENGTH_REG rm 0)])
    /\ (data_length p1 = 4 /\ data_length p2 = 4 /\ data_length p3 = 4)
    /\ (length (data p1) = 4%nat /\ length (data p2) = 4%nat
        /\ length (data p3) = 4%nat)
    /\ of_le_bytes (data p1) = dataAddress mod 2 ^ 32
    /\ of_le_bytes (data p2) = dataAddress / 2 ^ 32
    /\ requested_address p1 p2 = dataAddress
    /\ requested_length p3 = request_size w.
Proof.
  intros index dataAddress.
  destruct (sendDMAReq_payloads s2mm w)
    as (p1 & p2 & p3 & r1 & r2 & r3 & Hlog & (Hc1 & Hc2 & Hc3)
        & (Ha1 & Ha2 & Ha3) & Hlen & Hd1 & Hd2 & Hd3).
  fold index in Hd1, Hd2. fold dataAddress in Hd1, Hd2.
  assert (Hrange : 0 <= dataAddress < 2 ^ 64)
    by (apply wrapu_range; lia).
  destruct (split_address dataAddress Hrange) as [Hlsb Hmsb].
  assert (H1 : of_le_bytes (data p1) = dataAddress mod 2 ^ 32).
  { rewrite Hd1, Hlsb. apply of_le_bytes_word.
    apply Z.mod_pos_bound. lia. }
  assert (H2 : of_le_bytes (data p2) = dataAddress / 2 ^ 32).
  { rewrite Hd2, Hmsb. apply of_le_bytes_word.
    split; [apply Z.div_pos; lia|apply Z.div_lt_upper_bound; lia]. }
  exists p1, p2, p3, r1, r2, r3.
  split; [exact Hlog|]. split.
  { cbn [fmap list_fmap observe]. rewrite Hc1, Hc2, Hc3, Ha1, Ha2, Ha3.
    destruct s2mm; reflexivity. }
  split; [exact Hlen|].
  split; [rewrite Hd1, Hd2, Hd3, !length_le_bytes; auto|].
  split; [exact H1|]. split; [exact H2|]. split.
  - unfold requested_address. rewrite H1, H2.
    rewrite (Z.div_mod dataAddress (2 ^ 32)) at 3 by lia. lia.
  - unfold requested_length. rewrite Hd3. apply of_le_bytes_word.
    unfold request_size, sizeof_float.
    destruct (burstMode w); [apply wrapu_range; lia|lia].
Qed.


(** X15.  Requests stay inside their memory regions.  With the 80 bytes
    from [MEM_BASE_ADDR] inside the 64-bit address space: in every state
    that the two processes can reach, under any scheduling and any
    target, a request that passes the loop guard (offset below the
    vector length) names an address computed without wrap-around,
    [MEM_BASE_ADDR + 4 * offset] for MM2S and
    [MEM_BASE_ADDR + 40 + 4 * offset] for S2MM, and a length of 4 bytes,
    or 40 in burst mode; the transfer lies inside the 40 bytes of the
    loaded vector for MM2S and inside the 40 bytes after them, which the
    read-back reads, for S2MM. *)
Theorem requests_stay_in_region (burst : bool) (s : system) (s2mm : bool) :
  0 <= MEM_BASE_ADDR rm ->
  MEM_BASE_ADDR rm + 80 <= 2 ^ 64 ->
  rtc (step rm target) (boot burst) s ->
  let w := world s in
  let o := if s2mm then s2mmOffset w else mm2sOffset w in
  o < Z.of_nat (length (testData w)) ->
  let lo := MEM_BASE_ADDR rm + (if s2mm then 40 else 0) in
  exists (p1 p2 p3 : payload) (r1 r2 r3 : response),
    log (snd (sendDMAReq rm target s2mm w))
    = log w ++ [Transport p1 r1; Transport p2 r2; Transport p3 r3]
    /\ requested_address p1 p2 = lo + 4 * o
    /\ requested_length p3 = (if burst then 40 else 4)
    /\ lo <= requested_address p1 p2
    /\ requested_address p1 p2 + requested_length p3 <= lo + 40.
Proof.
  intros Hmem0 Hmem1 Hreach w o Hguard lo.
  destruct (reachable_invariant rm target burst s Hreach)
    as [Hb Hd Hm Hs Hmb Hsb _ _ _ _].
  fold w in Hb, Hd, Hm, Hs, Hmb, Hsb.
  assert (Hlen : length (testData w) = 10%nat).
  { destruct (tr_before_data (tr s)); [|exact Hd].
    rewrite Hd in Hguard, Hm, Hs. simpl in Hguard, Hm, Hs.
    subst o. destruct s2mm; lia. }
  rewrite Hlen in Hguard, Hm, Hs, Hmb, Hsb.
  assert (Ho : 0 <= o < 10) by (subst o; destruct s2mm; lia).
  assert (Hob : burst = true -> o = 0).
  { intros Hbt. subst o.
    destruct s2mm; [destruct (Hsb Hbt)|destruct (Hmb Hbt)]; lia. }
  destruct (sendDMAReq_payloads s2mm w)
    as (p1 & p2 & p3 & r1 & r2 & r3 & Hlog & _ & _ & _ & Hd1 & Hd2 & Hd3).
  cbv zeta in Hd1, Hd2. rewrite Hlen in Hd1, Hd2.
  assert (Hidx : (if s2mm then wrapu 64 (Z.of_nat 10 + s2mmOffset w)
                  else mm2sOffset w)
                 = (if s2mm then 10 else 0) + o).
  { subst o. destruct s2mm; [apply wrapu_id|]; lia. }
  rewrite Hidx in Hd1, Hd2. unfold sizeof_float in Hd1, Hd2.
  rewrite (wrapu_id 64 (((if s2mm then 10 else 0) + o) * 4)) in Hd1, Hd2
    by (destruct s2mm; lia).
  assert (Haddr : MEM_BASE_ADDR rm + ((if s2mm then 10 else 0) + o) * 4
                  = lo + 4 * o) by (subst lo; destruct s2mm; lia).
  rewrite Haddr in Hd1, Hd2.
  assert (Hrange : 0 <= lo + 4 * o < 2 ^ 64)
    by (subst lo; destruct s2mm; lia).
  rewrite (wrapu_id 64 (lo + 4 * o)) in Hd1, Hd2 by exact Hrange.
  destruct (split_address (lo + 4 * o) Hrange) as [Hlsb Hmsb].
  rewrite Hlsb in Hd1. rewrite Hmsb in Hd2.
  assert (Ha : requested_address p1 p2 = lo + 4 * o).
  { unfold requested_address. rewrite Hd1, Hd2.
    rewrite !of_le_bytes_word.
    - rewrite (Z.div_mod (lo + 4 * o) (2 ^ 32)) at 3 by lia. lia.
    - split; [apply Z.div_pos; lia|apply Z.div_lt_upper_bound; lia].
    - apply Z.mod_pos_bound. lia. }
  assert (Hn : requested_length p3 = (if burst then 40 else 4)).
  { unfold requested_length. rewrite Hd3. unfold request_size.
    rewrite Hb, Hlen. destruct burst; vm_compute; reflexivity. }
  exists p1, p2, p3, r1, r2, r3.
  split; [exact Hlog|]. split; [exact Ha|]. split; [exact Hn|].
  rewrite Ha, Hn. split; [lia|].
  destruct burst; [rewrite (Hob eq_refl)|]; lia.
Qed.


Lemma lor_word (a b : Z) :
  0 <= a < 2 ^ 32 -> 0 <= b < 2 ^ 32 -> 0 <= Z.lor a b < 2 ^ 32.
Proof.
  intros Ha Hb.
  assert (Hnn : 0 <= Z.lor a b) by (apply Z.lor_nonneg; lia).
  split; [exact Hnn|].
  destruct (Z.eq_dec (Z.lor a b) 0) as [->|Hne]; [lia|].
  apply Z.log2_lt_pow2; [lia|].
  rewrite Z.log2_lor by lia.
  apply Z.max_lub_lt.
  - destruct (Z.eq_dec a 0) as [->|Ha0]; [simpl; lia|].
    apply Z.log2_lt_pow2; lia.
  - destruct (Z.eq_dec b 0) as [->|Hb0]; [simpl; lia|].
    apply Z.log2_lt_pow2; lia.
Qed.

Lemma length_fit (n : nat) (bs : list Z) : length (fit n bs) = n.
Proof.
  unfold fit. rewrite length_take, length_app, length_replicate. lia.
Qed.

Lemma fit_id (n : nat) (bs : list Z) : length bs = n -> fit n bs = bs.
Proof.
  intros <-. unfold fit. rewrite take_app_le by lia.
  apply take_ge. lia.
Qed.

Lemma fit_take (n : nat) (bs : list Z) :
  (n <= length bs)%nat -> fit n bs = take n bs.
Proof. intros H. unfold fit. apply take_app_le. exact H. Qed.

(** X16.  [enableIOC] is a read-modify-write of the control register.
    With an enable mask of 32 bits and a target that fills the whole
    word on a read of the control register: it issues one four-byte read
    and one four-byte write, both to the control register of the chosen
    direction and DMA instance; the word written is the word the target
    supplied or-ed with the mask, whatever the buffer held before the
    read, so every bit of the mask is set and every other bit is written
    back as it was read. *)
Theorem enableIOC_sets_enable_bit (s2mm : bool) (ii : Z) (w : World) :
  0 <= AXIDMA_CR_IOC_IRQ_EN rm < 2 ^ 32 ->
  let cr := if s2mm then S2MM_CR_REG rm ii else MM2S_CR_REG rm ii in
  fills_word target cr ->
  exists (p1 p2 : payload) (r1 r2 : response),
    log (snd (enableIOC rm target s2mm ii w))
    = log w ++ [Transport p1 r1; Transport p2 r2]
    /\ (forall bs : list Z, r1 = target (log w) (with_data p1 bs))
    /\ (4 <= length (rsp_data r1))%nat
    /\ observe <$> [Transport p1 r1; Transport p2 r2] = [reads cr; writes cr]
    /\ (data_length p1 = 4 /\ data_length p2 = 4)
    /\ let old := of_le_bytes (take 4 (rsp_data r1)) in
       let new := of_le_bytes (data p2) in
       length (data p2) = 4%nat
       /\ new = Z.lor old (AXIDMA_CR_IOC_IRQ_EN rm)
       /\ Z.land new (AXIDMA_CR_IOC_IRQ_EN rm) = AXIDMA_CR_IOC_IRQ_EN rm
       /\ forall n : Z,
           Z.testbit (AXIDMA_CR_IOC_IRQ_EN rm) n = false ->
           Z.testbit new n = Z.testbit old n.
Proof.
  intros Hen cr Hfill. subst cr.
  destruct w as [bm mo so td p trig lg].
  unfold enableIOC. exec. cbv [snd]. fields. rewrite <- !app_assoc.
  match goal with
  | |- context [Transport ?q (target lg ?q)] =>
      destruct (Hfill lg q eq_refl eq_refl)
        as [Hlen Hany]
  end.
  eexists _, _, _, _. split; [reflexivity|].
  split; [intros bs; symmetry; apply Hany|].
  split; [exact Hlen|].
  split; [destruct s2mm; reflexivity|].
  split; [split; reflexivity|].
  cbv zeta. exec.
  change (Z.to_nat 4) with 4%nat. rewrite fit_take by exact Hlen.
  match goal with
  | |- context [of_le_bytes (le_bytes 4 (Z.lor ?old _))] =>
      assert (Hold : 0 <= old < 2 ^ 32)
  end.
  { match goal with
    | |- 0 <= of_le_bytes ?bs < _ =>
        pose proof (of_le_bytes_range bs) as Hr;
        replace (length bs) with 4%nat in Hr
          by (rewrite length_take; lia)
    end.
    exact Hr. }
  rewrite of_le_bytes_word by (apply lor_word; assumption).
  split; [apply length_le_bytes|].
  split; [reflexivity|]. split.
  - apply Z.bits_inj'. intros n _.
    rewrite Z.land_spec, Z.lor_spec.
    destruct (Z.testbit (AXIDMA_CR_IOC_IRQ_EN rm) n);
      [rewrite orb_true_r|rewrite andb_false_r]; reflexivity.
  - intros n Hn. rewrite Z.lor_spec, Hn, orb_false_r. reflexivity.
Qed.

(** X17.  [clearIOC], run without interruption, writes back what it
    read.  With a target that fills the whole word on a read of the
    status register: it reads four bytes from the status register of the
    chosen direction and DMA instance, waits 50 ps, writes to the same
    register the four bytes the target supplied, whatever the buffer
    held before the read, and waits 50 ps again; it returns whatever the
    two responses are, and leaves offsets and test data alone. *)
Theorem clearIOC_writes_back (s2mm : bool) (ii : Z) (w : World) :
  let sr := if s2mm then S2MM_SR_REG rm ii else MM2S_SR_REG rm ii in
  fills_word target sr ->
  exists (p1 p2 p' : payload) (r1 r2 : response),
    clearIOC rm target s2mm ii w
    = (Val tt,
       mkWorld (burstMode w) (mm2sOffset w) (s2mmOffset w) (testData w) p'
               (dataLoaded_triggered w)
               (log w ++ [Transport p1 r1; Wait (for_time 50);
                          Transport p2 r2; Wait (for_time 50)]))
    /\ (forall bs : list Z, r1 = target (log w) (with_data p1 bs))
    /\ (4 <= length (rsp_data r1))%nat
    /\ (command p1 = TLM_READ_COMMAND /\ command p2 = TLM_WRITE_COMMAND)
    /\ (address p1 = sr /\ address p2 = sr)
    /\ (data_length p1 = 4 /\ data_length p2 = 4)
    /\ data p2 = take 4 (rsp_data r1).
Proof.
  intros sr Hfill. subst sr. destruct w as [bm mo so td p trig lg].
  unfold clearIOC, clearIOC_read, clearIOC_write. exec.
  rewrite <- !app_assoc.
  match goal with
  | |- context [Transport ?q (target lg ?q)] =>
      destruct (Hfill lg q eq_refl eq_refl)
        as [Hlen Hany]
  end.
  eexists _, _, _, _, _. split; [reflexivity|].
  split; [intros bs; symmetry; apply Hany|].
  split; [exact Hlen|].
  split; [split; reflexivity|].
  split; [destruct s2mm; split; reflexivity|].
  split; [split; reflexivity|].
  exec. change (Z.to_nat 4) with 4%nat. apply fit_take. exact Hlen.
Qed.

(** X18.  [clearIOC] is not atomic, and the payload is shared.  When
    [testRun] is between the two waits of [clearIOC] and the S2MM
    process comes out of its own [clearIOC] with data left to request,
    the S2MM process issues its request and leaves the shared payload on
    the S2MM length register; the write-back of [testRun], resumed
    next, then goes to the S2MM length register, not to the MM2S status
    register it had read. *)
Theorem clearIOC_interference (s : system) :
  tr s = Suspended TR_clear_settle ->
  vw s = Suspended VW_clear_deassert ->
  s2mmOffset (world s) < Z.of_nat (length (testData (world s))) ->
  let s1 := resume_verify rm target s VW_clear_deassert in
  let s2 := resume_testRun rm target s1 TR_clear_settle in
  step rm target s s1
  /\ step rm target s1 s2
  /\ tr s2 = Suspended TR_clear_deassert
  /\ vw s2 = Suspended VW_irq
  /\ exists l : list action,
      log (world s2) = log (world s) ++ l
      /\ observe <$> l =
           [writes (S2MM_ADDR_REG rm 0); writes (S2MM_ADDR_MSB_REG rm 0);
            writes (S2MM_LENGTH_REG rm 0);
            waits (for_event s2mmIRQOnComp_posedge);
            writes (S2MM_LENGTH_REG rm 0); waits (for_time 50)].
Proof.
  intros Htr Hvw Hguard s1 s2.
  destruct s as [w trp vwp]. cbn [world tr vw] in *. subst trp vwp.
  destruct (sendDMAReq_run rm target true w)
    as (p1 & l1 & Hreq & Hobs1 & Haddr1).
  cbv zeta in Hreq.
  destruct w as [bm mo so td p trig lg]. fields_in Hreq. fields_in Hguard.
  assert (Hrun1 : verify_loop rm target (mkWorld bm mo so td p trig lg)
                  = (Val VW_irq,
                     mkWorld bm mo
                       (wrapu 64 (so + (if bm
                                        then wrapu 32 (sizeof_float
                                                       * Z.of_nat (length td))
                                        else sizeof_float) / sizeof_float))
                       td p1 trig
                       (lg ++ l1 ++ [Wait (for_event s2mmIRQOnComp_posedge)]))).
  { unfold verify_loop, sendS2MMReq. exec.
    replace (so <? Z.of_nat (length td)) with true
      by (symmetry; apply Z.ltb_lt; exact Hguard).
    rewrite Hreq. rewrite <- app_assoc. reflexivity. }
  assert (Hs1 : s1 = mkSystem (snd (verify_loop rm target
                                      (mkWorld bm mo so td p trig lg)))
                              (Suspended TR_clear_settle)
                              (Suspended VW_irq)).
  { subst s1. unfold resume_verify. cbn [world tr vw].
    change (verifyMemWriteback_from rm target VW_clear_deassert)
      with (verify_loop rm target).
    rewrite Hrun1. reflexivity. }
  split.
  { apply step_verify; [reflexivity|discriminate|discriminate]. }
  split.
  { apply step_testRun; [|discriminate].
    rewrite Hs1. reflexivity. }
  subst s2. rewrite Hs1, Hrun1. unfold resume_testRun.
  cbn [world tr vw snd].
  match goal with
  | |- context [testRun_from rm target TR_clear_settle ?w1] =>
      destruct (clearIOC_write_run target w1) as (p2 & l2 & Hw & Hobs2 & _);
      assert (Hrun2 : testRun_from rm target TR_clear_settle w1
                      = (Val TR_clear_deassert,
                         mkWorld bm mo
                           (wrapu 64 (so + (if bm
                                            then wrapu 32
                                                   (sizeof_float
                                                    * Z.of_nat (length td))
                                            else sizeof_float)
                                           / sizeof_float))
                           td p2 trig
                           ((lg ++ l1
                             ++ [Wait (for_event s2mmIRQOnComp_posedge)])
                            ++ l2)))
  end.
  { unfold testRun_from. unfold mbind, M_bind. rewrite Hw. reflexivity. }
  rewrite Hrun2. cbn [fst snd after]. fields.
  split; [reflexivity|]. split; [reflexivity|].
  exists (l1 ++ [Wait (for_event s2mmIRQOnComp_posedge)] ++ l2).
  split; [rewrite <- !app_assoc; reflexivity|].
  fields_in Hobs2. rewrite Haddr1 in Hobs2.
  rewrite !fmap_app, Hobs1, Hobs2. reflexivity.
Qed.

Lemma floats_to_bytes_cons (f : Z) (fs : list Z) :
  floats_to_bytes (f :: fs) = le_bytes 4 f ++ floats_to_bytes fs.
Proof. reflexivity. Qed.

Lemma length_floats_to_bytes (fs : list Z) :
  length (floats_to_bytes fs) = (4 * length fs)%nat.
Proof.
  induction fs as [|f fs IH]; [reflexivity|].
  rewrite floats_to_bytes_cons, length_app, length_le_bytes, IH. simpl. lia.
Qed.

Lemma length_bytes_to_floats (n : nat) (bs : list Z) :
  length (bytes_to_floats n bs) = n.
Proof.
  revert bs. induction n as [|n IH]; intros bs; simpl; [|rewrite IH];
    reflexivity.
Qed.

(** Decoding the object representation of a float array gives the
    array back. *)
Lemma bytes_to_floats_to_bytes (fs : list Z) :
  Forall (fun f => 0 <= f < 2 ^ 32) fs ->
  bytes_to_floats (length fs) (floats_to_bytes fs) = fs.
Proof.
  induction 1 as [|f fs Hf _ IH]; [reflexivity|].
  rewrite floats_to_bytes_cons. cbn [length bytes_to_floats].
  rewrite take_app_length' by (rewrite length_le_bytes; reflexivity).
  rewrite drop_app_length' by (rewrite length_le_bytes; reflexivity).
  rewrite of_le_bytes_word by exact Hf. rewrite IH. reflexivity.
Qed.

Lemma comparable_self (f : Z) : comparable f -> float_ne f f = false.
Proof.
  intros [_ Hnan]. unfold float_ne, float_eq. rewrite Hnan, Z.eqb_refl.
  reflexivity.
Qed.

(** X19.  What [loadData] puts on the bus.  Called on the empty vector
    of a new module, it issues exactly one write transaction, to
    [MEM_BASE_ADDR], of 40 bytes: the little-endian binary32 encodings
    of 0.0, 1.0, ..., 9.0, which decode back to the ten elements of
    [testData].  When the response is ok it notifies [dataLoaded] and
    returns; otherwise it throws, notifies nothing, and the vector stays
    filled. *)
Theorem loadData_transaction (w : World) :
  testData w = [] ->
  exists (p p' : payload) (r : response),
    r = target (log w) p
    /\ observe (Transport p r) = writes (MEM_BASE_ADDR rm)
    /\ data_length p = 40
    /\ length (data p) = 40%nat
    /\ bytes_to_floats 10 (data p)
       = float_of_size <$> [0; 1; 2; 3; 4; 5; 6; 7; 8; 9]
    /\ testData (snd (loadData rm target w)) = bytes_to_floats 10 (data p)
    /\ (rsp_status r = TLM_OK_RESPONSE ->
        loadData rm target w
        = (Val tt,
           mkWorld (burstMode w) (mm2sOffset w) (s2mmOffset w)
                   (bytes_to_floats 10 (data p)) p' true
                   (log w ++ [Transport p r; Notify dataLoaded])))
    /\ (rsp_status r <> TLM_OK_RESPONSE ->
        loadData rm target w
        = (Exn "Failed to write test data to memory",
           mkWorld (burstMode w) (mm2sOffset w) (s2mmOffset w)
                   (bytes_to_floats 10 (data p)) p' (dataLoaded_triggered w)
                   (log w ++ [Transport p r]))).
Proof.
  destruct w as [bm mo so td p0 trig lg]. cbn [testData]. intros ->.
  unfold loadData. exec. unfold is_response_ok. exec.
  cbv [snd]. fields.
  match goal with
  | |- context [rsp_status (target ?l ?q)] =>
      exists q;
      exists (mkPayload (command q) (address q) (data q) (data_length q)
                        (streaming_width q) (rsp_status (target l q)));
      exists (target l q);
      destruct (rsp_status (target l q)) eqn:Hst
  end;
    cbv beta iota zeta delta [negb]; rewrite <- ?app_assoc;
    (split; [reflexivity|]); (split; [reflexivity|]);
    (split; [vm_compute; reflexivity|]);
    (split; [vm_compute; reflexivity|]);
    (split; [vm_compute; reflexivity|]);
    (split; [vm_compute; reflexivity|]);
    (split; [intros Hok|intros Hno]);
    first [ discriminate Hok
          | exfalso; apply Hno; reflexivity
          | vm_compute bytes_to_floats; reflexivity ].
Qed.

(** X20.  The read-back round trip.  Let the test vector hold floats
    that are not NaNs, and let the target answer the read of the
    written-back vector, at [MEM_BASE_ADDR + 4 * size], with status [st]
    and bytes [bs].  If [st] is ok and [bs] is the object representation
    of the test vector, the read-back issues that one read, finds every
    element equal, prints nothing and ends by the loop condition.  If
    [st] is not ok it throws after the read, whatever [bs] is, without
    comparing or printing anything. *)
Theorem readback_round_trip (w : World) (st : tlm_response_status)
        (bs : list Z) :
  Forall comparable (testData w) ->
  Z.of_nat (length (testData w)) * sizeof_float < 2 ^ 32 ->
  readback_returns rm target (length (testData w)) st bs ->
  exists (p' : payload) (x : action),
    observe x
    = reads (wrapu 64 (MEM_BASE_ADDR rm
                       + wrapu 64 (Z.of_nat (length (testData w))
                                   * sizeof_float)))
    /\ (st = TLM_OK_RESPONSE ->
        bs = floats_to_bytes (testData w) ->
        readback_and_compare rm target w
        = (Val None,
           mkWorld (burstMode w) (mm2sOffset w) (s2mmOffset w) (testData w)
                   p' (dataLoaded_triggered w) (log w ++ [x])))
    /\ (st <> TLM_OK_RESPONSE ->
        readback_and_compare rm target w
        = (Exn "Failed to read writeback data from memory",
           mkWorld (burstMode w) (mm2sOffset w) (s2mmOffset w) (testData w)
                   p' (dataLoaded_triggered w) (log w ++ [x]))).
Proof.
  destruct w as [bm mo so td p trig lg]. fields.
  intros Hcmp Hsize Hret.
  unfold readback_and_compare. exec. unfold is_response_ok. exec.
  match goal with
  | |- context [target ?l ?q] =>
      rewrite !(Hret l q eq_refl eq_refl);
      exists (mkPayload (command q) (address q)
                        (fit (Z.to_nat (data_length q)) bs) (data_length q)
                        (streaming_width q) st),
             (Transport q (mkResponse st bs))
  end.
  cbn [rsp_status rsp_data]. exec.
  split; [reflexivity|]. split.
  - intros Hst Hbs. rewrite Hst, Hbs. cbv beta iota zeta delta [negb].
    rewrite (wrapu_id 32) by (unfold sizeof_float in *; lia).
    replace (Z.to_nat (Z.of_nat (length td) * sizeof_float))
      with (length (floats_to_bytes td))
      by (rewrite length_floats_to_bytes; unfold sizeof_float; lia).
    rewrite fit_id by reflexivity.
    rewrite bytes_to_floats_to_bytes
      by (eapply Forall_impl; [exact Hcmp|]; intros f [Hf _]; exact Hf).
    rewrite compare_from_clean; [reflexivity|].
    intros j [_ Hj]. fields. simpl in Hj.
    destruct (lookup_lt_is_Some_2 td j Hj) as [t Ht].
    exists t, t. split; [exact Ht|]. split; [exact Ht|].
    apply comparable_self.
    rewrite Forall_lookup in Hcmp. exact (Hcmp j t Ht).
  - intros Hst. destruct st; [contradiction| |];
      cbv beta iota zeta delta [negb]; reflexivity.
Qed.

Lemma loadData_rejected (w : World) :
  load_rejected rm target ->
  exists (p' : payload) (x : action),
    loadData rm target w =
      (Exn "Failed to write test data to memory",
       mkWorld (burstMode w) (mm2sOffset w) (s2mmOffset w)
               (push_range 10 0 (testData w)) p' (dataLoaded_triggered w)
               (log w ++ [x]))
    /\ observe x = writes (MEM_BASE_ADDR rm).
Proof.
  intros Hrej. destruct w as [bm mo so td p trig lg].
  unfold loadData. exec. unfold is_response_ok. exec.
  match goal with
  | |- context [rsp_status (target ?l ?q)] =>
      pose proof (Hrej l q eq_refl eq_refl) as Hst;
      destruct (rsp_status (target l q))
  end; [contradiction| |];
    cbv beta iota zeta delta [negb]; rewrite <- ?app_assoc;
    eexists _, _; split; reflexivity.
Qed.

(** X21.  A rejected load ends the memory-to-stream test at once.  With
    a target that does not answer ok to the write of the test vector,
    [testRun] in either mode throws out of [loadData] in its second
    resumption: the history holds the reset wait and the one write to
    memory; no control, address or length register is ever accessed,
    [dataLoaded] is never notified, and the MM2S offset stays 0. *)
Theorem rejected_load_aborts (burst : bool) (fuel : nat) :
  load_rejected rm target ->
  (2 <= fuel)%nat ->
  exists w' : World,
    testRun rm target fuel TR_entry (make burst)
    = (Exn "Failed to write test data to memory", w')
    /\ observe <$> log w'
       = [waits (for_time 20000); writes (MEM_BASE_ADDR rm)]
    /\ ~ loaded (log w')
    /\ dataLoaded_triggered w' = false
    /\ mm2sOffset w' = 0.
Proof.
  intros Hrej Hfuel. destruct fuel as [|[|fuel]]; [lia|lia|].
  rewrite testRun_entry, testRun_step by discriminate.
  destruct (loadData_rejected
              (with_log (fun l => l ++ [Wait (for_time 20000)]) (make burst))
              Hrej) as (p' & x & Hload & Hobs).
  unfold testRun_from. unfold mbind, M_bind. rewrite Hload.
  cbv beta iota.
  eexists. split; [reflexivity|]. unfold with_log, make. fields.
  cbn [app].
  split; [cbn [fmap list_fmap]; rewrite Hobs; reflexivity|].
  split; [|split; reflexivity].
  unfold loaded. rewrite !Exists_cons, Exists_nil, Hobs.
  cbn [observe is_notify]. intros [H|[H|[]]]; discriminate.
Qed.

(** *** A stream-to-memory run on its own *)

Lemma writes_to_prints (a : Z) (ps : list string) :
  writes_to a (Print <$> ps) = 0%nat.
Proof. induction ps as [|s ps IH]; [reflexivity|exact IH]. Qed.

(** The comparison loop never leaves the two vectors: with [n] elements
    in both, no [at] throws. *)
Lemma compare_from_total (n ii : nat) (md : list Z) (w : World) :
  (ii + n <= length (testData w))%nat ->
  (ii + n <= length md)%nat ->
  exists (o : option nat) (ps : list string),
    compare_from n ii md w
    = (Val o, with_log (fun l => l ++ (Print <$> ps)) w)
    /\ (length ps <= 1)%nat.
Proof.
  revert ii. induction n as [|n IH]; intros ii Htd Hmd.
  - exists None, []. split; [|simpl; lia].
    destruct w; simpl. unfold with_log; simpl. rewrite app_nil_r.
    reflexivity.
  - simpl compare_from. exec. fold (testData w).
    destruct (lookup_lt_is_Some_2 (testData w) ii ltac:(lia)) as [t ->].
    destruct (lookup_lt_is_Some_2 md ii ltac:(lia)) as [m ->].
    destruct (float_ne t m).
    + exists (Some ii), [mismatch_message]. split; [|simpl; lia].
      destruct w; reflexivity.
    + apply IH; lia.
Qed.

(** The read-back ends by returning or by the failure of its read. *)
Lemma readback_outcome (w : World) :
  exists (r : result (option nat)) (p' : payload) (x : action)
         (ps : list string),
    readback_and_compare rm target w =
      (r, mkWorld (burstMode w) (mm2sOffset w) (s2mmOffset w) (testData w) p'
                  (dataLoaded_triggered w) (log w ++ x :: (Print <$> ps)))
    /\ observe x =
         reads (wrapu 64 (MEM_BASE_ADDR rm
                          + wrapu 64 (Z.of_nat (length (testData w))
                                      * sizeof_float)))
    /\ ((exists o, r = Val o)
        \/ r = Exn "Failed to read writeback data from memory")
    /\ (length ps <= 1)%nat.
Proof.
  destruct w as [bm mo so td p trig lg]. fields.
  unfold readback_and_compare. exec. unfold is_response_ok. exec.
  match goal with
  | |- context [rsp_status ?r] => destruct (rsp_status r) eqn:Hst
  end; cbv beta iota zeta delta [negb].
  - match goal with
    | |- context [compare_from ?n ?ii ?md ?w0] =>
        destruct (compare_from_total n ii md w0) as (o & ps & -> & Hps);
          [fields; lia|rewrite length_bytes_to_floats; lia|]
    end.
    exists (Val o). eexists _, _, ps. unfold with_log. fields.
    rewrite <- app_assoc.
    split; [reflexivity|]. split; [reflexivity|]. split; [|exact Hps].
    left. exists o. reflexivity.
  - eexists _, _, _, []. split; [reflexivity|]. split; [reflexivity|].
    split; [right; reflexivity|simpl; lia].
  - eexists _, _, _, []. split; [reflexivity|]. split; [reflexivity|].
    split; [right; reflexivity|simpl; lia].
Qed.

Lemma verify_step (fuel : nat) (at_ : verify_at) (w : World) :
  at_ <> VW_returned ->
  verifyMemWriteback rm target (S fuel) at_ w =
    match verifyMemWriteback_from rm target at_ w with
    | (Val at', w') => verifyMemWriteback rm target fuel at' w'
    | (Exn what, w') => (Exn what, w')
    end.
Proof. destruct at_; intros H; try contradiction; reflexivity. Qed.

Lemma verify_returned (fuel : nat) (w : World) :
  verifyMemWriteback rm target fuel VW_returned w = (Val (Some tt), w).
Proof. destruct fuel; reflexivity. Qed.

Lemma verify_clear (fuel : nat) (w : World) :
  exists (p' : payload) (l : list action),
    verifyMemWriteback rm target (S (S fuel)) VW_irq w =
      verifyMemWriteback rm target fuel VW_clear_deassert
        (mkWorld (burstMode w) (mm2sOffset w) (s2mmOffset w) (testData w) p'
                 (dataLoaded_triggered w) (log w ++ l))
    /\ observe <$> l =
         [reads (S2MM_SR_REG rm 0); waits (for_time 50);
          writes (S2MM_SR_REG rm 0); waits (for_time 50)].
Proof.
  destruct w as [bm mo so td p trig lg]. fields.
  destruct (clearIOC_read_run rm target true 0
              (mkWorld bm mo so td p trig lg))
    as (p1 & l1 & Hr & Hobs1 & Haddr).
  cbv zeta in Hr, Hobs1, Haddr. fields_in Hr.
  destruct (clearIOC_write_run target (mkWorld bm mo so td p1 trig (lg ++ l1)))
    as (p2 & l2 & Hw & Hobs2 & _).
  fields_in Hw. fields_in Hobs2. rewrite Haddr in Hobs2.
  exists p2, (l1 ++ l2). split.
  - rewrite verify_step by discriminate.
    unfold verifyMemWriteback_from at 1. exec. rewrite Hr.
    rewrite verify_step by discriminate.
    unfold verifyMemWriteback_from at 1. exec. rewrite Hw.
    rewrite <- app_assoc. reflexivity.
  - rewrite fmap_app, Hobs1, Hobs2. reflexivity.
Qed.

(** From the head of the loop to the end, with [r] requests to go. *)
Lemma verify_requests (r : nat) :
  s2mm_length_distinct rm ->
  forall (w : World) (fuel : nat),
    length (testData w) = 10%nat ->
    0 <= s2mmOffset w ->
    s2mmOffset w + Z.of_nat r * (request_size w / sizeof_float) = 10 ->
    (3 * r + 1 <= fuel)%nat ->
    exists (res : result (option unit)) (w' : World) (l : list action)
           (x : action) (ps : list string),
      verifyMemWriteback rm target fuel VW_clear_deassert w = (res, w')
      /\ (res = Val (Some tt)
          \/ res = Exn "Failed to read writeback data from memory")
      /\ s2mmOffset w' = 10
      /\ mm2sOffset w' = mm2sOffset w
      /\ testData w' = testData w
      /\ writes_to (S2MM_LENGTH_REG rm 0) (log w')
         = (writes_to (S2MM_LENGTH_REG rm 0) (log w) + r)%nat
      /\ log w' = l ++ x :: (Print <$> ps)
      /\ observe x = reads (wrapu 64 (MEM_BASE_ADDR rm + 40))
      /\ (length ps <= 1)%nat.
Proof.
  intros (Haddr & Hmsb & Hsr).
  induction r as [|r IH]; intros w fuel Hlen Hpos Hsum Hfuel.
  - destruct fuel as [|fuel]; [lia|].
    rewrite verify_step by discriminate.
    unfold verifyMemWriteback_from, verify_loop.
    destruct (readback_outcome w) as (res & p' & x & ps & Hrun & Hobs & Hres & Hps).
    rewrite Hlen in Hobs.
    change (wrapu 64 (Z.of_nat 10 * sizeof_float)) with 40 in Hobs.
    unfold mbind at 1, M_bind at 1, get.
    replace (s2mmOffset w <? Z.of_nat (length (testData w))) with false
      by (symmetry; apply Z.ltb_ge; rewrite Hlen; simpl in *; lia).
    unfold mbind, M_bind. rewrite Hrun.
    assert (Hcount : writes_to (S2MM_LENGTH_REG rm 0)
                       (log w ++ x :: (Print <$> ps))
                     = (writes_to (S2MM_LENGTH_REG rm 0) (log w) + 0)%nat).
    { rewrite writes_to_app. f_equal.
      change (x :: (Print <$> ps)) with ([x] ++ (Print <$> ps)).
      rewrite writes_to_app, writes_to_prints.
      unfold writes_to. cbn [fmap list_fmap]. rewrite Hobs. reflexivity. }
    destruct Hres as [[o ->] | ->].
    + cbv beta iota. unfold mret, M_ret. rewrite verify_returned.
      eexists _, _, (log w), x, ps. split; [reflexivity|]. fields.
      split; [left; reflexivity|]. split; [simpl in *; lia|].
      split; [reflexivity|]. split; [reflexivity|].
      split; [exact Hcount|]. split; [reflexivity|].
      split; [exact Hobs|exact Hps].
    + cbv beta iota.
      eexists _, _, (log w), x, ps. split; [reflexivity|]. fields.
      split; [right; reflexivity|]. split; [simpl in *; lia|].
      split; [reflexivity|]. split; [reflexivity|].
      split; [exact Hcount|]. split; [reflexivity|].
      split; [exact Hobs|exact Hps].
  - assert (Hinc : request_size w / sizeof_float = 1
                   \/ request_size w / sizeof_float = 10).
    { unfold request_size. rewrite Hlen. destruct (burstMode w);
        [right|left]; reflexivity. }
    destruct fuel as [|fuel]; [lia|].
    rewrite verify_step by discriminate.
    unfold verifyMemWriteback_from.
    destruct (verify_loop_run rm target w) as [Hreq _]. cbv zeta in Hreq.
    destruct Hreq as (p1 & l1 & Hloop & Hobs1);
      [rewrite Hlen; simpl; lia|].
    rewrite Hloop. fold (request_size w).
    rewrite wrapu_id by lia.
    set (w1 := mkWorld (burstMode w) (mm2sOffset w)
                       (s2mmOffset w + request_size w / sizeof_float)
                       (testData w) p1
                       (dataLoaded_triggered w) (log w ++ l1)).
    destruct fuel as [|[|fuel]]; [lia|lia|].
    destruct (verify_clear fuel w1) as (p2 & l2 & Hclear & Hobs2).
    rewrite Hclear. subst w1. fields.
    match goal with
    | |- context [verifyMemWriteback rm target fuel VW_clear_deassert ?w2] =>
        destruct (IH w2 fuel)
          as (res & w' & l & x & ps & Hrun & Hres & Hoff & Hmo & Htd
              & Hcount & Hlog & Hobs & Hps)
    end; fields.
    + exact Hlen.
    + lia.
    + unfold request_size in *. fields. lia.
    + lia.
    + exists res, w', l, x, ps. split; [exact Hrun|]. split; [exact Hres|].
      split; [exact Hoff|]. split; [exact Hmo|]. split; [exact Htd|].
      split; [|split; [exact Hlog|split; [exact Hobs|exact Hps]]].
      fields_in Hcount. rewrite Hcount. rewrite !writes_to_app.
      replace (writes_to (S2MM_LENGTH_REG rm 0) l1) with 1%nat.
      * replace (writes_to (S2MM_LENGTH_REG rm 0) l2) with 0%nat; [lia|].
        unfold writes_to. rewrite Hobs2. cbn [count_writes].
        rewrite is_write_to_other by congruence. reflexivity.
      * unfold writes_to. rewrite Hobs1. cbn [count_writes].
        rewrite !is_write_to_other by congruence.
        rewrite is_write_to_same. reflexivity.
Qed.

(** X22.  A stream-to-memory run carried to its end.  With a register
    map in which the S2MM length register is an address of its own:
    resumed after [dataLoaded] with the ten-element vector loaded and
    the S2MM offset 0, and every later wait answered (at most 31
    resumptions), [verifyMemWriteback] issues exactly 10 writes to the
    S2MM length register in non-burst mode, exactly 1 in burst mode,
    raises the S2MM offset to 10, touches neither the MM2S offset nor
    the test vector, and ends with one read of the 40 bytes after the
    loaded vector, followed by at most one printed line.  It returns, or
    throws the read-back failure; the two [at] of the comparison never
    throw. *)
Theorem s2mm_run_requests (burst : bool) (w : World) (fuel : nat) :
  s2mm_length_distinct rm ->
  burstMode w = burst ->
  length (testData w) = 10%nat ->
  s2mmOffset w = 0 ->
  (31 <= fuel)%nat ->
  exists (res : result (option unit)) (w' : World) (l : list action)
         (x : action) (ps : list string),
    verifyMemWriteback rm target fuel VW_dataLoaded w = (res, w')
    /\ (res = Val (Some tt)
        \/ res = Exn "Failed to read writeback data from memory")
    /\ s2mmOffset w' = 10
    /\ mm2sOffset w' = mm2sOffset w
    /\ testData w' = testData w
    /\ writes_to (S2MM_LENGTH_REG rm 0) (log w')
       = (writes_to (S2MM_LENGTH_REG rm 0) (log w)
          + (if burst then 1 else 10))%nat
    /\ log w' = l ++ x :: (Print <$> ps)
    /\ observe x = reads (wrapu 64 (MEM_BASE_ADDR rm + 40))
    /\ (length ps <= 1)%nat.
Proof.
  intros Hdistinct Hb Hlen Hoff Hfuel.
  assert (Hsame : verifyMemWriteback rm target fuel VW_dataLoaded w
                  = verifyMemWriteback rm target fuel VW_clear_deassert w)
    by (destruct fuel; reflexivity).
  rewrite Hsame.
  apply (verify_requests (if burst then 1 else 10)%nat Hdistinct w fuel).
  - exact Hlen.
  - lia.
  - unfold request_size. rewrite Hb, Hlen, Hoff.
    destruct burst; reflexivity.
  - destruct burst; lia.
Qed.

Lemma missed_notification_step (s s1 : system) :
  missed_notification s ->
  step rm target s s1 ->
  (exists at_ : testRun_at,
      tr s = Suspended at_ /\ s1 = resume_testRun rm target s at_)
  /\ vw s1 = vw s
  /\ s2mmOffset (world s1) = s2mmOffset (world s)
  /\ testData (world s1) = testData (world s).
Proof.
  intros (Htr & Htrig & Hvw) Hstep.
  destruct Hstep as [s at_ Hat Hne | s at_ Hat Hne Hen].
  - split; [exists at_; split; [exact Hat|reflexivity]|].
    destruct (testRun_from_run rm target at_ (world s))
      as (r & mo' & td' & p' & trig' & l & Hrun & Hcase).
    unfold resume_testRun. rewrite Hrun. cbn [fst snd world tr vw]. fields.
    split; [reflexivity|]. split; [reflexivity|].
    rewrite Hat in Htr.
    destruct at_; cbn [tr_before_data] in Htr; try discriminate.
    + destruct Hcase as (_ & _ & -> & _). reflexivity.
    + destruct Hcase as (_ & _ & -> & _). reflexivity.
    + destruct Hcase as (-> & _). reflexivity.
    + destruct Hcase as (_ & _ & -> & _). reflexivity.
  - rewrite Hvw in Hat. injection Hat as <-.
    rewrite (Hen eq_refl) in Htrig. discriminate.
Qed.

(** X23.  A wait that starts after the notification never ends.  Once
    [verifyMemWriteback] waits on [dataLoaded] while [testRun] is past
    [loadData] and the event has not been triggered for it, then under
    any further scheduling it stays suspended on that wait: every step
    the kernel can take resumes [testRun], the S2MM offset and the test
    vector keep their values, and [verifyMemWriteback] neither requests
    a transfer nor reaches its read-back. *)
Theorem missed_notification_blocks_s2mm (s s' : system) :
  missed_notification s ->
  rtc (step rm target) s s' ->
  vw s' = Suspended VW_dataLoaded
  /\ dataLoaded_triggered (world s') = false
  /\ s2mmOffset (world s') = s2mmOffset (world s)
  /\ testData (world s') = testData (world s)
  /\ forall s'' : system,
      step rm target s' s'' ->
      vw s'' = Suspended VW_dataLoaded
      /\ exists at_ : testRun_at,
          tr s' = Suspended at_ /\ s'' = resume_testRun rm target s' at_.
Proof.
  intros Hs Hreach.
  induction Hreach as [s|s s1 s2 Hstep Hrest IH].
  - destruct Hs as (Htr & Htrig & Hvw).
    split; [exact Hvw|]. split; [exact Htrig|].
    split; [reflexivity|]. split; [reflexivity|].
    intros s'' Hstep.
    destruct (missed_notification_step s s'' (conj Htr (conj Htrig Hvw)) Hstep)
      as (Hat & Hvw' & _).
    split; [rewrite Hvw'; exact Hvw|exact Hat].
  - destruct (missed_notification_step s s1 Hs Hstep)
      as (_ & _ & Hso & Htd).
    destruct (IH (missed_notification_forever rm target s s1 Hs
                    (rtc_once _ _ Hstep)))
      as (Hvw & Htrig & Hso' & Htd' & Hnext).
    split; [exact Hvw|]. split; [exact Htrig|].
    split; [congruence|]. split; [congruence|exact Hnext].
Qed.
End DMATester_coverage.

Section DMATester_coverage_instances.

Import DMATester.

(** [requests_stay_in_region] for the S2MM request that would follow in
    the state of [schedule_requests], where both offsets are 1. *)
Lemma requests_stay_in_region_witness :
  let w := world (schedule_requests axi_dma accepting_target) in
  exists (p1 p2 p3 : payload) (r1 r2 r3 : response),
    log (snd (sendDMAReq axi_dma accepting_target true w))
    = log w ++ [Transport p1 r1; Transport p2 r2; Transport p3 r3]
    /\ requested_address p1 p2 = 4096 + 40 + 4 * s2mmOffset w
    /\ requested_length p3 = 4
    /\ 4096 + 40 <= requested_address p1 p2
    /\ requested_address p1 p2 + requested_length p3 <= 4096 + 40 + 40.
Proof.
  apply (requests_stay_in_region axi_dma accepting_target false
           (schedule_requests axi_dma accepting_target) true).
  - simpl. lia.
  - simpl. lia.
  - exact schedule_requests_reachable.
  - vm_compute. reflexivity.
Defined.


Lemma constant_target_fills_word (bs : list Z) (a : Z) :
  (4 <= length bs)%nat -> fills_word (constant_target bs) a.
Proof. intros H l p _ _. split; [exact H|reflexivity]. Qed.

(** [enableIOC_sets_enable_bit] for the layout of the AXI DMA and a
    control register that reads 0x00010002: 0x00011002 is written. *)
Lemma enableIOC_sets_enable_bit_witness :
  exists (p1 p2 : payload) (r1 r2 : response),
    log (snd (enableIOC axi_dma (constant_target [2; 0; 1; 0]) true 0
                (make false)))
    = log (make false) ++ [Transport p1 r1; Transport p2 r2]
    /\ (forall bs : list Z,
          r1 = constant_target [2; 0; 1; 0] (log (make false))
                 (with_data p1 bs))
    /\ (4 <= length (rsp_data r1))%nat
    /\ observe <$> [Transport p1 r1; Transport p2 r2]
       = [reads (S2MM_CR_REG axi_dma 0); writes (S2MM_CR_REG axi_dma 0)]
    /\ (data_length p1 = 4 /\ data_length p2 = 4)
    /\ let old := of_le_bytes (take 4 (rsp_data r1)) in
       let new := of_le_bytes (data p2) in
       length (data p2) = 4%nat
       /\ new = Z.lor old (AXIDMA_CR_IOC_IRQ_EN axi_dma)
       /\ Z.land new (AXIDMA_CR_IOC_IRQ_EN axi_dma)
          = AXIDMA_CR_IOC_IRQ_EN axi_dma
       /\ forall n : Z,
           Z.testbit (AXIDMA_CR_IOC_IRQ_EN axi_dma) n = false ->
           Z.testbit new n = Z.testbit old n.
Proof.
  apply (enableIOC_sets_enable_bit axi_dma (constant_target [2; 0; 1; 0])
           true 0 (make false)).
  - simpl. lia.
  - apply constant_target_fills_word. simpl. lia.
Defined.

(** [clearIOC_writes_back] for the layout of the AXI DMA and an MM2S
    status register that reads 0x00001000: the same four bytes are
    written back. *)
Lemma clearIOC_writes_back_witness :
  exists (p1 p2 p' : payload) (r1 r2 : response),
    clearIOC axi_dma (constant_target [0; 16; 0; 0]) false 0 (make false)
    = (Val tt,
       mkWorld false 0 0 [] p' false
               ([] ++ [Transport p1 r1; Wait (for_time 50);
                       Transport p2 r2; Wait (for_time 50)]))
    /\ (forall bs : list Z,
          r1 = constant_target [0; 16; 0; 0] [] (with_data p1 bs))
    /\ (4 <= length (rsp_data r1))%nat
    /\ (command p1 = TLM_READ_COMMAND /\ command p2 = TLM_WRITE_COMMAND)
    /\ (address p1 = MM2S_SR_REG axi_dma 0
        /\ address p2 = MM2S_SR_REG axi_dma 0)
    /\ (data_length p1 = 4 /\ data_length p2 = 4)
    /\ data p2 = take 4 (rsp_data r1).
Proof.
  apply (clearIOC_writes_back axi_dma (constant_target [0; 16; 0; 0])
           false 0 (make false)).
  apply constant_target_fills_word. simpl. lia.
Defined.

Lemma schedule_clearing_reachable :
  rtc (step axi_dma accepting_target) (boot false)
      (schedule_clearing axi_dma accepting_target).
Proof.
  unfold schedule_clearing.
  eapply rtc_r;
    [eapply rtc_r; [eapply rtc_r; [exact schedule_requests_reachable|]|]|].
  - apply step_verify;
      [vm_compute; reflexivity|discriminate|discriminate].
  - apply step_verify;
      [vm_compute; reflexivity|discriminate|discriminate].
  - apply step_testRun; [vm_compute; reflexivity|discriminate].
Qed.

(** [clearIOC_interference] in a state that the kernel can reach: the
    S2MM process has cleared its first interrupt, [testRun] has read the
    MM2S status register and waits. *)
Lemma clearIOC_interference_witness :
  let s := schedule_clearing axi_dma accepting_target in
  let s1 := resume_verify axi_dma accepting_target s VW_clear_deassert in
  let s2 := resume_testRun axi_dma accepting_target s1 TR_clear_settle in
  rtc (step axi_dma accepting_target) (boot false) s
  /\ step axi_dma accepting_target s s1
  /\ step axi_dma accepting_target s1 s2
  /\ tr s2 = Suspended TR_clear_deassert
  /\ vw s2 = Suspended VW_irq
  /\ exists l : list action,
      log (world s2) = log (world s) ++ l
      /\ observe <$> l =
           [writes (S2MM_ADDR_REG axi_dma 0);
            writes (S2MM_ADDR_MSB_REG axi_dma 0);
            writes (S2MM_LENGTH_REG axi_dma 0);
            waits (for_event s2mmIRQOnComp_posedge);
            writes (S2MM_LENGTH_REG axi_dma 0); waits (for_time 50)].
Proof.
  intros s s1 s2. split; [exact schedule_clearing_reachable|].
  apply (clearIOC_interference axi_dma accepting_target s).
  - vm_compute. reflexivity.
  - vm_compute. reflexivity.
  - vm_compute. reflexivity.
Defined.

(** [loadData_transaction] for the new module in non-burst mode, with a
    target that accepts. *)
Lemma loadData_transaction_witness :
  exists (p p' : payload) (r : response),
    r = accepting_target (log (make false)) p
    /\ observe (Transport p r) = writes (MEM_BASE_ADDR axi_dma)
    /\ data_length p = 40
    /\ length (data p) = 40%nat
    /\ bytes_to_floats 10 (data p)
       = float_of_size <$> [0; 1; 2; 3; 4; 5; 6; 7; 8; 9]
    /\ testData (snd (loadData axi_dma accepting_target (make false)))
       = bytes_to_floats 10 (data p)
    /\ (rsp_status r = TLM_OK_RESPONSE ->
        loadData axi_dma accepting_target (make false)
        = (Val tt,
           mkWorld false 0 0 (bytes_to_floats 10 (data p)) p' true
                   ([] ++ [Transport p r; Notify dataLoaded])))
    /\ (rsp_status r <> TLM_OK_RESPONSE ->
        loadData axi_dma accepting_target (make false)
        = (Exn "Failed to write test data to memory",
           mkWorld false 0 0 (bytes_to_floats 10 (data p)) p' false
                   ([] ++ [Transport p r]))).
Proof.
  apply (loadData_transaction axi_dma accepting_target (make false)).
  reflexivity.
Defined.

(** [readback_round_trip] for the loaded test vector and a memory that
    returns its 40 bytes. *)
Lemma readback_round_trip_witness :
  let w := with_testData (push_range 10 0) (make false) in
  let memory := constant_target (floats_to_bytes (testData w)) in
  exists (p' : payload) (x : action),
    observe x = reads (4096 + 40)
    /\ readback_and_compare axi_dma memory w
       = (Val None, mkWorld false 0 0 (testData w) p' false ([] ++ [x])).
Proof.
  intros w memory.
  destruct (readback_round_trip axi_dma memory w TLM_OK_RESPONSE
              (floats_to_bytes (testData w)))
    as (p' & x & Hobs & Hok & _).
  - repeat constructor; vm_compute; reflexivity || discriminate.
  - vm_compute. reflexivity.
  - intros l p _ _. reflexivity.
  - exists p', x. split; [exact Hobs|]. apply Hok; reflexivity.
Defined.

(** [rejected_load_aborts] for the rejecting target, in burst mode. *)
Lemma rejected_load_aborts_witness :
  exists w' : World,
    testRun axi_dma rejecting_target 32 TR_entry (make true)
    = (Exn "Failed to write test data to memory", w')
    /\ observe <$> log w'
       = [waits (for_time 20000); writes (MEM_BASE_ADDR axi_dma)]
    /\ ~ loaded (log w')
    /\ dataLoaded_triggered w' = false
    /\ mm2sOffset w' = 0.
Proof.
  apply (rejected_load_aborts axi_dma rejecting_target true 32).
  - intros l p _ _. discriminate.
  - lia.
Defined.

(** [s2mm_run_requests] for the layout of the AXI DMA, the accepting
    target and the loaded vector, in non-burst mode with 31
    resumptions. *)
Lemma s2mm_run_requests_witness :
  let w := with_testData (push_range 10 0) (make false) in
  exists (res : result (option unit)) (w' : World) (l : list action)
         (x : action) (ps : list string),
    verifyMemWriteback axi_dma accepting_target 31 VW_dataLoaded w = (res, w')
    /\ (res = Val (Some tt)
        \/ res = Exn "Failed to read writeback data from memory")
    /\ s2mmOffset w' = 10
    /\ mm2sOffset w' = mm2sOffset w
    /\ testData w' = testData w
    /\ writes_to (S2MM_LENGTH_REG axi_dma 0) (log w')
       = (writes_to (S2MM_LENGTH_REG axi_dma 0) (log w) + 10)%nat
    /\ log w' = l ++ x :: (Print <$> ps)
    /\ observe x = reads (wrapu 64 (MEM_BASE_ADDR axi_dma + 40))
    /\ (length ps <= 1)%nat.
Proof.
  intros w.
  apply (s2mm_run_requests axi_dma accepting_target false w 31).
  - unfold s2mm_length_distinct. simpl. lia.
  - reflexivity.
  - reflexivity.
  - reflexivity.
  - lia.
Defined.

(** [missed_notification_blocks_s2mm] from the state of
    [schedule_load_first], one resumption of [testRun] later. *)
Lemma missed_notification_blocks_s2mm_witness :
  let s := schedule_load_first axi_dma accepting_target in
  let s' := resume_testRun axi_dma accepting_target s TR_irq in
  vw s' = Suspended VW_dataLoaded
  /\ dataLoaded_triggered (world s') = false
  /\ s2mmOffset (world s') = s2mmOffset (world s)
  /\ testData (world s') = testData (world s)
  /\ forall s'' : system,
      step axi_dma accepting_target s' s'' ->
      vw s'' = Suspended VW_dataLoaded
      /\ exists at_ : testRun_at,
          tr s' = Suspended at_
          /\ s'' = resume_testRun axi_dma accepting_target s' at_.
Proof.
  intros s s'.
  apply (missed_notification_blocks_s2mm axi_dma accepting_target s s').
  - vm_compute. repeat split.
  - apply rtc_once. apply step_testRun; [vm_compute; reflexivity|discriminate].
Defined.
End DMATester_coverage_instances.
